(** * CochleaReg: the registration logic of the SlicerCochlea plugin

    A shallow embedding of [CochleaReg/CochleaReg.py]: the logic class
    [CochleaRegLogic] ([initRun], [runAcir], [run]), the click handler of
    the widget ([onApplyBtnClick]) and the self test ([runTest],
    [testSlicerCochleaRegistration]).

    The plugin is orchestration code: it moves files around, calls the
    elastix binaries through the helper class [VisSimCommonLogic] and
    loads the results into the scene of the host application.  The model
    therefore is a state-and-exception monad over a world made of
    - the file system (a finite map from paths to contents),
    - the node objects of the host and the list of those in the scene,
    - what was printed and logged,
    - the sequence of outward calls (files copied, tools started, ...).

    Conventions.
    - Python 2 semantics (the file header names Slicer 4.10.0, which
      embeds Python 2.7): [open(p, "rw")] opens [p] for reading.
    - POSIX paths ([os.path] is [posixpath]); a path names one file, there
      are no links.
    - Floating point numbers are kept abstract: a type [F] with its
      product and its [str]; nothing below depends on rounding.
    - [VisSimCommon] is imported by the file but is not part of it; its
      methods are fields of the record [VisSimCommon] and every statement
      holds for all of them. *)

From Stdlib Require Import ZArith Ascii DecimalString.
From stdpp Require Import gmap strings list fin_maps.

Local Open Scope Z_scope.

(** ** Python strings *)

(** [pat in s] for two strings. *)
Fixpoint str_in (pat s : string) : bool :=
  String.prefix pat s ||
  match s with
  | EmptyString => false
  | String _ s' => str_in pat s'
  end.

Definition startswith (s pre : string) : bool := String.prefix pre s.

Definition endswith (s suf : string) : bool :=
  String.prefix (String.rev suf) (String.rev s).

(** [str(n)] for an integer. *)
Definition str_int (n : Z) : string := NilZero.string_of_int (Z.to_int n).

Definition LF : ascii := "010"%char.

(** [f.readlines()]: the content cut after every line feed; [cur] holds
    the characters of the current line, last one first. *)
Fixpoint readlines_go (cur : string) (s : string) : list string :=
  match s with
  | EmptyString =>
      match cur with
      | EmptyString => []
      | _ => [String.rev cur]
      end
  | String c s' =>
      if decide (c = LF)
      then String.rev (String c cur) :: readlines_go EmptyString s'
      else readlines_go (String c cur) s'
  end.

Definition readlines (content : string) : list string :=
  readlines_go EmptyString content.

(** The text a sequence of [write] calls leaves in a file. *)
Definition str_concat (ls : list string) : string :=
  foldr String.append EmptyString ls.

(** ** os.path (posixpath) *)

(** [os.path.join(a, b)]. *)
Definition join (a b : string) : string :=
  if startswith b "/" then b
  else if decide (a = "") then b
  else if endswith a "/" then a +:+ b
  else a +:+ "/" +:+ b.

(** [p.rfind(c)] for a single character: [None] stands for [-1]. *)
Fixpoint rfind_go (c : ascii) (s : string) (i : nat) (last : option nat)
  : option nat :=
  match s with
  | EmptyString => last
  | String a s' =>
      rfind_go c s' (S i) (if decide (a = c) then Some i else last)
  end.

Definition rfind (c : ascii) (s : string) : option nat := rfind_go c s 0%nat None.

(** [p[i:]] and [p[:i]]. *)
Fixpoint str_drop (i : nat) (s : string) : string :=
  match i, s with
  | O, _ => s
  | S i', String _ s' => str_drop i' s'
  | S _, EmptyString => EmptyString
  end.

Fixpoint str_take (i : nat) (s : string) : string :=
  match i, s with
  | O, _ => EmptyString
  | S i', String a s' => String a (str_take i' s')
  | S _, EmptyString => EmptyString
  end.

(** [os.path.basename(p)]: what follows the last slash. *)
Definition basename (p : string) : string :=
  match rfind "/"%char p with
  | None => p
  | Some i => str_drop (S i) p
  end.

(** The loop of [genericpath._splitext] that skips leading dots: is there
    a character other than a dot in [p[from:upto]]? *)
Fixpoint has_non_dot (s : string) : bool :=
  match s with
  | EmptyString => false
  | String a s' => if decide (a = "."%char) then has_non_dot s' else true
  end.

(** [os.path.splitext(p)]. *)
Definition splitext (p : string) : string * string :=
  match rfind "."%char p with
  | None => (p, EmptyString)
  | Some dotIndex =>
      let filenameIndex :=
        match rfind "/"%char p with None => 0%nat | Some s => S s end in
      if decide (filenameIndex ≤ dotIndex)%nat then
        if has_non_dot (str_take (dotIndex - filenameIndex) (str_drop filenameIndex p))
        then (str_take dotIndex p, str_drop dotIndex p)
        else (p, EmptyString)
      else (p, EmptyString)
  end.

(** [os.path.splitext(os.path.basename(p))[0]]: the node name of a file. *)
Definition imgName (p : string) : string := (splitext (basename p)).1.

(** [np.sum(point)]. *)
Definition np_sum (pt : list Z) : Z := foldr Z.add 0 pt.

(** [np.sum] adds in [int64], and a sum out of range wraps around; the
    sum above is the one it gives for a point whose coordinates are
    [int64] values with a sum that is one, as the voxel coordinates of
    an image are.  Where a statement needs the non-zero sum of the code
    it asks for this. *)
Definition fits_int64 (pt : list Z) : Prop :=
  Forall (λ c, - 2 ^ 63 ≤ c < 2 ^ 63) pt ∧ - 2 ^ 63 ≤ np_sum pt < 2 ^ 63.

(** ** Values, nodes and the world *)

(** The arithmetic the file does on floating point numbers. *)
Class PyFloat (F : Type) := {
  fmul : F → F → F;        (* [a * b] *)
  fsub : F → F → F;        (* [a - b] *)
  str_float : F → string;  (* [str(a)] *)
}.

Section Model.
Context {F : Type} `{!PyFloat F}.
(** Python objects the logic only passes on (configuration entries, the
    tuple made by [v2t]). *)
Context {PyObj : Type}.

Inductive Exn :=
| IOError (path : string)         (* no such file *)
| SameFileError (path : string)   (* [shutil.Error]: source is destination *)
| OSError (path : string)
| AttributeError                  (* a method of [None] *)
| IndexError
| OtherError (msg : string).

(** What is printed or returned. *)
Inductive PyVal :=
| VStr (s : string)
| VInt (n : Z)
| VBool (b : bool)
| VFloat (x : F)
| VPoint (pt : list Z)
| VNone
| VNode (id : nat)
| VExn (e : Exn)
| VTypeOf (v : PyVal).

(** The second component of a load result, as a value. *)
Definition node_val (id : option nat) : PyVal :=
  match id with
  | Some i => VNode i
  | None => VNone
  end.

Definition str_val (s : option string) : PyVal :=
  match s with
  | Some x => VStr x
  | None => VNone
  end.

Inductive Output :=
| Printed (vs : list PyVal)   (* [print(...)] *)
| Logged (msg : string).      (* [logging.info(...)] *)

(** A node object of the host application. *)
Inductive NodeClass := ScalarVolumeNode | TransformNode | MarkupsFiducialNode.

Record Node := {
  nName : string;                 (* [GetName()] *)
  nClass : NodeClass;
  nStorage : option string;       (* [GetStorageNode().GetFileName()] *)
  (* [GetImageData().GetDimensions()] and [GetOrigin()] of a volume *)
  nVolume : option (Z * Z * Z * (F * F * F));
  nFiducials : list (F * F * F * string);  (* markups: position, label *)
  nData : string;                 (* what [saveNode] writes *)
}.

Definition with_name (s : string) (n : Node) : Node :=
  {| nName := s; nClass := nClass n; nStorage := nStorage n;
     nVolume := nVolume n; nFiducials := nFiducials n;
     nData := nData n |}.

Definition with_storage (p : string) (n : Node) : Node :=
  {| nName := nName n; nClass := nClass n; nStorage := Some p;
     nVolume := nVolume n; nFiducials := nFiducials n;
     nData := nData n |}.

(** What the model takes from outside the program: how the host reads
    the geometry of an image file, the clock, the network and the cache
    directory of the scene. *)
Class Host := {
  read_geometry : string → Z * Z * Z * (F * F * F);
  clock : nat → F;                   (* the [n]-th [time.time()] *)
  remote : string → option string;   (* what a URI serves *)
  cacheDir : string;                 (* [GetRemoteCacheDirectory()] *)
}.
Context `{!Host}.

(** The global variables [vtVars] of [VisSimCommon], as far as the logic
    reads them. *)
Record VtVars := {
  outputPath : string;
  parsPath : string;
  imgType : string;
  elastixBinPath : string;
  transformixBinPath : string;
  croppingLength : PyObj;
  RSxyz : PyObj;
  hrChk : PyObj;
  noOutput : PyObj;
}.

Definition set_outputPath (p : string) (vt : VtVars) : VtVars :=
  {| outputPath := p; parsPath := parsPath vt; imgType := imgType vt;
     elastixBinPath := elastixBinPath vt;
     transformixBinPath := transformixBinPath vt;
     croppingLength := croppingLength vt; RSxyz := RSxyz vt;
     hrChk := hrChk vt; noOutput := noOutput vt |}.

Definition set_parsPath (p : string) (vt : VtVars) : VtVars :=
  {| outputPath := outputPath vt; parsPath := p; imgType := imgType vt;
     elastixBinPath := elastixBinPath vt;
     transformixBinPath := transformixBinPath vt;
     croppingLength := croppingLength vt; RSxyz := RSxyz vt;
     hrChk := hrChk vt; noOutput := noOutput vt |}.

(** Outward calls, in the order they are made. *)
Inductive Event :=
| EvClearOutputs (dir : string)
| EvSaveNode (id : nat) (path : string)
| EvCopyFile (src dst : string)
| EvCropping (vol : nat) (pointT croppingLength RSxyz hrChk : PyObj)
| EvElastix (bin fixedImg movingImg outDir pars : string) (noOut : PyObj)
    (tag : string)
| EvInvertTransform (trans transInv fixedImg : string) (noOut : PyObj)
    (tag : string)
| EvOpenWrite (path : string)
| EvClose (path : string)
| EvTransformix (bin movingImg outDir trans : string) (noOut : PyObj)
    (tag : string)
| EvRename (src dst : string)
| EvLoadTransform (path : string)
| EvLoadVolume (path : string)
| EvRemoveNode (id : nat)
| EvRemoveTmps
| EvFuse (fixedVol : nat) (registered : PyVal)
| EvDownload (uri fileName nodeName checksum : string)
| EvSceneClear
| EvAddFiducial (id : nat)
| EvGui (widget text : string).

Record World := {
  files : gmap string string;   (* path ↦ content *)
  nodes : gmap nat Node;        (* node objects, by identity *)
  scene : list nat;             (* the nodes in [slicer.mrmlScene] *)
  stdout : list Output;
  calls : list Event;
  ticks : nat;                  (* number of [time.time()] calls so far *)
}.

Definition upd_files (f : gmap string string → gmap string string) (w : World) :=
  {| files := f (files w); nodes := nodes w; scene := scene w;
     stdout := stdout w; calls := calls w; ticks := ticks w |}.
Definition upd_nodes (f : gmap nat Node → gmap nat Node) (w : World) :=
  {| files := files w; nodes := f (nodes w); scene := scene w;
     stdout := stdout w; calls := calls w; ticks := ticks w |}.
Definition upd_scene (f : list nat → list nat) (w : World) :=
  {| files := files w; nodes := nodes w; scene := f (scene w);
     stdout := stdout w; calls := calls w; ticks := ticks w |}.
Definition emit (o : Output) (w : World) :=
  {| files := files w; nodes := nodes w; scene := scene w;
     stdout := stdout w ++ [o]; calls := calls w; ticks := ticks w |}.
Definition record (e : Event) (w : World) :=
  {| files := files w; nodes := nodes w; scene := scene w;
     stdout := stdout w; calls := calls w ++ [e]; ticks := ticks w |}.
Definition tick (w : World) :=
  {| files := files w; nodes := nodes w; scene := scene w;
     stdout := stdout w; calls := calls w; ticks := S (ticks w) |}.

(** ** The monad: state and exceptions *)

Inductive Outcome (A : Type) :=
| Ok (a : A)
| Raise (e : Exn).
Global Arguments Ok {A} a.
Global Arguments Raise {A} e.

Definition M (A : Type) : Type := World → Outcome A * World.

Definition ret {A} (a : A) : M A := λ w, (Ok a, w).
Definition raise {A} (e : Exn) : M A := λ w, (Raise e, w).
Definition bind {A B} (m : M A) (f : A → M B) : M B :=
  λ w, match m w with
       | (Ok a, w') => f a w'
       | (Raise e, w') => (Raise e, w')
       end.
Definition modify (f : World → World) : M unit := λ w, (Ok tt, f w).
Definition gets {A} (f : World → A) : M A := λ w, (Ok (f w), w).
(** [try: m except Exception: h]. *)
Definition try_except {A} (m : M A) (h : Exn → M A) : M A :=
  λ w, match m w with
       | (Ok a, w') => (Ok a, w')
       | (Raise e, w') => h e w'
       end.

Declare Scope py_scope.
Delimit Scope py_scope with py.
Notation "x <- m ;; k" := (bind m (λ x, k))
  (at level 100, m at next level, k at level 200, right associativity)
  : py_scope.
Notation "m ;; k" := (bind m (λ _, k))
  (at level 100, k at level 200, right associativity) : py_scope.
Local Open Scope py_scope.

(** ** Python and host primitives *)

Definition print (vs : list PyVal) : M unit := modify (emit (Printed vs)).
Definition logging_info (msg : string) : M unit := modify (emit (Logged msg)).

(** Dereferencing a node; a reference without object behaves as [None]. *)
Definition the_node (id : nat) : M Node :=
  λ w, match nodes w !! id with
       | Some n => (Ok n, w)
       | None => (Raise AttributeError, w)
       end.

Definition GetName (id : nat) : M string :=
  n <- the_node id ;; ret (nName n).

(** [node.GetStorageNode()]: the file name held by the storage node, if
    there is one. *)
Definition GetStorageNode (id : nat) : M (option string) :=
  n <- the_node id ;; ret (nStorage n).

(** [node.GetStorageNode().GetFileName()]. *)
Definition GetStorageFileName (id : nat) : M string :=
  st <- GetStorageNode id ;;
  match st with
  | Some p => ret p
  | None => raise AttributeError
  end.

(** [node.SetName(s)] on the second component of a load result. *)
Definition SetName (id : option nat) (s : string) : M unit :=
  match id with
  | None => raise AttributeError
  | Some i =>
      n <- the_node i ;;
      modify (upd_nodes (insert i (with_name s n)))
  end.

(** [slicer.util.saveNode(node, path)]: writes the file and makes it the
    node's storage. *)
Definition saveNode (id : nat) (path : string) : M bool :=
  n <- the_node id ;;
  modify (record (EvSaveNode id path)) ;;
  modify (upd_files (insert path (nData n))) ;;
  modify (upd_nodes (insert id (with_storage path n))) ;;
  ret true.

(** [shutil.copyfile(src, dst)]. *)
Definition copyfile (src dst : string) : M unit :=
  modify (record (EvCopyFile src dst)) ;;
  c <- gets (λ w, files w !! src) ;;
  match c with
  | None => raise (IOError src)
  | Some content =>
      if decide (src = dst) then raise (SameFileError src)
      else modify (upd_files (insert dst content))
  end.

(** [os.rename(src, dst)]. *)
Definition rename (src dst : string) : M unit :=
  modify (record (EvRename src dst)) ;;
  c <- gets (λ w, files w !! src) ;;
  match c with
  | None => raise (OSError src)
  | Some content => modify (upd_files (λ fs, <[dst := content]> (delete src fs)))
  end.

(** [f = open(path, "rw"); ls = f.readlines(); f.close()]. *)
Definition read_lines (path : string) : M (list string) :=
  c <- gets (λ w, files w !! path) ;;
  match c with
  | None => raise (IOError path)
  | Some content => ret (readlines content)
  end.

(** [open(path, "w")] truncates, [f.write(s)] appends, [f.close()]. *)
Definition open_w (path : string) : M unit :=
  modify (record (EvOpenWrite path)) ;;
  modify (upd_files (insert path EmptyString)).

Definition file_write (path s : string) : M unit :=
  modify (upd_files (λ fs, <[path := default EmptyString (fs !! path) +:+ s]> fs)).

Definition file_close (path : string) : M unit :=
  modify (record (EvClose path)).

Definition GetDimensions (id : nat) : M (Z * Z * Z) :=
  n <- the_node id ;;
  match nVolume n with
  | Some g => ret g.1
  | None => raise AttributeError
  end.

Definition GetOrigin (id : nat) : M (F * F * F) :=
  n <- the_node id ;;
  match nVolume n with
  | Some g => ret g.2
  | None => raise AttributeError
  end.

(** A node made by loading a file; the host reads the geometry of a
    volume from the content. *)
Definition loaded_node (c : NodeClass) (path content : string) : Node :=
  {| nName := imgName path; nClass := c; nStorage := Some path;
     nVolume := match c with
                | ScalarVolumeNode => Some (read_geometry content)
                | _ => None
                end;
     nFiducials := []; nData := content |}.

Definition load (c : NodeClass) (path : string) : M (bool * option nat) :=
  content <- gets (λ w, files w !! path) ;;
  match content with
  | None => ret (false, None)
  | Some content =>
      id <- gets (λ w, fresh (dom (nodes w))) ;;
      modify (upd_nodes (insert id (loaded_node c path content))) ;;
      modify (upd_scene (λ sc, sc ++ [id])) ;;
      ret (true, Some id)
  end.

(** [slicer.util.loadVolume(path, returnNode=True)]. *)
Definition loadVolume (path : string) : M (bool * option nat) :=
  modify (record (EvLoadVolume path)) ;; load ScalarVolumeNode path.

(** [slicer.util.loadTransform(path, returnNode=True)]. *)
Definition loadTransform (path : string) : M (bool * option nat) :=
  modify (record (EvLoadTransform path)) ;; load TransformNode path.

(** [slicer.mrmlScene.RemoveNode(node)]: the object lives on, the scene
    no longer holds it. *)
Definition RemoveNode (id : nat) : M unit :=
  modify (record (EvRemoveNode id)) ;;
  modify (upd_scene (filter (λ i, i ≠ id))).

(** [lst[i]]. *)
Definition index {A} (l : list A) (i : nat) : M A :=
  match l !! i with
  | Some x => ret x
  | None => raise IndexError
  end.

(** ** The helper class VisSimCommonLogic *)

(** The methods of [VisSimCommon.VisSimCommonLogic] the file calls.  The
    class is imported, not defined, by [CochleaReg.py]; each method is a
    field here, so that what is proved holds whatever the helpers do
    within these types: they read nodes, start processes that change the
    file system, and the cleanup unloads the nodes it takes for temporary. *)
Class VisSimCommon := {
  (* [setGlobalVariables(0)]: the default [vtVars] *)
  setGlobalVariables : VtVars;
  (* [ptRAS2IJK(fiducialNode, volumeNode, 0)] *)
  ptRAS2IJK : Node → Node → list Z;
  (* [ptIJK2RAS(point, volumeNode)] *)
  ptIJK2RAS : list Z → Node → F * F * F;
  v2t : list Z → PyObj;
  (* [getDirs(volumeNode)]: the direction matrix, row after row *)
  getDirs : Node → list F;
  (* [runCropping]: the path it returns and what it leaves on disk *)
  cropped_path : VtVars → Node → PyObj → PyObj → PyObj → PyObj → string;
  cropping_files : VtVars → Node → PyObj → PyObj → PyObj → PyObj →
                   gmap string string → gmap string string;
  (* what the process started by [runElastix], [runElxInvertTransform] or
     [runTransformix] leaves on disk, by the call made *)
  binary_files : Event → gmap string string → gmap string string;
  (* [removeTmpsFiles]: the files that remain, the nodes it unloads *)
  tmp_files : VtVars → gmap string string → gmap string string;
  tmp_node : Node → bool;
}.

Context `{!VisSimCommon}.
(** The exit code of the process started by a call, given the disk. *)
Context (exit_code : Event → gmap string string → Z).

(** Is path [p] inside folder [dir]? *)
Definition in_folder (dir p : string) : bool := String.prefix (join dir "") p.

(** Modelled from the spec: [removeOtputsFolderContents] of
    [VisSimCommonLogic], whose code is not in [CochleaReg.py].  The spec
    speaks of "a shared output-folder that is cleared at the start of each
    run": the call removes every file inside the output folder of the
    global variables in force when it is made. *)
Definition removeOtputsFolderContents (vt : VtVars) : M unit :=
  modify (record (EvClearOutputs (outputPath vt))) ;;
  modify (upd_files (filter (λ kv, in_folder (outputPath vt) kv.1 = false))).

(** Does the cleanup leave node [id] in the scene? *)
Definition keeps_node (nds : gmap nat Node) (id : nat) : bool :=
  match nds !! id with
  | Some n => negb (tmp_node n)
  | None => true
  end.

Definition removeTmpsFiles (vt : VtVars) : M unit :=
  modify (record EvRemoveTmps) ;;
  modify (upd_files (tmp_files vt)) ;;
  modify (λ w, upd_scene (filter (λ id, keeps_node (nodes w) id = true)) w).

Definition ptRAS2IJK_of (fiducial volume : nat) : M (list Z) :=
  f <- the_node fiducial ;;
  v <- the_node volume ;;
  ret (ptRAS2IJK f v).

Definition runCropping (vt : VtVars) (volume : nat)
    (pointT croppingLength RSxyz hrChk : PyObj) : M string :=
  v <- the_node volume ;;
  modify (record (EvCropping volume pointT croppingLength RSxyz hrChk)) ;;
  modify (upd_files (cropping_files vt v pointT croppingLength RSxyz hrChk)) ;;
  ret (cropped_path vt v pointT croppingLength RSxyz hrChk).

(** A helper that starts a process and returns its exit code. *)
Definition run_binary (e : Event) : M Z :=
  modify (record e) ;;
  c <- gets (λ w, exit_code e (files w)) ;;
  modify (upd_files (binary_files e)) ;;
  ret c.

Definition runElastix (bin fixedImg movingImg outDir pars : string)
    (noOut : PyObj) (tag : string) : M Z :=
  run_binary (EvElastix bin fixedImg movingImg outDir pars noOut tag).

Definition runElxInvertTransform (trans transInv fixedImg : string)
    (noOut : PyObj) (tag : string) : M Z :=
  run_binary (EvInvertTransform trans transInv fixedImg noOut tag).

Definition runTransformix (bin movingImg outDir trans : string)
    (noOut : PyObj) (tag : string) : M Z :=
  run_binary (EvTransformix bin movingImg outDir trans noOut tag).

Definition fuseTwoImages (fixedVol : nat) (registered : PyVal) : M unit :=
  modify (record (EvFuse fixedVol registered)).

(** ** CochleaRegLogic *)

(** The attributes [initRun] leaves on [self]. *)
Record RunVars := {
  vtVars : VtVars;
  resTransPath : string;
  resOldDefPath : string;
  resDefPath : string;
  transNodeName : string;
  fixedRegTmpPath : string;
  movingRegTmpPath : string;
  fixedPath : string;
  movingPath : string;
}.

(** Lines 270-273 and 274-277: save a volume that has no file yet, then
    read the file name of its storage node. *)
Definition stored_path (vt : VtVars) (volume : nat) : M string :=
  st <- GetStorageNode volume ;;
  match st with
  | None =>
      nm <- GetName volume ;;
      saveNode volume (join (outputPath vt) (nm +:+ ".nrrd")) ;;
      ret tt
  | Some _ => ret tt
  end ;;
  GetStorageFileName volume.

(** Lines 254-257: the two optional overrides of the global variables. *)
Definition customise (customisedOutputPath customisedParPath : option string)
    (vt : VtVars) : VtVars :=
  let vt := match customisedOutputPath with
            | Some p => set_outputPath p vt
            | None => vt
            end in
  match customisedParPath with
  | Some p => set_parsPath p vt
  | None => vt
  end.

Definition initRun (fixedVolumeNode movingVolumeNode : nat)
    (fixedFiducialNode movingFiducialNode : option nat)
    (customisedOutputPath customisedParPath : option string) : M RunVars :=
  let vt := setGlobalVariables in
  removeOtputsFolderContents vt ;;
  let vt := customise customisedOutputPath customisedParPath vt in
  fnm <- GetName fixedVolumeNode ;;
  print [VStr "fixedVolumeNode  = "; VStr fnm] ;;
  mnm <- GetName movingVolumeNode ;;
  print [VStr "movingVolumeNode = "; VStr mnm] ;;
  print [VStr "outputPath       = "; VStr (outputPath vt)] ;;
  print [VStr "parsPath         = "; VStr (parsPath vt)] ;;
  (* results paths *)
  let resTransPath := join (outputPath vt) "TransformParameters.0.txt" in
  let resOldDefPath := join (outputPath vt) ("deformationField" +:+ imgType vt) in
  mnm <- GetName movingVolumeNode ;;
  let resDefPath := join (outputPath vt) (mnm +:+ "_dFld" +:+ imgType vt) in
  mnm <- GetName movingVolumeNode ;;
  let transNodeName := mnm +:+ "_Transform" in
  (* Save original fixed and moving images *)
  fixedPath <- stored_path vt fixedVolumeNode ;;
  movingPath <- stored_path vt movingVolumeNode ;;
  fnm <- GetName fixedVolumeNode ;;
  let fixedRegTmpPath := join (outputPath vt) (fnm +:+ ".nrrd") in
  mnm <- GetName movingVolumeNode ;;
  let movingRegTmpPath := join (outputPath vt) (mnm +:+ ".nrrd") in
  (* copy images to VisSim folder *)
  copyfile fixedPath fixedRegTmpPath ;;
  copyfile movingPath movingRegTmpPath ;;
  ret {| vtVars := vt; resTransPath := resTransPath;
         resOldDefPath := resOldDefPath; resDefPath := resDefPath;
         transNodeName := transNodeName;
         fixedRegTmpPath := fixedRegTmpPath;
         movingRegTmpPath := movingRegTmpPath;
         fixedPath := fixedPath; movingPath := movingPath |}.

(** What a call of [initRun] that gets through leaves behind, for two
    volumes named [fnm] and [mnm] whose files [fixedPath] and [movingPath]
    hold [cf] and [cm]: the attributes on [self], and the world. *)
Definition initRun_vars (vt : VtVars) (fnm mnm fixedPath movingPath : string)
  : RunVars :=
  {| vtVars := vt;
     resTransPath := join (outputPath vt) "TransformParameters.0.txt";
     resOldDefPath := join (outputPath vt) ("deformationField" +:+ imgType vt);
     resDefPath := join (outputPath vt) (mnm +:+ "_dFld" +:+ imgType vt);
     transNodeName := mnm +:+ "_Transform";
     fixedRegTmpPath := join (outputPath vt) (fnm +:+ ".nrrd");
     movingRegTmpPath := join (outputPath vt) (mnm +:+ ".nrrd");
     fixedPath := fixedPath; movingPath := movingPath |}.

(** The files left once the shared output folder is cleared. *)
Definition cleared (fs : gmap string string) : gmap string string :=
  filter (λ kv, in_folder (outputPath setGlobalVariables) kv.1 = false) fs.

Definition initRun_world (vt : VtVars) (fnm mnm fixedPath movingPath : string)
    (cf cm : string) (w : World) : World :=
  let rv := initRun_vars vt fnm mnm fixedPath movingPath in
  upd_files (insert (movingRegTmpPath rv) cm)
    (record (EvCopyFile movingPath (movingRegTmpPath rv))
       (upd_files (insert (fixedRegTmpPath rv) cf)
          (record (EvCopyFile fixedPath (fixedRegTmpPath rv))
             (emit (Printed [VStr "parsPath         = "; VStr (parsPath vt)])
                (emit (Printed [VStr "outputPath       = "; VStr (outputPath vt)])
                   (emit (Printed [VStr "movingVolumeNode = "; VStr mnm])
                      (emit (Printed [VStr "fixedVolumeNode  = "; VStr fnm])
                         (upd_files cleared
                            (record (EvClearOutputs (outputPath setGlobalVariables))
                               w))))))))).

(** Lines 372-377: the body of the loop that writes the transform file. *)
Definition size_line (fixedSize : Z * Z * Z) : string :=
  "(Size " +:+ str_int fixedSize.1.1 +:+ " " +:+ str_int fixedSize.1.2
           +:+ " " +:+ str_int fixedSize.2 +:+ " )" +:+ String LF EmptyString.

Definition origin_line (fixedOrg : F * F * F) : string :=
  "(Origin " +:+ str_float fixedOrg.1.1 +:+ " " +:+ str_float fixedOrg.1.2
             +:+ " " +:+ str_float fixedOrg.2 +:+ " )" +:+ String LF EmptyString.

Definition rewrite_line (fixedSize : Z * Z * Z) (fixedOrg : F * F * F)
    (l : string) : string :=
  let l := if str_in "(Size " l then size_line fixedSize else l in
  let l := if str_in "(Origin " l then origin_line fixedOrg else l in
  l.

(** Lines 371-378: [for l in parsLst: ...; trfF.write(l)]. *)
Fixpoint write_transform (path : string) (fixedSize : Z * Z * Z)
    (fixedOrg : F * F * F) (parsLst : list string) : M unit :=
  match parsLst with
  | [] => ret tt
  | l :: rest =>
      file_write path (rewrite_line fixedSize fixedOrg l) ;;
      write_transform path fixedSize fixedOrg rest
  end.

(** Lines 354-379 of [runAcir]: the transform found by elastix is copied
    twice, read, handed to the inversion helper, and written again with
    its [Size] and [Origin] lines replaced. *)
Definition modifyTransform (vt : VtVars) (fixedVolumeNode : nat)
    (fixedRegTmpPath : string) : M Z :=
  let resTransPathOld := join (outputPath vt) "TransformParameters.0.txt" in
  let resTransPathMod := join (outputPath vt) "TransformParametersMod.txt" in
  let resTransPathModInv := join (outputPath vt) "TransformParametersModInv.txt" in
  copyfile resTransPathOld resTransPathMod ;;
  copyfile resTransPathOld resTransPathModInv ;;
  (* modify transform *)
  parsLst <- read_lines resTransPathMod ;;
  fixedSize <- GetDimensions fixedVolumeNode ;;
  fOrg <- GetOrigin fixedVolumeNode ;;
  fixedNode <- the_node fixedVolumeNode ;;
  let drs := getDirs fixedNode in
  d0 <- index drs 0 ;;
  d4 <- index drs 4 ;;
  d8 <- index drs 8 ;;
  let fixedOrg := (fmul d0 fOrg.1.1, fmul d4 fOrg.1.2, fmul d8 fOrg.2) in
  (* invert the transform then apply transfrmix *)
  cTR <- runElxInvertTransform resTransPathMod resTransPathModInv
           fixedRegTmpPath (noOutput vt) "339" ;;
  open_w resTransPathModInv ;;
  write_transform resTransPathModInv fixedSize fixedOrg parsLst ;;
  file_close resTransPathModInv ;;
  ret cTR.

(** Lines 386-418 of [runAcir], which are lines 443-471 of [run]: rename
    the results, load them, put the original moving volume back. *)
Definition load_results (rv : RunVars) (movingVolumeNode : nat) (cTI cTR : Z)
  : M PyVal :=
  let vt := vtVars rv in
  rename (resOldDefPath rv) (resDefPath rv) ;;
  let resImagePath := join (outputPath vt) "result.nrrd" in
  mnm <- GetName movingVolumeNode ;;
  let registeredImagePath := join (outputPath vt) (mnm +:+ "_Registered.nrrd") in
  rename resImagePath registeredImagePath ;;
  print [VStr "************  Load deformation field Transform  **********************"] ;;
  r <- loadTransform (resDefPath rv) ;;
  let vtTransformNode := r.2 in
  SetName vtTransformNode (transNodeName rv) ;;
  r <- loadVolume registeredImagePath ;;
  let success := r.1 in
  let registeredMovingVolumeNode := r.2 in
  print [VStr registeredImagePath] ;;
  print [VBool success] ;;
  mnm <- GetName movingVolumeNode ;;
  SetName registeredMovingVolumeNode (mnm +:+ "_Registered") ;;
  (* remove the tempnode and load the original *)
  RemoveNode movingVolumeNode ;;
  r <- loadVolume (movingPath rv) ;;
  let movingVolumeNode := r.2 in
  fileName <- match movingVolumeNode with
              | Some id => GetStorageFileName id
              | None => raise AttributeError
              end ;;
  SetName movingVolumeNode (imgName fileName) ;;
  (if (cTI =? 0) && (cTR =? 0)
   then print [VStr "No error is reported during registeration ..."]
   else print [VStr "error happened during registration "]) ;;
  (* Remove temporary files and nodes *)
  removeTmpsFiles vt ;;
  print [VStr "================= Cochlea registration is complete  ====================="] ;;
  logging_info "Processing completed" ;;
  ret (node_val registeredMovingVolumeNode).

(** [runAcir]: registration of the images cropped around the two
    cochlea locations. *)
Definition runAcir (fixedVolumeNode movingVolumeNode : nat)
    (fixedFiducialNode movingFiducialNode : nat)
    (customisedOutputPath customisedParPath : option string) : M PyVal :=
  logging_info "image registration started: with cropping" ;;
  rv <- initRun fixedVolumeNode movingVolumeNode
          (Some fixedFiducialNode) (Some movingFiducialNode)
          customisedOutputPath customisedParPath ;;
  let vt := vtVars rv in
  (* Get IJK point from the fiducial to use in cropping *)
  fixedPoint <- ptRAS2IJK_of fixedFiducialNode fixedVolumeNode ;;
  print [VStr "run fixed point: ============================"] ;;
  fnm <- GetName fixedVolumeNode ;;
  print [VStr fnm] ;;
  print [VPoint fixedPoint] ;;
  if np_sum fixedPoint =? 0 then
    print [VStr "Error: select cochlea fixed point"] ;;
    ret (VInt (-1))
  else
  fnm <- GetName fixedVolumeNode ;;
  saveNode fixedFiducialNode (join (outputPath vt) (fnm +:+ "_F_Cochlea_Pos.fcsv")) ;;
  movingPoint <- ptRAS2IJK_of movingFiducialNode movingVolumeNode ;;
  print [VStr "run moving point: ============================"] ;;
  mnm <- GetName movingVolumeNode ;;
  print [VStr mnm] ;;
  print [VPoint movingPoint] ;;
  if np_sum fixedPoint =? 0 then
    print [VStr "Error: select cochlea moving point"] ;;
    ret (VInt (-1))
  else
  mnm <- GetName movingVolumeNode ;;
  saveNode movingFiducialNode (join (outputPath vt) (mnm +:+ "_M_Cochlea_Pos.fcsv")) ;;
  if (np_sum fixedPoint =? 0) && (np_sum movingPoint =? 0) then
    print [VStr "Error: select cochlea points in fixed and moving images"] ;;
    ret (VBool false)
  else
  print [VPoint fixedPoint] ;;
  print [VTypeOf (VPoint fixedPoint)] ;;
  let fixedPointT := v2t fixedPoint in
  let movingPointT := v2t movingPoint in
  print [VStr "=================== Cropping ====================="] ;;
  fixedCropPath <- runCropping vt fixedVolumeNode fixedPointT
                     (croppingLength vt) (RSxyz vt) (hrChk vt) ;;
  r <- loadVolume fixedCropPath ;;
  let croppedFixedNode := r.2 in
  fnm <- GetName fixedVolumeNode ;;
  SetName croppedFixedNode (fnm +:+ "_F_Crop") ;;
  movingCropPath <- runCropping vt movingVolumeNode movingPointT
                      (croppingLength vt) (RSxyz vt) (hrChk vt) ;;
  r <- loadVolume movingCropPath ;;
  let croppedMovingNode := r.2 in
  mnm <- GetName movingVolumeNode ;;
  SetName croppedMovingNode (mnm +:+ "_M_Crop") ;;
  print [VStr "************  Register cropped moving image to cropped fixed image **********************"] ;;
  cTI <- runElastix (elastixBinPath vt) fixedCropPath movingCropPath
           (outputPath vt) (parsPath vt) (noOutput vt) "336" ;;
  cTR <- modifyTransform vt fixedVolumeNode (fixedRegTmpPath rv) ;;
  let resTransPathModInv := join (outputPath vt) "TransformParametersModInv.txt" in
  cTR <- runTransformix (transformixBinPath vt) (movingRegTmpPath rv)
           (outputPath vt) resTransPathModInv (noOutput vt) "339" ;;
  load_results rv movingVolumeNode cTI cTR.

(** [run]: registration of the whole images, no cropping. *)
Definition run (fixedVolumeNode movingVolumeNode : nat)
    (customisedOutputPath customisedParPath : option string) : M PyVal :=
  logging_info "image registration started: no cropping" ;;
  rv <- initRun fixedVolumeNode movingVolumeNode None None
          customisedOutputPath customisedParPath ;;
  let vt := vtVars rv in
  print [VStr "************  Register  moving image to  fixed image **********************"] ;;
  cTI <- runElastix (elastixBinPath vt) (fixedRegTmpPath rv) (movingRegTmpPath rv)
           (outputPath vt) (parsPath vt) (noOutput vt) "336" ;;
  cTR <- runTransformix (transformixBinPath vt) (movingRegTmpPath rv)
           (outputPath vt) (resTransPath rv) (noOutput vt) "339" ;;
  load_results rv movingVolumeNode cTI cTR.

(** ** CochleaRegWidget *)

(** The part of the widget the click handler reads: the two volume
    selectors and the two fiducial nodes. *)
Record Widget := {
  fixedSelectorCoBx : nat;               (* [currentNode()] *)
  movingSelectorCoBx : nat;
  fixedFiducialNode : option nat;
  movingFiducialNode : option nat;
}.

Definition time_time : M F :=
  n <- gets ticks ;;
  modify tick ;;
  ret (clock n).

Definition gui (widget text : string) : M unit :=
  modify (record (EvGui widget text)).

Definition onApplyBtnClick (self : Widget) : M unit :=
  gui "runBtn.setText" "...please wait" ;;
  gui "runBtn.setStyleSheet" "QPushButton{ background-color: red  }" ;;
  gui "processEvents" "" ;;
  stm <- time_time ;;
  print [VStr ("time:" +:+ str_float stm)] ;;
  gui "timeLbl.setText" "                 Time: 00:00" ;;
  print [VTypeOf (node_val (fixedFiducialNode self))] ;;
  (* create an option to use IJK point or fidicual node *)
  registeredMovingVolumeNode <-
    match fixedFiducialNode self, movingFiducialNode self with
    | Some fixedFid, Some movingFid =>
        runAcir (fixedSelectorCoBx self) (movingSelectorCoBx self)
          fixedFid movingFid None None
    | _, _ =>
        run (fixedSelectorCoBx self) (movingSelectorCoBx self) None None
    end ;;
  fuseTwoImages (fixedSelectorCoBx self) registeredMovingVolumeNode ;;
  etm <- time_time ;;
  let tm := fsub etm stm in
  gui "timeLbl.setText" ("Time: " +:+ str_float tm +:+ "  seconds") ;;
  gui "runBtn.setText" "Run" ;;
  gui "runBtn.setStyleSheet" "QPushButton{ background-color: DarkSeaGreen  }" ;;
  gui "processEvents" "".

(** The click handler around a given registration: what it does before
    and after the call of the logic, whichever method is called.  It is
    what [onApplyBtnClick] is compared with. *)
Definition click_with (registration : M PyVal) (self : Widget) : M unit :=
  gui "runBtn.setText" "...please wait" ;;
  gui "runBtn.setStyleSheet" "QPushButton{ background-color: red  }" ;;
  gui "processEvents" "" ;;
  stm <- time_time ;;
  print [VStr ("time:" +:+ str_float stm)] ;;
  gui "timeLbl.setText" "                 Time: 00:00" ;;
  print [VTypeOf (node_val (fixedFiducialNode self))] ;;
  registeredMovingVolumeNode <- registration ;;
  fuseTwoImages (fixedSelectorCoBx self) registeredMovingVolumeNode ;;
  etm <- time_time ;;
  let tm := fsub etm stm in
  gui "timeLbl.setText" ("Time: " +:+ str_float tm +:+ "  seconds") ;;
  gui "runBtn.setText" "Run" ;;
  gui "runBtn.setStyleSheet" "QPushButton{ background-color: DarkSeaGreen  }" ;;
  gui "processEvents" "".

(** [slicer.util.getNodesByClass(c)]: the nodes of the scene of class
    [c], in the order of the scene. *)
Definition is_class (c : NodeClass) (n : Node) : bool :=
  match c, nClass n with
  | ScalarVolumeNode, ScalarVolumeNode | TransformNode, TransformNode
  | MarkupsFiducialNode, MarkupsFiducialNode => true
  | _, _ => false
  end.

Definition in_class (c : NodeClass) (nds : gmap nat Node) (id : nat) : bool :=
  match nds !! id with
  | Some n => is_class c n
  | None => false
  end.

Definition getNodesByClass (c : NodeClass) : M (list nat) :=
  gets (λ w, filter (λ id, in_class c (nodes w) id = true) (scene w)).

(** Lines 187-191: [for f in nodes: if f.GetName() == name: RemoveNode(f)]. *)
Fixpoint remove_named (name : string) (fs : list nat) : M unit :=
  match fs with
  | [] => ret tt
  | f :: fs' =>
      nm <- GetName f ;;
      (if decide (nm = name) then RemoveNode f else ret tt) ;;
      remove_named name fs'
  end.

(** Lines 185-191 of [onInputFiducialBtnClick]: remove old nodes. *)
Definition remove_old_locations : M unit :=
  nodes <- getNodesByClass MarkupsFiducialNode ;;
  remove_named "_CochleaLocation" nodes.

(** [self.vsc.locateItem(volume, edt, i, 0)] followed by the reading of
    [self.vsc.inputFiducialNodes[i]]: both belong to [VisSimCommon]; the
    reading gives a node or [None], or raises. *)
Context (locateItem : nat → Z → M (option nat)).

(** Lines 192-204 of [onInputFiducialBtnClick]: the fiducial node for
    the cochlea location in the image of the button. *)
Definition locate_cochlea (self : Widget) (volumeType : string) : M Widget :=
  if decide (volumeType = "F") then
    print [VStr " ..... getting cochlea location in the fixed image"] ;;
    gui "fixedFiducialBtn.setStyleSheet" "QPushButton{ background-color: White  }" ;;
    fid <- locateItem (fixedSelectorCoBx self) 1 ;;
    gui "fixedFiducialBtn.setStyleSheet" "QPushButton{ background-color: DarkSeaGreen  }" ;;
    ret {| fixedSelectorCoBx := fixedSelectorCoBx self;
           movingSelectorCoBx := movingSelectorCoBx self;
           fixedFiducialNode := fid;
           movingFiducialNode := movingFiducialNode self |}
  else if decide (volumeType = "M") then
    print [VStr " ..... getting cochlea location in the fixed image"] ;;
    fid <- locateItem (movingSelectorCoBx self) 2 ;;
    gui "movingFiducialBtn.setStyleSheet" "QPushButton{ background-color: DarkSeaGreen  }" ;;
    ret {| fixedSelectorCoBx := fixedSelectorCoBx self;
           movingSelectorCoBx := movingSelectorCoBx self;
           fixedFiducialNode := fixedFiducialNode self;
           movingFiducialNode := fid |}
  else ret self.

(** [onInputFiducialBtnClick]; the attributes it sets on [self] and on
    [self.logic] before the loop are read nowhere in the file. *)
Definition onInputFiducialBtnClick (self : Widget) (volumeType : string)
  : M Widget :=
  remove_old_locations ;;
  locate_cochlea self volumeType.

(** ** CochleaRegTest *)

Definition setUp : M unit :=
  modify (record EvSceneClear) ;;
  modify (upd_scene (λ _, [])).

(** [SampleData.downloadFromURL(uri, fileName, nodeName, checksum)[0]]:
    the file lands in the cache directory and is loaded under the given
    node name. *)
Definition downloadFromURL (uri fileName nodeName checksum : string) : M nat :=
  modify (record (EvDownload uri fileName nodeName checksum)) ;;
  match remote uri with
  | None => raise (OtherError "download failed")
  | Some content =>
      modify (upd_files (insert (join cacheDir fileName) content)) ;;
      r <- load ScalarVolumeNode (join cacheDir fileName) ;;
      SetName r.2 nodeName ;;
      match r.2 with
      | Some id => ret id
      | None => raise IndexError
      end
  end.

(** Lines 555-559 and 562-566: a markups node with one labelled point. *)
Definition new_fiducial (name : string) (ras : F * F * F) (label : string)
  : M nat :=
  id <- gets (λ w, fresh (dom (nodes w))) ;;
  modify (record (EvAddFiducial id)) ;;
  modify (upd_nodes (insert id
    {| nName := name; nClass := MarkupsFiducialNode; nStorage := None;
       nVolume := None; nFiducials := [(ras, label)];
       nData := EmptyString |})) ;;
  modify (upd_scene (λ sc, sc ++ [id])) ;;
  ret id.

Definition testSlicerCochleaRegistration (fixedImgPath movingImgPath : string)
    (fixedPoint movingPoint : option (list Z))
    (customisedOutputPath customisedParPath : option string) : M unit :=
  gui "delayDisplay" "Starting testSlicerCochleaRegistration test" ;;
  (* record duration of the test *)
  stm <- time_time ;;
  let vt := setGlobalVariables in
  print [VStr "fixedImgPath         : "; VStr fixedImgPath] ;;
  print [VStr "movingImgPath        : "; VStr movingImgPath] ;;
  print [VStr "customisedOutputPath : "; str_val customisedOutputPath] ;;
  print [VStr "customisedParPath    : "; str_val customisedParPath] ;;
  let fixedNodeName := imgName fixedImgPath in
  let movingNodeName := imgName movingImgPath in
  print [VStr "loading volumes "] ;;
  print [VStr fixedImgPath] ;;
  r <- loadVolume fixedImgPath ;;
  let fixedVolumeNode := r.2 in
  print [VBool r.1] ;;
  SetName fixedVolumeNode fixedNodeName ;;
  r <- loadVolume movingImgPath ;;
  let movingVolumeNode := r.2 in
  SetName movingVolumeNode movingNodeName ;;
  print [VBool r.1] ;;
  (* remove contents of output folder *)
  removeOtputsFolderContents vt ;;
  match fixedVolumeNode, movingVolumeNode with
  | Some fixedVolumeNode, Some movingVolumeNode =>
      registeredMovingVolumeNode <-
        match fixedPoint, movingPoint with
        | Some fixedPoint, Some movingPoint =>
            print [VStr "creating points nodes"] ;;
            (* create a fiducial node for cochlea locations for cropping *)
            fv <- the_node fixedVolumeNode ;;
            let fixedPointRAS := ptIJK2RAS fixedPoint fv in
            fixedFid <- new_fiducial "F_cochleaLocationPoint" fixedPointRAS
                          "F_CochleaLocation" ;;
            mv <- the_node movingVolumeNode ;;
            let movingPointRAS := ptIJK2RAS movingPoint mv in
            movingFid <- new_fiducial "M_cochleaLocationPoint" movingPointRAS
                           "M_CochleaLocation" ;;
            (* run the registration *)
            print [VStr "calling self.logic.runAcir"] ;;
            runAcir fixedVolumeNode movingVolumeNode fixedFid movingFid
              customisedOutputPath customisedParPath
        | _, _ =>
            print [VStr "calling self.logic.run"] ;;
            run fixedVolumeNode movingVolumeNode
              customisedOutputPath customisedParPath
        end ;;
      (* display *)
      try_except
        (fuseTwoImages fixedVolumeNode registeredMovingVolumeNode)
        (λ e, print [VStr "Can not display results! probably an external call ..."] ;;
              print [VExn e]) ;;
      etm <- time_time ;;
      let tm := fsub etm stm in
      print [VStr ("Time: " +:+ str_float tm +:+ "  seconds")] ;;
      gui "delayDisplay" "Test testSlicerCochleaRegistration passed!"
  | _, _ => raise AttributeError
  end.

Definition testSlicerCochleaDirectRegistration
    (fixedImgPath movingImgPath : string)
    (customisedOutputPath customisedParPath : option string) : M unit :=
  testSlicerCochleaRegistration fixedImgPath movingImgPath None None
    customisedOutputPath customisedParPath.

(** The paths and points [runTest] ends up passing on. *)
Definition test_fixedImgPath : string :=
  "/media/ibr/h25_2TB_C/ia_work/Cochlea2020/vsReg/srcImages/P100051_MR.nrrd".
Definition test_movingImgPath : string :=
  "/media/ibr/h25_2TB_C/ia_work/Cochlea2020/vsReg/srcImages/P100051_DV_R_a.nrrd".

Definition runTest : M unit :=
  setUp ;;
  let fixedPoint := [220; 242; 78] in
  let movingPoint := [196; 217; 93] in
  let nodeNames := "P100001_DV_L_a" in
  let fileNames := "P100001_DV_L_a.nrrd" in
  let urisUniKo := "https://cloud.uni-koblenz-landau.de/s/EwQiQidXqTcGySB/download" in
  let urisGitHub := "https://github.com/MedicalImageAnalysisTutorials/VisSimData/raw/master/P100001_DV_L_a.nrrd" in
  let uris := urisGitHub in
  let checksums := "SHA256:d7cda4e106294a59591f03e74fbe9ecffa322dd1a9010b4d0590b377acc05eb5" in
  tmpVolumeNode <- downloadFromURL uris fileNames nodeNames checksums ;;
  let fixedImgPath := join cacheDir fileNames in
  RemoveNode tmpVolumeNode ;;
  let nodeNames := "P100001_DV_L_b" in
  let fileNames := "P100001_DV_L_b.nrrd" in
  let urisUniKo := "https://cloud.uni-koblenz-landau.de/s/qMG2WPjTXabzcbX/download" in
  let urisGitHub := "https://github.com/MedicalImageAnalysisTutorials/VisSimData/raw/master/P100001_DV_L_b.nrrd" in
  let uris := urisGitHub in
  let checksums := "SHA256:9a5722679caa978b1a566f4a148c8759ce38158ca75813925a2d4f964fdeebf5" in
  tmpVolumeNode <- downloadFromURL uris fileNames nodeNames checksums ;;
  let movingImgPath := join cacheDir fileNames in
  RemoveNode tmpVolumeNode ;;
  let fixedImgPath := test_fixedImgPath in
  let movingImgPath := test_movingImgPath in
  let fixedPoint := [165; 240; 34] in
  let movingPoint := [348; 230; 69] in
  testSlicerCochleaRegistration fixedImgPath movingImgPath
    (Some fixedPoint) (Some movingPoint) None None.

End Model.

(** * A sample installation

    A small concrete world on which the programs run to the end: two
    volumes with their files, two fiducial nodes, and stand-ins for the
    helpers and the binaries that leave the files elastix and
    transformix are expected to leave.  Floating point values are
    integral here. *)

Module Sample.

#[export] Instance float_Z : PyFloat Z :=
  {| fmul := Z.mul; fsub := Z.sub; str_float := str_int |}.

#[export] Instance host : Host (F:=Z) :=
  {| read_geometry := λ _, ((10, 20, 30), (1, 2, 3));
     clock := λ n, Z.of_nat n;
     remote := λ _, Some "NRRD0004";
     cacheDir := "/cache" |}.

Definition vt0 : VtVars (PyObj:=unit) :=
  {| outputPath := "/VisSimTools/outputs"; parsPath := "/VisSimTools/pars/parCochSeg.txt";
     imgType := ".nrrd";
     elastixBinPath := "/VisSimTools/bin/elastix";
     transformixBinPath := "/VisSimTools/bin/transformix";
     croppingLength := tt; RSxyz := tt; hrChk := tt; noOutput := tt |}.

(** The transform elastix writes: a [Size], an [Origin], another key,
    and a comment naming both keys. *)
Definition transform0 : string :=
  "(Size 5 5 5)
(Origin 0 0 0)
(Spacing 1 1 1)
// (Size and (Origin follow the cropped image
".

Definition binaries (e : Event (F:=Z) (PyObj:=unit))
    (fs : gmap string string) : gmap string string :=
  match e with
  | EvElastix _ _ _ out _ _ _ =>
      <[join out "TransformParameters.0.txt" := transform0]> fs
  | EvInvertTransform _ inv _ _ _ => <[inv := "(Inverse)"]> fs
  | EvTransformix _ _ out _ _ _ =>
      <[join out "result.nrrd" := "registered"]>
        (<[join out "deformationField.nrrd" := "field"]> fs)
  | _ => fs
  end.

#[export] Instance vsc : VisSimCommon (F:=Z) (PyObj:=unit) :=
  {| setGlobalVariables := vt0;
     ptRAS2IJK := λ f v,
       match nFiducials f with
       | (p, _) :: _ => [p.1.1; p.1.2; p.2]
       | [] => [0; 0; 0]
       end;
     ptIJK2RAS := λ p v,
       match p with
       | [i; j; k] => (i, j, k)
       | _ => (0, 0, 0)
       end;
     v2t := λ _, tt;
     getDirs := λ _, [-1; 0; 0; 0; -1; 0; 0; 0; 1];
     cropped_path := λ vt n _ _ _ _,
       join (outputPath vt) (nName n +:+ "_crop.nrrd");
     cropping_files := λ vt n _ _ _ _ fs,
       <[join (outputPath vt) (nName n +:+ "_crop.nrrd") := "crop"]> fs;
     binary_files := binaries;
     tmp_files := λ _ fs, fs;
     tmp_node := λ n, str_in "_Crop" (nName n) |}.

(** Both binaries report success, or both fail. *)
Definition codes_ok (e : Event (F:=Z) (PyObj:=unit))
    (fs : gmap string string) : Z := 0.

Definition volume (name path : string) : Node (F:=Z) :=
  {| nName := name; nClass := ScalarVolumeNode; nStorage := Some path;
     nVolume := Some ((485, 485, 121), (-30, -31, 32));
     nFiducials := []; nData := "voxels" |}.

Definition fiducial (name : string) (p : Z * Z * Z) : Node (F:=Z) :=
  {| nName := name; nClass := MarkupsFiducialNode; nStorage := None;
     nVolume := None; nFiducials := [(p, "_CochleaLocation")];
     nData := "fcsv" |}.

(** Nodes 0 and 1 are the fixed and the moving volume, nodes 2 and 3 the
    fiducials: node 2 holds a point, nodes 3 holds none (all zero). *)
Definition world0 : World (F:=Z) (PyObj:=unit) :=
  {| files := <["/data/fixed.nrrd" := "F"]>
                (<["/data/moving.nrrd" := "M"]>
                   (<["/VisSimTools/outputs/old_result.nrrd" := "old"]> ∅));
     nodes := <[0%nat := volume "fixed" "/data/fixed.nrrd"]>
                (<[1%nat := volume "moving" "/data/moving.nrrd"]>
                   (<[2%nat := fiducial "F" (220, 242, 78)]>
                      (<[3%nat := fiducial "M" (0, 0, 0)]> ∅)));
     scene := [0; 1; 2; 3]%nat; stdout := []; calls := []; ticks := 0 |}.

(** A machine that has nothing but what the test downloads. *)
Definition fresh_machine : World (F:=Z) (PyObj:=unit) :=
  {| files := ∅; nodes := ∅; scene := []; stdout := []; calls := [];
     ticks := 0 |}.

(** The developer's machine: the two files the test names are there. *)
Definition developer_machine : World (F:=Z) (PyObj:=unit) :=
  {| files := <[test_fixedImgPath := "MR"]>
                (<[test_movingImgPath := "DV"]> ∅);
     nodes := ∅; scene := []; stdout := []; calls := []; ticks := 0 |}.

(** The output folder right after elastix has run. *)
Definition transform_world : World (F:=Z) (PyObj:=unit) :=
  {| files := <["/VisSimTools/outputs/TransformParameters.0.txt" := transform0]> ∅;
     nodes := <[0%nat := volume "fixed" "/data/fixed.nrrd"]> ∅;
     scene := [0%nat]; stdout := []; calls := []; ticks := 0 |}.

(** A transform as elastix writes it, each key on a line of its own, and
    the output folder right after elastix has written it. *)
Definition elastix_transform : string :=
  "(Transform BSplineTransform)
(Size 5 5 5)
(Index 0 0 0)
(Spacing 1 1 1)
(Origin 0 0 0)
(Direction 1 0 0 0 1 0 0 0 1)
".

Definition elastix_world : World (F:=Z) (PyObj:=unit) :=
  {| files := <["/VisSimTools/outputs/TransformParameters.0.txt" := elastix_transform]> ∅;
     nodes := <[0%nat := volume "fixed" "/data/fixed.nrrd"]> ∅;
     scene := [0%nat]; stdout := []; calls := []; ticks := 0 |}.

(** A widget with the fixed fiducial node chosen and the moving one
    left unset. *)
Definition half_set : Widget :=
  {| fixedSelectorCoBx := 0%nat; movingSelectorCoBx := 1%nat;
     fixedFiducialNode := Some 2%nat; movingFiducialNode := None |}.

(** The cropped run with a point in the fixed image only. *)
Definition acir_run := Eval vm_compute in runAcir codes_ok 0 1 2 3 None None world0.
(** The cropped run with no point in either image. *)
Definition acir_no_points := Eval vm_compute in runAcir codes_ok 0 1 3 3 None None world0.
(** The plain run, and the plain run of a volume against itself. *)
Definition plain_run := Eval vm_compute in run codes_ok 0 1 None None world0.
Definition self_run := Eval vm_compute in run codes_ok 1 1 None None world0.
(** The rewriting of the transform file alone. *)
Definition transform_run :=
  Eval vm_compute in
    modifyTransform codes_ok vt0 0 "/VisSimTools/outputs/fixed.nrrd"
      transform_world.
Definition elastix_run :=
  Eval vm_compute in
    modifyTransform codes_ok vt0 0 "/VisSimTools/outputs/fixed.nrrd"
      elastix_world.
(** The self test on the fresh machine. *)
Definition test_run := Eval vm_compute in runTest codes_ok fresh_machine.

End Sample.

(** * Properties *)

(** ** Strings and paths *)

Fixpoint has_char (c : ascii) (s : string) : bool :=
  match s with
  | EmptyString => false
  | String a s' => if decide (a = c) then true else has_char c s'
  end.

Lemma str_app_cons a s t : String a s +:+ t = String a (s +:+ t).
Proof. reflexivity. Qed.

Lemma str_app_nil_l t : "" +:+ t = t.
Proof. reflexivity. Qed.

Lemma str_app_nil_r s : s +:+ "" = s.
Proof. induction s as [|a s IH]; [reflexivity|]. by rewrite str_app_cons, IH. Qed.

Lemma str_app_assoc s t u : (s +:+ t) +:+ u = s +:+ t +:+ u.
Proof. induction s as [|a s IH]; [reflexivity|]. by rewrite !str_app_cons, IH. Qed.

Lemma has_char_app c s t :
  has_char c (s +:+ t) = has_char c s || has_char c t.
Proof.
  induction s as [|a s IH]; [reflexivity|].
  rewrite str_app_cons. cbn.
  destruct (decide (a = c)); [reflexivity | exact IH].
Qed.

(** A pattern cannot occur in a string that lacks its first character. *)
Lemma str_in_no_char c pat s :
  has_char c s = false → str_in (String c pat) s = false.
Proof.
  induction s as [|a s IH]; cbn; [reflexivity|].
  destruct (decide (a = c)) as [->|Hac]; [discriminate|].
  intros Hs. rewrite (IH Hs), orb_false_r.
  destruct (ascii_dec c a) as [->|]; [contradiction | reflexivity].
Qed.

Lemma string_of_uint_digits d :
  has_char "("%char (NilEmpty.string_of_uint d) = false.
Proof. induction d; cbn; repeat case_decide; try discriminate; auto. Qed.

Lemma str_int_no_paren n : has_char "("%char (str_int n) = false.
Proof.
  unfold str_int, NilZero.string_of_int, NilZero.string_of_uint.
  destruct (Z.to_int n) as [d|d]; destruct d; cbn;
    repeat case_decide; try discriminate; auto using string_of_uint_digits.
Qed.

(** The [Size] line written by the loop never looks like an [Origin] line. *)
Lemma size_line_not_origin fixedSize :
  str_in "(Origin " (size_line fixedSize) = false.
Proof.
  unfold size_line. rewrite !str_app_cons, str_app_nil_l.
  cbn [str_in String.prefix].
  destruct (ascii_dec "O" "S") as [?|_]; [discriminate|].
  cbn [andb orb].
  apply str_in_no_char. cbn [has_char].
  repeat (rewrite ?has_char_app, ?str_int_no_paren, ?str_app_cons, ?str_app_nil_l;
          cbn [has_char orb]).
  repeat (case_decide; [discriminate|]). reflexivity.
Qed.

Lemma join_inj a b b' :
  startswith b "/" = false → startswith b' "/" = false →
  join a b = join a b' → b = b'.
Proof.
  unfold join. intros -> ->.
  destruct (decide (a = "")); [auto|].
  destruct (endswith a "/"); intros E.
  - by apply (inj (String.app a)) in E.
  - apply (inj (String.app a)) in E. by apply (inj (String.app "/")) in E.
Qed.


(** A joined path ends with its last component. *)
Lemma rev_app_cat s t acc :
  String.rev_app (s +:+ t) acc = String.rev_app t (String.rev_app s acc).
Proof.
  revert acc. induction s as [|a s IH]; intros acc; [reflexivity|].
  rewrite str_app_cons. cbn. apply IH.
Qed.

Lemma rev_app_acc s acc : String.rev_app s acc = String.rev s +:+ acc.
Proof.
  unfold String.rev. revert acc.
  induction s as [|a s IH]; intros acc; [reflexivity|].
  cbn. rewrite IH, (IH (String a "")). by rewrite str_app_assoc.
Qed.

Lemma rev_cat s t : String.rev (s +:+ t) = String.rev t +:+ String.rev s.
Proof. unfold String.rev at 1. by rewrite rev_app_cat, rev_app_acc. Qed.

Lemma prefix_cat s t : String.prefix s (s +:+ t) = true.
Proof.
  induction s as [|a s IH]; [rewrite str_app_nil_l; by destruct t|].
  rewrite str_app_cons. cbn. destruct (ascii_dec a a); [exact IH | done].
Qed.

Lemma endswith_cat s t : endswith (s +:+ t) t = true.
Proof. unfold endswith. rewrite rev_cat. apply prefix_cat. Qed.

Lemma endswith_refl t : endswith t t = true.
Proof.
  pose proof (endswith_cat "" t) as H. by rewrite str_app_nil_l in H.
Qed.

Lemma endswith_join a b : endswith (join a b) b = true.
Proof.
  unfold join. destruct (startswith b "/"); [apply endswith_refl|].
  destruct (decide (a = "")); [apply endswith_refl|].
  destruct (endswith a "/"); [apply endswith_cat|].
  rewrite <- str_app_assoc. apply endswith_cat.
Qed.


Section Properties.
Context {F : Type} `{!PyFloat F} {PyObj : Type}.
Context `{!Host (F:=F)} `{!VisSimCommon (F:=F) (PyObj:=PyObj)}.
Context (exit_code : Event (F:=F) (PyObj:=PyObj) → gmap string string → Z).

Local Abbreviation World := (World (F:=F) (PyObj:=PyObj)).
Local Abbreviation M := (M (F:=F) (PyObj:=PyObj)).
Local Abbreviation Node := (Node (F:=F)).
Local Abbreviation Event := (Event (F:=F) (PyObj:=PyObj)).
Local Abbreviation PyVal := (PyVal (F:=F)).
Local Abbreviation RunVars := (RunVars (PyObj:=PyObj)).
Local Abbreviation VtVars := (VtVars (PyObj:=PyObj)).

Implicit Types (w : World) (n : Node) (fs : gmap string string).
Implicit Types (vt : VtVars) (rv : RunVars) (v : PyVal).

(** ** Completed steps

    Each lemma reads one step off a completed run [bind m k w = (Ok v, w')]:
    what the step found, and the run of the rest from the world it left. *)

Lemma bind_ok {A B} (m : M A) (k : A → M B) w (b : B) w' :
  bind m k w = (Ok b, w') →
  ∃ a w1, m w = (Ok a, w1) ∧ k a w1 = (Ok b, w').
Proof.
  unfold bind. destruct (m w) as [[a|e] w1]; [eauto | discriminate].
Qed.

Lemma bind_ret {A B} (a : A) (k : A → M B) w (b : B) w' :
  bind (ret a) k w = (Ok b, w') → k a w = (Ok b, w').
Proof. intros Hrun. exact Hrun. Qed.

Lemma bind_modify {B} (f : World → World) (k : unit → M B) w (b : B) w' :
  bind (modify f) k w = (Ok b, w') → k tt (f w) = (Ok b, w').
Proof. intros Hrun. exact Hrun. Qed.

Lemma bind_gets {A B} (f : World → A) (k : A → M B) w (b : B) w' :
  bind (gets f) k w = (Ok b, w') → k (f w) w = (Ok b, w').
Proof. intros Hrun. exact Hrun. Qed.

Lemma bind_print {B} vs (k : unit → M B) w (b : B) w' :
  bind (print vs) k w = (Ok b, w') → k tt (emit (Printed vs) w) = (Ok b, w').
Proof. intros Hrun. exact Hrun. Qed.

Lemma bind_logging_info {B} msg (k : unit → M B) w (b : B) w' :
  bind (logging_info msg) k w = (Ok b, w') →
  k tt (emit (Logged msg) w) = (Ok b, w').
Proof. intros Hrun. exact Hrun. Qed.

Lemma bind_the_node {B} id (k : Node → M B) w (b : B) w' :
  bind (the_node id) k w = (Ok b, w') →
  ∃ n, nodes w !! id = Some n ∧ k n w = (Ok b, w').
Proof.
  unfold bind, the_node. destruct (nodes w !! id) as [n|]; [eauto | discriminate].
Qed.

Lemma bind_GetName {B} id (k : string → M B) w (b : B) w' :
  bind (GetName id) k w = (Ok b, w') →
  ∃ n, nodes w !! id = Some n ∧ k (nName n) w = (Ok b, w').
Proof.
  unfold GetName, bind, the_node, ret.
  destruct (nodes w !! id) as [n|]; [eauto | discriminate].
Qed.

Lemma bind_assoc {A B C} (m : M A) (f : A → M B) (g : B → M C) w r :
  bind (bind m f) g w = r → bind m (λ a, bind (f a) g) w = r.
Proof. unfold bind. by destruct (m w) as [[a|e] w1]. Qed.

Lemma bind_ret_r {A} (m : M A) w (a : A) w' :
  m w = (Ok a, w') → bind m ret w = (Ok a, w').
Proof. unfold bind, ret. intros ->. reflexivity. Qed.

Lemma bind_GetStorageNode {B} id (k : option string → M B) w (b : B) w' :
  bind (GetStorageNode id) k w = (Ok b, w') →
  ∃ n, nodes w !! id = Some n ∧ k (nStorage n) w = (Ok b, w').
Proof.
  unfold GetStorageNode, bind, the_node, ret.
  destruct (nodes w !! id) as [n|]; [eauto | discriminate].
Qed.

Lemma bind_GetStorageFileName {B} id (k : string → M B) w (b : B) w' :
  bind (GetStorageFileName id) k w = (Ok b, w') →
  ∃ n p, nodes w !! id = Some n ∧ nStorage n = Some p ∧ k p w = (Ok b, w').
Proof.
  unfold GetStorageFileName, GetStorageNode, bind, the_node, ret, raise.
  destruct (nodes w !! id) as [n|]; [|discriminate].
  destruct (nStorage n) as [p|] eqn:E; [eauto 6 | discriminate].
Qed.

Lemma bind_GetDimensions {B} id (k : Z * Z * Z → M B) w (b : B) w' :
  bind (GetDimensions id) k w = (Ok b, w') →
  ∃ n g, nodes w !! id = Some n ∧ nVolume n = Some g ∧ k g.1 w = (Ok b, w').
Proof.
  unfold GetDimensions, bind, the_node, ret, raise.
  destruct (nodes w !! id) as [n|]; [|discriminate].
  destruct (nVolume n) as [g|] eqn:E; [eauto 6 | discriminate].
Qed.

Lemma bind_GetOrigin {B} id (k : F * F * F → M B) w (b : B) w' :
  bind (GetOrigin id) k w = (Ok b, w') →
  ∃ n g, nodes w !! id = Some n ∧ nVolume n = Some g ∧ k g.2 w = (Ok b, w').
Proof.
  unfold GetOrigin, bind, the_node, ret, raise.
  destruct (nodes w !! id) as [n|]; [|discriminate].
  destruct (nVolume n) as [g|] eqn:E; [eauto 6 | discriminate].
Qed.

Lemma bind_SetName {B} id s (k : unit → M B) w (b : B) w' :
  bind (SetName id s) k w = (Ok b, w') →
  ∃ i n, id = Some i ∧ nodes w !! i = Some n ∧
    k tt (upd_nodes (insert i (with_name s n)) w) = (Ok b, w').
Proof.
  destruct id as [i|]; [|discriminate].
  unfold SetName, bind, the_node, modify.
  destruct (nodes w !! i) as [n|] eqn:E; [eauto 6 | discriminate].
Qed.

Lemma bind_saveNode {B} id path (k : bool → M B) w (b : B) w' :
  bind (saveNode id path) k w = (Ok b, w') →
  ∃ n, nodes w !! id = Some n ∧
    k true (upd_nodes (insert id (with_storage path n))
             (upd_files (insert path (nData n))
                (record (EvSaveNode id path) w))) = (Ok b, w').
Proof.
  unfold saveNode, bind, the_node, modify, ret.
  destruct (nodes w !! id) as [n|] eqn:E; [eauto | discriminate].
Qed.

Lemma bind_copyfile {B} src dst (k : unit → M B) w (b : B) w' :
  bind (copyfile src dst) k w = (Ok b, w') →
  ∃ c, files w !! src = Some c ∧ src ≠ dst ∧
    k tt (upd_files (insert dst c) (record (EvCopyFile src dst) w)) = (Ok b, w').
Proof.
  unfold copyfile, bind, modify, gets, raise. cbn [files record].
  destruct (files w !! src) as [c|] eqn:E; [|discriminate].
  destruct (decide (src = dst)); [discriminate | eauto].
Qed.

Lemma bind_rename {B} src dst (k : unit → M B) w (b : B) w' :
  bind (rename src dst) k w = (Ok b, w') →
  ∃ c, files w !! src = Some c ∧
    k tt (upd_files (λ fs, <[dst := c]> (delete src fs))
            (record (EvRename src dst) w)) = (Ok b, w').
Proof.
  unfold rename, bind, modify, gets, raise. cbn [files record].
  destruct (files w !! src) as [c|] eqn:E; [eauto | discriminate].
Qed.

Lemma bind_read_lines {B} path (k : list string → M B) w (b : B) w' :
  bind (read_lines path) k w = (Ok b, w') →
  ∃ c, files w !! path = Some c ∧ k (readlines c) w = (Ok b, w').
Proof.
  unfold read_lines, bind, gets, raise, ret.
  destruct (files w !! path) as [c|] eqn:E; [eauto | discriminate].
Qed.

Lemma bind_open_w {B} path (k : unit → M B) w (b : B) w' :
  bind (open_w path) k w = (Ok b, w') →
  k tt (upd_files (insert path EmptyString) (record (EvOpenWrite path) w))
    = (Ok b, w').
Proof. intros Hrun. exact Hrun. Qed.

Lemma bind_file_close {B} path (k : unit → M B) w (b : B) w' :
  bind (file_close path) k w = (Ok b, w') →
  k tt (record (EvClose path) w) = (Ok b, w').
Proof. intros Hrun. exact Hrun. Qed.

Lemma bind_load_gen {B} (e : Event) cls path (k : bool * option nat → M B)
    w (b : B) w' :
  bind (bind (modify (record e)) (λ _, load cls path)) k w = (Ok b, w') →
  (files w !! path = None ∧ k (false, None) (record e w) = (Ok b, w')) ∨
  (∃ c id, files w !! path = Some c ∧ (id ∉ dom (nodes w)) ∧
     k (true, Some id)
       (upd_scene (λ sc, sc ++ [id])
          (upd_nodes (insert id (loaded_node cls path c)) (record e w)))
       = (Ok b, w')).
Proof.
  unfold load, bind, modify, gets, ret. cbn [files nodes record].
  destruct (files w !! path) as [c|] eqn:E; [|auto].
  intros H. right. exists c, (fresh (dom (nodes w))).
  split; [reflexivity|]. split; [apply is_fresh | exact H].
Qed.

Lemma bind_load {B} cls path (k : bool * option nat → M B) w (b : B) w' :
  bind (load cls path) k w = (Ok b, w') →
  (files w !! path = None ∧ k (false, None) w = (Ok b, w')) ∨
  (∃ c id, files w !! path = Some c ∧ (id ∉ dom (nodes w)) ∧
     k (true, Some id)
       (upd_scene (λ sc, sc ++ [id])
          (upd_nodes (insert id (loaded_node cls path c)) w)) = (Ok b, w')).
Proof.
  unfold load, bind, modify, gets, ret. cbn [files nodes].
  destruct (files w !! path) as [c|] eqn:E; [|auto].
  intros H. right. exists c, (fresh (dom (nodes w))).
  split; [reflexivity|]. split; [apply is_fresh | exact H].
Qed.

Lemma bind_loadVolume {B} path (k : bool * option nat → M B) w (b : B) w' :
  bind (loadVolume path) k w = (Ok b, w') →
  (files w !! path = None ∧
     k (false, None) (record (EvLoadVolume path) w) = (Ok b, w')) ∨
  (∃ c id, files w !! path = Some c ∧ (id ∉ dom (nodes w)) ∧
     k (true, Some id)
       (upd_scene (λ sc, sc ++ [id])
          (upd_nodes (insert id (loaded_node ScalarVolumeNode path c))
             (record (EvLoadVolume path) w))) = (Ok b, w')).
Proof. apply bind_load_gen. Qed.

Lemma bind_loadTransform {B} path (k : bool * option nat → M B) w (b : B) w' :
  bind (loadTransform path) k w = (Ok b, w') →
  (files w !! path = None ∧
     k (false, None) (record (EvLoadTransform path) w) = (Ok b, w')) ∨
  (∃ c id, files w !! path = Some c ∧ (id ∉ dom (nodes w)) ∧
     k (true, Some id)
       (upd_scene (λ sc, sc ++ [id])
          (upd_nodes (insert id (loaded_node TransformNode path c))
             (record (EvLoadTransform path) w))) = (Ok b, w')).
Proof. apply bind_load_gen. Qed.

Lemma bind_if_print {B} (c : bool) x y (k : unit → M B) w (b : B) w' :
  bind (if c then print x else print y) k w = (Ok b, w') →
  k tt (emit (Printed (if c then x else y)) w) = (Ok b, w').
Proof. destruct c; intros Hrun; exact Hrun. Qed.

(** The loop that writes the transform appends every rewritten line. *)
Lemma write_transform_ok path sz org ls w c :
  files w !! path = Some c →
  write_transform path sz org ls w =
    (Ok tt, upd_files (insert path
                         (c +:+ str_concat (map (rewrite_line sz org) ls))) w).
Proof.
  revert w c. induction ls as [|l ls IH]; intros w c Hc.
  - cbn. unfold ret. f_equal. destruct w as [fs nds sc out cl tk].
    unfold upd_files; cbn in *. f_equal.
    rewrite str_app_nil_r. by rewrite insert_id.
  - cbn [write_transform map]. unfold bind, file_write, modify.
    rewrite (IH _ (c +:+ rewrite_line sz org l)).
    + f_equal. destruct w as [fs nds sc out cl tk].
      unfold upd_files; cbn in *. f_equal.
      rewrite insert_insert_eq. f_equal.
      unfold str_concat; cbn [foldr]. by rewrite str_app_assoc.
    + cbn [files upd_files]. rewrite lookup_insert_eq, Hc. reflexivity.
Qed.

Lemma bind_write_transform {B} path sz org ls (k : unit → M B) w c (b : B) w' :
  files w !! path = Some c →
  bind (write_transform path sz org ls) k w = (Ok b, w') →
  k tt (upd_files (insert path
                     (c +:+ str_concat (map (rewrite_line sz org) ls))) w)
    = (Ok b, w').
Proof.
  intros Hc. unfold bind. rewrite (write_transform_ok _ _ _ _ _ _ Hc).
  intros Hrun. exact Hrun.
Qed.

Lemma bind_raise {A B} (e : Exn) (k : A → M B) w (b : B) w' :
  bind (raise e) k w = (Ok b, w') → False.
Proof. discriminate. Qed.

Lemma bind_RemoveNode {B} id (k : unit → M B) w (b : B) w' :
  bind (RemoveNode id) k w = (Ok b, w') →
  k tt (upd_scene (filter (λ i, i ≠ id)) (record (EvRemoveNode id) w))
    = (Ok b, w').
Proof. intros Hrun. exact Hrun. Qed.

Lemma bind_index {A B} (l : list A) i (k : A → M B) w (b : B) w' :
  bind (index l i) k w = (Ok b, w') →
  ∃ x, l !! i = Some x ∧ k x w = (Ok b, w').
Proof.
  unfold index. destruct (l !! i) as [x|]; [eauto | discriminate].
Qed.

Lemma bind_removeOtputsFolderContents {B} vt (k : unit → M B) w (b : B) w' :
  bind (removeOtputsFolderContents vt) k w = (Ok b, w') →
  k tt (upd_files (filter (λ kv, in_folder (outputPath vt) kv.1 = false))
          (record (EvClearOutputs (outputPath vt)) w)) = (Ok b, w').
Proof. intros Hrun. exact Hrun. Qed.

Lemma bind_removeTmpsFiles {B} vt (k : unit → M B) w (b : B) w' :
  bind (removeTmpsFiles vt) k w = (Ok b, w') →
  k tt (upd_scene (filter (λ id, keeps_node (nodes w) id = true))
          (upd_files (tmp_files vt) (record EvRemoveTmps w))) = (Ok b, w').
Proof. intros Hrun. exact Hrun. Qed.

Lemma bind_ptRAS2IJK_of {B} fid vol (k : list Z → M B) w (b : B) w' :
  bind (ptRAS2IJK_of fid vol) k w = (Ok b, w') →
  ∃ nfid nvol, nodes w !! fid = Some nfid ∧ nodes w !! vol = Some nvol ∧
    k (ptRAS2IJK nfid nvol) w = (Ok b, w').
Proof.
  unfold ptRAS2IJK_of, bind, the_node, ret.
  destruct (nodes w !! fid) as [nfid|]; [|discriminate].
  destruct (nodes w !! vol) as [nvol|]; [eauto 6 | discriminate].
Qed.

Lemma bind_runCropping {B} vt vol pt cl rs hr (k : string → M B) w (b : B) w' :
  bind (runCropping vt vol pt cl rs hr) k w = (Ok b, w') →
  ∃ n, nodes w !! vol = Some n ∧
    k (cropped_path vt n pt cl rs hr)
      (upd_files (cropping_files vt n pt cl rs hr)
         (record (EvCropping vol pt cl rs hr) w)) = (Ok b, w').
Proof.
  unfold runCropping, bind, the_node, modify, ret.
  destruct (nodes w !! vol) as [n|]; [eauto | discriminate].
Qed.

Lemma bind_run_binary {B} (e : Event) (k : Z → M B) w (b : B) w' :
  bind (run_binary exit_code e) k w = (Ok b, w') →
  k (exit_code e (files w)) (upd_files (binary_files e) (record e w))
    = (Ok b, w').
Proof. intros Hrun. exact Hrun. Qed.


End Properties.

Section Composite.
Context {F : Type} `{!PyFloat F} {PyObj : Type}.
Context `{!Host (F:=F)} `{!VisSimCommon (F:=F) (PyObj:=PyObj)}.
Local Abbreviation World := (World (F:=F) (PyObj:=PyObj)).
Local Abbreviation M := (M (F:=F) (PyObj:=PyObj)).
Local Abbreviation VtVars := (VtVars (PyObj:=PyObj)).
Implicit Types (w : World) (vt : VtVars).

Lemma bind_stored_path {B} vt vol (k : string → M B) w (b : B) w' :
  bind (stored_path vt vol) k w = (Ok b, w') →
  ∃ n, nodes w !! vol = Some n ∧
    ((∃ p, nStorage n = Some p ∧ k p w = (Ok b, w')) ∨
     (nStorage n = None ∧
      k (join (outputPath vt) (nName n +:+ ".nrrd"))
        (upd_nodes (insert vol (with_storage
                      (join (outputPath vt) (nName n +:+ ".nrrd")) n))
           (upd_files (insert (join (outputPath vt) (nName n +:+ ".nrrd"))
                         (nData n))
              (record (EvSaveNode vol
                         (join (outputPath vt) (nName n +:+ ".nrrd"))) w)))
        = (Ok b, w'))).
Proof.
  intros H. apply bind_ok in H as (p & w1 & Hsp & H).
  unfold stored_path in Hsp.
  apply bind_GetStorageNode in Hsp as (n & Hn & Hsp).
  exists n. split; [exact Hn|].
  destruct (nStorage n) as [q|] eqn:Est.
  - left. apply bind_ret in Hsp.
    apply bind_ret_r in Hsp.
    apply bind_GetStorageFileName in Hsp as (n' & p' & Hn' & Hst' & Hsp).
    injection Hsp as <- <-. rewrite Hn in Hn'. injection Hn' as <-.
    rewrite Est in Hst'. injection Hst' as <-. eauto.
  - right. split; [reflexivity|].
    apply bind_ok in Hsp as ([] & w2 & Hsave & Hsp).
    apply bind_GetName in Hsave as (n' & Hn' & Hsave).
    rewrite Hn in Hn'. injection Hn' as <-.
    apply bind_saveNode in Hsave as (n' & Hn' & Hsave).
    rewrite Hn in Hn'. injection Hn' as <-.
    injection Hsave as <-.
    apply bind_ret_r in Hsp.
    apply bind_GetStorageFileName in Hsp as (n' & p' & Hn' & Hst' & Hsp).
    cbn [nodes upd_nodes upd_files record] in Hn'.
    rewrite lookup_insert_eq in Hn'. injection Hn' as <-.
    cbn [nStorage with_storage] in Hst'. injection Hst' as <-.
    injection Hsp as <- <-. exact H.
Qed.

End Composite.

(** Projections of a world built by the primitives. *)
Ltac world_simpl H :=
  cbn [files nodes scene stdout calls ticks upd_files upd_nodes upd_scene
       emit record tick nName nStorage nVolume nClass nFiducials nData
       with_name with_storage initRun_world fst snd] in H.

Ltac tidy H :=
  cbv beta zeta in H;
  cbn [fst snd vtVars resTransPath resOldDefPath resDefPath transNodeName
       fixedRegTmpPath movingRegTmpPath fixedPath movingPath initRun_vars
       andb] in H.

Ltac merge_lookups :=
  repeat match goal with
  | H1 : ?x = Some ?a, H2 : ?x = Some ?b |- _ =>
      lazymatch H1 with H2 => fail | _ => idtac end;
      let E := fresh "E" in
      assert (E : b = a) by congruence;
      clear H2; try first [subst b | subst a]
  end.


Ltac some_id Hi :=
  first [ discriminate Hi | injection Hi as <- ].

(** [id ≠ j] for a node [id] new to a map that holds [j]. *)
Ltac new_neq :=
  let E := fresh in
  intros E; subst;
  match goal with
  | Hfr : ?x ∉ _, Hd : ?x ∈ dom _ |- _ =>
      revert Hfr Hd; clear; intros Hfr Hd; set_solver
  end.

(** A lookup among the nodes, after insertions of new nodes. *)
Ltac node_simpl Hn :=
  repeat first
    [ rewrite lookup_insert_eq in Hn
    | rewrite lookup_insert_ne in Hn by new_neq ];
  try match type of Hn with Some _ = Some _ => injection Hn as <- end.

(** Remember that a node read from the map is in its domain. *)
Ltac note_dom Hn :=
  lazymatch type of Hn with
  | ?M !! ?j = Some _ =>
      lazymatch goal with
      | _ : j ∈ dom M |- _ => idtac
      | _ => pose proof (elem_of_dom_2 _ _ _ Hn)
      end
  | _ => idtac
  end.

Ltac node_read Hn := world_simpl Hn; node_simpl Hn; try note_dom Hn.


(** One step of a completed run [H : prog w = (Ok v, w')]. *)
Ltac step H :=
  lazymatch type of H with
  | bind (bind _ _) _ _ = _ => apply bind_assoc in H
  | bind (ret _) _ _ = _ => apply bind_ret in H
  | bind (raise _) _ _ = _ => destruct (bind_raise _ _ _ _ _ H)
  | bind (print _) _ _ = _ => apply bind_print in H
  | bind (logging_info _) _ _ = _ => apply bind_logging_info in H
  | bind (modify _) _ _ = _ => apply bind_modify in H
  | bind (gets _) _ _ = _ => apply bind_gets in H
  | bind (gui _ _) _ _ = _ => unfold gui in H; apply bind_modify in H
  | bind (fuseTwoImages _ _) _ _ = _ =>
      unfold fuseTwoImages in H; apply bind_modify in H
  | bind setUp _ _ = _ => unfold setUp in H
  | bind time_time _ _ = _ => unfold time_time in H
  | bind (downloadFromURL _ _ _ _) _ _ = _ => unfold downloadFromURL in H
  | bind (load _ _) _ _ = _ =>
      let Hc := fresh "Hc" in
      let Hfr := fresh "Hfr" in
      apply bind_load in H as [[Hc H] | (?c & ?id & Hc & Hfr & H)];
      world_simpl Hc; [| world_simpl Hfr; rewrite ?dom_insert_L in Hfr]
  | bind (the_node _) _ _ = _ =>
      let Hn := fresh "Hn" in
      apply bind_the_node in H as (?n & Hn & H); node_read Hn
  | bind (GetName _) _ _ = _ =>
      let Hn := fresh "Hn" in
      apply bind_GetName in H as (?n & Hn & H); node_read Hn
  | bind (GetStorageFileName _) _ _ = _ =>
      let Hn := fresh "Hn" in
      apply bind_GetStorageFileName in H as (?n & ?p & Hn & ?Hst & H);
      node_read Hn
  | bind (GetDimensions _) _ _ = _ =>
      let Hn := fresh "Hn" in
      apply bind_GetDimensions in H as (?n & ?g & Hn & ?Hg & H);
      node_read Hn
  | bind (GetOrigin _) _ _ = _ =>
      let Hn := fresh "Hn" in
      apply bind_GetOrigin in H as (?n & ?g & Hn & ?Hg & H);
      node_read Hn
  | bind (SetName _ _) _ _ = _ =>
      let Hi := fresh "Hi" in
      let Hn := fresh "Hn" in
      apply bind_SetName in H as (?i & ?n & Hi & Hn & H);
      some_id Hi; node_read Hn
  | bind (saveNode _ _) _ _ = _ =>
      let Hn := fresh "Hn" in
      apply bind_saveNode in H as (?n & Hn & H); node_read Hn
  | bind (copyfile _ _) _ _ = _ =>
      let Hc := fresh "Hc" in
      let Hne := fresh "Hne" in
      apply bind_copyfile in H as (?c & Hc & Hne & H);
      world_simpl Hc; world_simpl Hne;
      try (exfalso; apply Hne; reflexivity)
  | bind (rename _ _) _ _ = _ =>
      let Hc := fresh "Hc" in
      apply bind_rename in H as (?c & Hc & H); world_simpl Hc
  | bind (read_lines _) _ _ = _ =>
      let Hc := fresh "Hc" in
      apply bind_read_lines in H as (?c & Hc & H); world_simpl Hc
  | bind (open_w _) _ _ = _ => apply bind_open_w in H
  | bind (file_close _) _ _ = _ => apply bind_file_close in H
  | bind (loadVolume _) _ _ = _ =>
      let Hc := fresh "Hc" in
      let Hfr := fresh "Hfr" in
      apply bind_loadVolume in H as [[Hc H] | (?c & ?id & Hc & Hfr & H)];
      world_simpl Hc; [| world_simpl Hfr; rewrite ?dom_insert_L in Hfr]
  | bind (loadTransform _) _ _ = _ =>
      let Hc := fresh "Hc" in
      let Hfr := fresh "Hfr" in
      apply bind_loadTransform in H as [[Hc H] | (?c & ?id & Hc & Hfr & H)];
      world_simpl Hc; [| world_simpl Hfr; rewrite ?dom_insert_L in Hfr]
  | bind (RemoveNode _) _ _ = _ => apply bind_RemoveNode in H
  | bind (index _ _) _ _ = _ => apply bind_index in H as (?x & ?Hx & H)
  | bind (removeOtputsFolderContents _) _ _ = _ =>
      apply bind_removeOtputsFolderContents in H
  | bind (removeTmpsFiles _) _ _ = _ => apply bind_removeTmpsFiles in H
  | bind (ptRAS2IJK_of _ _) _ _ = _ =>
      let Hn := fresh "Hn" in
      let Hv := fresh "Hn" in
      apply bind_ptRAS2IJK_of in H as (?n & ?n & Hn & Hv & H);
      node_read Hn; node_read Hv
  | bind (runCropping _ _ _ _ _ _) _ _ = _ =>
      let Hn := fresh "Hn" in
      apply bind_runCropping in H as (?n & Hn & H); node_read Hn
  | bind (if ?c then print ?x else print ?y) _ _ = _ =>
      apply bind_if_print in H
  | ret _ _ = _ => injection H as <- <-
  | (if ?c then _ else _) _ = _ => destruct c eqn:?
  | bind (run_binary _ _) _ _ = _ => apply bind_run_binary in H
  | bind (runElastix _ _ _ _ _ _ _ _) _ _ = _ =>
      unfold runElastix in H; apply bind_run_binary in H
  | bind (runElxInvertTransform _ _ _ _ _ _) _ _ = _ =>
      unfold runElxInvertTransform in H; apply bind_run_binary in H
  | bind (runTransformix _ _ _ _ _ _ _) _ _ = _ =>
      unfold runTransformix in H; apply bind_run_binary in H
  | bind (stored_path _ _) _ _ = _ =>
      let Hn := fresh "Hn" in
      apply bind_stored_path in H as (?n & Hn & [(?p & ?Hst & H) | [?Hst H]]);
      node_read Hn
  | bind (match ?x with _ => _ end) _ _ = _ => destruct x eqn:?
  end; try (tidy H; merge_lookups).

Section Runs.
Context {F : Type} `{!PyFloat F} {PyObj : Type}.
Context `{!Host (F:=F)} `{!VisSimCommon (F:=F) (PyObj:=PyObj)}.
Context (exit_code : Event (F:=F) (PyObj:=PyObj) → gmap string string → Z).

Local Abbreviation World := (World (F:=F) (PyObj:=PyObj)).
Local Abbreviation Node := (Node (F:=F)).
Local Abbreviation RunVars := (RunVars (PyObj:=PyObj)).
Local Abbreviation VtVars := (VtVars (PyObj:=PyObj)).
Implicit Types (w : World) (n : Node) (fs : gmap string string).
Implicit Types (vt : VtVars) (rv : RunVars).


(** ** The transform file (lines 354-379) *)

Lemma rewrite_line_cases (fixedSize : Z * Z * Z) (fixedOrg : F * F * F) l :
  rewrite_line fixedSize fixedOrg l =
    if str_in "(Size " l then size_line fixedSize
    else if str_in "(Origin " l then origin_line fixedOrg
    else l.
Proof.
  unfold rewrite_line. destruct (str_in "(Size " l); [|reflexivity].
  by rewrite size_line_not_origin.
Qed.


(** ** initRun *)

Lemma initRun_ok f m ff mf co cp w rv w1 :
  initRun f m ff mf co cp w = (Ok rv, w1) →
  ∃ nf nm pf pm cf cm,
    let vt := customise co cp setGlobalVariables in
    let rv0 := initRun_vars vt (nName nf) (nName nm) pf pm in
    nodes w !! f = Some nf ∧ nodes w !! m = Some nm ∧
    nStorage nf = Some pf ∧ nStorage nm = Some pm ∧
    cleared (files w) !! pf = Some cf ∧
    <[fixedRegTmpPath rv0 := cf]> (cleared (files w)) !! pm = Some cm ∧
    pf ≠ fixedRegTmpPath rv0 ∧ pm ≠ movingRegTmpPath rv0 ∧
    rv = rv0 ∧
    w1 = initRun_world vt (nName nf) (nName nm) pf pm cf cm w.
Proof.
  intros H. apply bind_ret_r in H. unfold initRun in H. tidy H.
  repeat step H.
  all: try (exfalso; simplify_map_eq; fail).
  exists n, n0, p, p0, c, c0. by repeat split.
Qed.

End Runs.

Ltac step_run H :=
  lazymatch type of H with
  | bind (initRun _ _ _ _ _ _) _ _ = _ =>
      let Hinit := fresh "Hinit" in
      apply bind_ok in H as (?rv & ?w & Hinit & H);
      apply initRun_ok in Hinit
        as (?nf & ?nm & ?pf & ?pm & ?cf & ?cm & ?Hnf & ?Hnm & ?Hpf & ?Hpm
            & ?Hcf & ?Hcm & ?Hnef & ?Hnem & -> & ->);
      world_simpl Hnf; world_simpl Hnm; world_simpl Hcf; world_simpl Hcm;
      tidy H; try note_dom Hnf; try note_dom Hnm
  | _ => step H
  end.

Section Runs2.
Context {F : Type} `{!PyFloat F} {PyObj : Type}.
Context `{!Host (F:=F)} `{!VisSimCommon (F:=F) (PyObj:=PyObj)}.
Context (exit_code : Event (F:=F) (PyObj:=PyObj) → gmap string string → Z).

Local Abbreviation World := (World (F:=F) (PyObj:=PyObj)).
Local Abbreviation Node := (Node (F:=F)).
Local Abbreviation RunVars := (RunVars (PyObj:=PyObj)).
Local Abbreviation VtVars := (VtVars (PyObj:=PyObj)).
Implicit Types (w : World) (n : Node) (fs : gmap string string).
Implicit Types (vt : VtVars) (rv : RunVars).

(** The lines of a file, put together, are the file. *)
Lemma rev_app_app s t u : String.rev_app s t +:+ u = String.rev_app s (t +:+ u).
Proof.
  revert t. induction s as [|a s IH]; intros t; [reflexivity|].
  cbn. by rewrite IH.
Qed.

Lemma readlines_go_concat cur s :
  str_concat (readlines_go cur s) = String.rev_app cur s.
Proof.
  revert cur. induction s as [|a s IH]; intros cur.
  - destruct cur as [|b cur]; [reflexivity|].
    cbn [readlines_go str_concat foldr]. unfold String.rev.
    by rewrite rev_app_app.
  - cbn [readlines_go]. destruct (decide (a = LF)) as [->|].
    + cbn [str_concat foldr]. fold (str_concat (readlines_go "" s)).
      rewrite IH. unfold String.rev. by rewrite rev_app_app.
    + by rewrite IH.
Qed.

Lemma readlines_concat content : str_concat (readlines content) = content.
Proof. apply readlines_go_concat. Qed.

(** The transform file handed on (lines 354-379): the registration
    output, line by line, with the [Size] lines and, among the others, the
    [Origin] lines replaced. *)
Lemma modifyTransform_ok vt f ftmp w cTR w' :
  modifyTransform exit_code vt f ftmp w = (Ok cTR, w') →
  ∃ regOut nf fixedSize fOrg d0 d4 d8,
    files w !! join (outputPath vt) "TransformParameters.0.txt" = Some regOut ∧
    nodes w !! f = Some nf ∧ nVolume nf = Some (fixedSize, fOrg) ∧
    getDirs nf !! 0%nat = Some d0 ∧ getDirs nf !! 4%nat = Some d4 ∧
    getDirs nf !! 8%nat = Some d8 ∧
    let pOld := join (outputPath vt) "TransformParameters.0.txt" in
    let pMod := join (outputPath vt) "TransformParametersMod.txt" in
    let pInv := join (outputPath vt) "TransformParametersModInv.txt" in
    let e := EvInvertTransform pMod pInv ftmp (noOutput vt) "339" in
    let fixedOrg := (fmul d0 fOrg.1.1, fmul d4 fOrg.1.2, fmul d8 fOrg.2) in
    cTR = exit_code e (<[pInv := regOut]> (<[pMod := regOut]> (files w))) ∧
    files w' = <[pInv := str_concat (map (rewrite_line fixedSize fixedOrg)
                                       (readlines regOut))]>
                 (binary_files e (<[pInv := regOut]> (<[pMod := regOut]> (files w)))) ∧
    nodes w' = nodes w ∧ scene w' = scene w ∧ stdout w' = stdout w ∧
    ticks w' = ticks w ∧
    calls w' = calls w ++ [EvCopyFile pOld pMod; EvCopyFile pOld pInv; e;
                           EvOpenWrite pInv; EvClose pInv].
Proof.
  intros H. unfold modifyTransform in H. tidy H.
  repeat step H.
  eapply bind_write_transform in H;
    [| cbn [files upd_files record]; apply lookup_insert_eq ].
  repeat step H.
  rewrite lookup_insert_ne in Hc0 by (intros E; by apply Hne).
  assert (c0 = c) as -> by congruence.
  assert (join (outputPath vt) "TransformParametersModInv.txt"
          ≠ join (outputPath vt) "TransformParametersMod.txt") as Hmi.
  { intros E. by apply join_inj in E. }
  rewrite lookup_insert_ne, lookup_insert_eq in Hc1 by exact Hmi.
  injection Hc1 as <-.
  destruct g as [fixedSize fOrg].
  exists c, n, fixedSize, fOrg, x, x0, x1.
  cbn [files nodes scene stdout calls ticks upd_files record fst snd].
  repeat split; try assumption; try reflexivity.
  - by rewrite insert_insert_eq.
  - by rewrite <- !app_assoc.
Qed.


(** ** The common tail (lines 386-418 and 443-471) *)

Lemma load_results_ok rv m cTI cTR w v w' :
  load_results rv m cTI cTR w = (Ok v, w') →
  ∃ nm t r u cdef cres ct cm,
    let out := outputPath (vtVars rv) in
    let reg := join out (nName nm +:+ "_Registered.nrrd") in
    let renamed :=
      <[reg := cres]> (delete (join out "result.nrrd")
        (<[resDefPath rv := cdef]> (delete (resOldDefPath rv) (files w)))) in
    nodes w !! m = Some nm ∧
    (t ∉ dom (nodes w)) ∧ (r ∉ dom (nodes w)) ∧ (u ∉ dom (nodes w)) ∧
    r ≠ t ∧ u ≠ t ∧ u ≠ r ∧
    files w !! resOldDefPath rv = Some cdef ∧
    renamed !! resDefPath rv = Some ct ∧
    renamed !! movingPath rv = Some cm ∧
    v = VNode r ∧
    files w' = tmp_files (vtVars rv) renamed ∧
    nodes w' =
      <[u := with_name (imgName (movingPath rv))
               (loaded_node ScalarVolumeNode (movingPath rv) cm)]>
        (<[r := with_name (nName nm +:+ "_Registered")
                  (loaded_node ScalarVolumeNode reg cres)]>
           (<[t := with_name (transNodeName rv)
                     (loaded_node TransformNode (resDefPath rv) ct)]>
              (nodes w))) ∧
    scene w' =
      filter (λ id, keeps_node (nodes w') id = true)
        (filter (λ i, i ≠ m) (scene w ++ [t; r]) ++ [u]) ∧
    calls w' =
      calls w ++ [EvRename (resOldDefPath rv) (resDefPath rv);
                  EvRename (join out "result.nrrd") reg;
                  EvLoadTransform (resDefPath rv); EvLoadVolume reg;
                  EvRemoveNode m; EvLoadVolume (movingPath rv); EvRemoveTmps] ∧
    stdout w' =
      stdout w ++
        [Printed [VStr "************  Load deformation field Transform  **********************"];
         Printed [VStr reg]; Printed [VBool true];
         Printed (if (cTI =? 0) && (cTR =? 0)
                  then [VStr "No error is reported during registeration ..."]
                  else [VStr "error happened during registration "]);
         Printed [VStr "================= Cochlea registration is complete  ====================="];
         Logged "Processing completed"] ∧
    ticks w' = ticks w.
Proof.
  intros H. unfold load_results in H. tidy H.
  repeat step H.
  cbn [nStorage loaded_node] in Hst. injection Hst as <-.
  rewrite lookup_insert_eq in Hc2. injection Hc2 as <-.
  exists n, id, id0, id1, c, c0, c1, c3.
  cbn [files nodes scene stdout calls ticks upd_files upd_nodes upd_scene
       emit record node_val fst snd].
  rewrite !insert_insert_eq, <- !app_assoc. cbn [app].
  repeat split; try assumption; try reflexivity; clear -Hfr Hfr0 Hfr1;
    set_solver.
Qed.


(** ** run and runAcir, as far as the common tail *)

(** Saving a node changes its storage and nothing else; the other nodes
    stay as they are. *)
Lemma lookup_insert_storage (nds : gmap nat Node) i path x j y :
  nds !! i = Some x →
  <[i := with_storage path x]> nds !! j = Some y →
  ∃ y0, nds !! j = Some y0 ∧ nName y = nName y0 ∧ nVolume y = nVolume y0 ∧
        (j ≠ i → y = y0).
Proof.
  intros Hi Hj. destruct (decide (i = j)) as [->|Hne].
  - rewrite lookup_insert_eq in Hj. injection Hj as <-.
    exists x. by repeat split.
  - rewrite lookup_insert_ne in Hj by done. exists y. by repeat split.
Qed.

Lemma run_ok f m co cp w v w' :
  run exit_code f m co cp w = (Ok v, w') →
  ∃ nf nm pf pm cf cm w2 cTI cTR,
    let vt := customise co cp setGlobalVariables in
    let rv := initRun_vars vt (nName nf) (nName nm) pf pm in
    let eE := EvElastix (elastixBinPath vt) (fixedRegTmpPath rv)
                (movingRegTmpPath rv) (outputPath vt) (parsPath vt)
                (noOutput vt) "336" in
    let eT := EvTransformix (transformixBinPath vt) (movingRegTmpPath rv)
                (outputPath vt) (resTransPath rv) (noOutput vt) "339" in
    nodes w !! f = Some nf ∧ nodes w !! m = Some nm ∧
    nStorage nf = Some pf ∧ nStorage nm = Some pm ∧
    cleared (files w) !! pf = Some cf ∧
    <[fixedRegTmpPath rv := cf]> (cleared (files w)) !! pm = Some cm ∧
    w2 = upd_files (binary_files eT) (record eT
           (upd_files (binary_files eE) (record eE
              (emit (Printed [VStr "************  Register  moving image to  fixed image **********************"])
                 (initRun_world vt (nName nf) (nName nm) pf pm cf cm
                    (emit (Logged "image registration started: no cropping") w)))))) ∧
    cTI = exit_code eE (<[movingRegTmpPath rv := cm]>
            (<[fixedRegTmpPath rv := cf]> (cleared (files w)))) ∧
    load_results rv m cTI cTR w2 = (Ok v, w').
Proof.
  intros H. unfold run in H. tidy H. repeat step_run H.
  exists nf, nm, pf, pm, cf, cm. do 3 eexists.
  repeat split; try eassumption; try reflexivity.
Qed.

Lemma runAcir_ok f m ff mf co cp w v w' :
  runAcir exit_code f m ff mf co cp w = (Ok v, w') →
  ∃ nf nm nff pf pm cf cm,
    let vt := customise co cp setGlobalVariables in
    let rv := initRun_vars vt (nName nf) (nName nm) pf pm in
    let w1 := initRun_world vt (nName nf) (nName nm) pf pm cf cm
                (emit (Logged "image registration started: with cropping") w) in
    let fixedPoint := ptRAS2IJK nff nf in
    nodes w !! f = Some nf ∧ nodes w !! m = Some nm ∧
    nodes w !! ff = Some nff ∧
    nStorage nf = Some pf ∧ nStorage nm = Some pm ∧
    cleared (files w) !! pf = Some cf ∧
    <[fixedRegTmpPath rv := cf]> (cleared (files w)) !! pm = Some cm ∧
    ((np_sum fixedPoint = 0 ∧ v = VInt (-1) ∧
      w' = emit (Printed [VStr "Error: select cochlea fixed point"])
             (emit (Printed [VPoint fixedPoint])
                (emit (Printed [VStr (nName nf)])
                   (emit (Printed [VStr "run fixed point: ============================"])
                      w1)))) ∨
     (np_sum fixedPoint ≠ 0 ∧
      ∃ nmf nm1 nf2 nm2 c1 c2 x1 x2 we cInv wt cTI cTR,
        let p1 := join (outputPath vt) (nName nf +:+ "_F_Cochlea_Pos.fcsv") in
        let p2 := join (outputPath vt) (nName nm +:+ "_M_Cochlea_Pos.fcsv") in
        let nodes1 := <[ff := with_storage p1 nff]> (nodes w) in
        let nodes2 := <[mf := with_storage p2 nmf]> nodes1 in
        let movingPoint := ptRAS2IJK nmf nm1 in
        let cropF := cropped_path vt nf2 (v2t fixedPoint) (croppingLength vt)
                       (RSxyz vt) (hrChk vt) in
        let cropM := cropped_path vt nm2 (v2t movingPoint) (croppingLength vt)
                       (RSxyz vt) (hrChk vt) in
        let eE := EvElastix (elastixBinPath vt) cropF cropM (outputPath vt)
                    (parsPath vt) (noOutput vt) "336" in
        let eT := EvTransformix (transformixBinPath vt) (movingRegTmpPath rv)
                    (outputPath vt)
                    (join (outputPath vt) "TransformParametersModInv.txt")
                    (noOutput vt) "339" in
        nodes1 !! mf = Some nmf ∧ nodes1 !! m = Some nm1 ∧
        nodes2 !! f = Some nf2 ∧ nodes2 !! m = Some nm2 ∧
        (c1 ∉ dom (nodes w)) ∧ (c2 ∉ dom (nodes w)) ∧ c2 ≠ c1 ∧
        nodes we = <[c2 := x2]> (<[c1 := x1]> nodes2) ∧
        scene we = scene w ++ [c1; c2] ∧
        calls we =
          calls w ++
            [EvClearOutputs (outputPath setGlobalVariables);
             EvCopyFile pf (fixedRegTmpPath rv);
             EvCopyFile pm (movingRegTmpPath rv);
             EvSaveNode ff p1; EvSaveNode mf p2;
             EvCropping f (v2t fixedPoint) (croppingLength vt) (RSxyz vt)
               (hrChk vt);
             EvLoadVolume cropF;
             EvCropping m (v2t movingPoint) (croppingLength vt) (RSxyz vt)
               (hrChk vt);
             EvLoadVolume cropM; eE] ∧
        modifyTransform exit_code vt f (fixedRegTmpPath rv) we = (Ok cInv, wt) ∧
        load_results rv m cTI cTR (upd_files (binary_files eT) (record eT wt))
          = (Ok v, w'))).
Proof.
  intros H. unfold runAcir in H. tidy H. repeat step_run H.
  - exists nf, nm, n, pf, pm, cf, cm.
    repeat split; try assumption. left.
    split; [by apply Z.eqb_eq|]. by split.
  - apply bind_ok in H as (cInv & wt & Hmt & H). tidy H. step H.
    destruct (lookup_insert_storage _ _ _ _ _ _ Hn Hn1) as (? & ? & E1 & _).
    assert (nName n1 = nName nm) as E by congruence. rewrite E in *.
    exists nf, nm, n, pf, pm, cf, cm.
    repeat split; try assumption. right.
    split; [by apply Z.eqb_neq|].
    exists n0, n1, n2, n3, id, id0.
    lazymatch type of Hmt with
    | modifyTransform _ _ _ _ ?W = _ =>
        do 2 eexists; exists W, cInv, wt
    end.
    do 2 eexists.
    cbn [files nodes scene stdout calls ticks upd_files upd_nodes upd_scene
         emit record initRun_world].
    rewrite !insert_insert_eq, <- !app_assoc. cbn [app].
    repeat split; try eassumption; try reflexivity;
      revert Hfr Hfr0; clear; intros Hfr Hfr0; set_solver.
Qed.

End Runs2.

(** ** What a completed run did *)

(** Membership in a union, from membership in its last part. *)
Ltac dom_mono := repeat (apply elem_of_union_r); assumption.

Section Completed.
Context {F : Type} `{!PyFloat F} {PyObj : Type}.
Context `{!Host (F:=F)} `{!VisSimCommon (F:=F) (PyObj:=PyObj)}.
Context (exit_code : Event (F:=F) (PyObj:=PyObj) → gmap string string → Z).

Local Abbreviation World := (World (F:=F) (PyObj:=PyObj)).
Local Abbreviation Node := (Node (F:=F)).
Local Abbreviation Event := (Event (F:=F) (PyObj:=PyObj)).
Local Abbreviation PyVal := (PyVal (F:=F)).
Implicit Types (w : World) (n : Node) (v : PyVal).

(** The nodes [runAcir] finds when it reaches the common tail: the two
    fiducials were saved, two cropped volumes were added.  A node that was
    there from the start still is, with its name and geometry. *)
Lemma crop_nodes_lookup (nds : gmap nat Node) ff mf p1 p2 nff nmf c1 c2 x1 x2 j y :
  nds !! ff = Some nff →
  <[ff := with_storage p1 nff]> nds !! mf = Some nmf →
  c1 ∉ dom nds → c2 ∉ dom nds → j ∈ dom nds →
  <[c2 := x2]> (<[c1 := x1]> (<[mf := with_storage p2 nmf]>
     (<[ff := with_storage p1 nff]> nds))) !! j = Some y →
  ∃ y0, nds !! j = Some y0 ∧ nName y = nName y0 ∧ nVolume y = nVolume y0 ∧
        (j ≠ ff → j ≠ mf → y = y0).
Proof.
  intros Hff Hmf Hc1 Hc2 Hj Hy.
  rewrite lookup_insert_ne in Hy by (intros ->; contradiction).
  rewrite lookup_insert_ne in Hy by (intros ->; contradiction).
  destruct (lookup_insert_storage _ _ _ _ _ _ Hmf Hy) as (y1 & Hy1 & E1 & V1 & K1).
  destruct (lookup_insert_storage _ _ _ _ _ _ Hff Hy1) as (y0 & Hy0 & E0 & V0 & K0).
  exists y0. repeat split; try congruence.
  intros Hjf Hjm. rewrite (K1 Hjm). exact (K0 Hjf).
Qed.

(** The outward calls of a completed plain run, in order. *)
Lemma run_calls f m co cp w v w' :
  run exit_code f m co cp w = (Ok v, w') →
  ∃ nf nm pf pm,
    let vt := customise co cp setGlobalVariables in
    let rv := initRun_vars vt (nName nf) (nName nm) pf pm in
    let reg := join (outputPath vt) (nName nm +:+ "_Registered.nrrd") in
    nodes w !! f = Some nf ∧ nodes w !! m = Some nm ∧
    nStorage nf = Some pf ∧ nStorage nm = Some pm ∧
    calls w' =
      calls w ++
        [EvClearOutputs (outputPath setGlobalVariables);
         EvCopyFile pf (fixedRegTmpPath rv);
         EvCopyFile pm (movingRegTmpPath rv);
         EvElastix (elastixBinPath vt) (fixedRegTmpPath rv)
           (movingRegTmpPath rv) (outputPath vt) (parsPath vt)
           (noOutput vt) "336";
         EvTransformix (transformixBinPath vt) (movingRegTmpPath rv)
           (outputPath vt) (resTransPath rv) (noOutput vt) "339";
         EvRename (resOldDefPath rv) (resDefPath rv);
         EvRename (join (outputPath vt) "result.nrrd") reg;
         EvLoadTransform (resDefPath rv); EvLoadVolume reg;
         EvRemoveNode m; EvLoadVolume pm; EvRemoveTmps].
Proof.
  intros H.
  apply run_ok in H
    as (nf & nm & pf & pm & cf & cm & w2 & cTI & cTR & Hnf & Hnm & Hpf & Hpm
        & _ & _ & -> & _ & H).
  apply load_results_ok in H
    as (nm' & t & r & u & cdef & cres & ct & cm' & Hnm' & _ & _ & _ & _ & _
        & _ & _ & _ & _ & _ & _ & _ & _ & Hcalls & _).
  cbn [nodes calls upd_files record emit initRun_world] in Hnm', Hcalls.
  assert (nm' = nm) as -> by congruence.
  exists nf, nm, pf, pm. repeat split; try assumption.
  rewrite Hcalls. cbn [vtVars initRun_vars movingPath].
  by rewrite <- !app_assoc.
Qed.

(** The outward calls of a completed cropped run that got past the
    missing-point check, in order. *)
Lemma runAcir_calls f m ff mf co cp w v w' :
  runAcir exit_code f m ff mf co cp w = (Ok v, w') → v ≠ VInt (-1) →
  ∃ nf nm pf pm fixedPointT movingPointT cropF cropM,
    let vt := customise co cp setGlobalVariables in
    let rv := initRun_vars vt (nName nf) (nName nm) pf pm in
    let reg := join (outputPath vt) (nName nm +:+ "_Registered.nrrd") in
    let pOld := join (outputPath vt) "TransformParameters.0.txt" in
    let pMod := join (outputPath vt) "TransformParametersMod.txt" in
    let pInv := join (outputPath vt) "TransformParametersModInv.txt" in
    nodes w !! f = Some nf ∧ nodes w !! m = Some nm ∧
    nStorage nf = Some pf ∧ nStorage nm = Some pm ∧
    calls w' =
      calls w ++
        [EvClearOutputs (outputPath setGlobalVariables);
         EvCopyFile pf (fixedRegTmpPath rv);
         EvCopyFile pm (movingRegTmpPath rv);
         EvSaveNode ff (join (outputPath vt) (nName nf +:+ "_F_Cochlea_Pos.fcsv"));
         EvSaveNode mf (join (outputPath vt) (nName nm +:+ "_M_Cochlea_Pos.fcsv"));
         EvCropping f fixedPointT (croppingLength vt) (RSxyz vt) (hrChk vt);
         EvLoadVolume cropF;
         EvCropping m movingPointT (croppingLength vt) (RSxyz vt) (hrChk vt);
         EvLoadVolume cropM;
         EvElastix (elastixBinPath vt) cropF cropM (outputPath vt)
           (parsPath vt) (noOutput vt) "336";
         EvCopyFile pOld pMod; EvCopyFile pOld pInv;
         EvInvertTransform pMod pInv (fixedRegTmpPath rv) (noOutput vt) "339";
         EvOpenWrite pInv; EvClose pInv;
         EvTransformix (transformixBinPath vt) (movingRegTmpPath rv)
           (outputPath vt) pInv (noOutput vt) "339";
         EvRename (resOldDefPath rv) (resDefPath rv);
         EvRename (join (outputPath vt) "result.nrrd") reg;
         EvLoadTransform (resDefPath rv); EvLoadVolume reg;
         EvRemoveNode m; EvLoadVolume pm; EvRemoveTmps].
Proof.
  intros H Hv.
  apply runAcir_ok in H
    as (nf & nm & nff & pf & pm & cf & cm & Hnf & Hnm & Hnff & Hpf & Hpm
        & _ & _ & [(_ & -> & _) | (_ & H)]); [done|].
  destruct H
    as (nmf & nm1 & nf2 & nm2 & c1 & c2 & x1 & x2 & we & cInv & wt & cTI & cTR
        & Hmf & Hm1 & Hf2 & Hm2 & Hc1 & Hc2 & _ & Hnodes & _ & Hcalls & Hmt & H).
  apply modifyTransform_ok in Hmt
    as (regOut & nf' & fixedSize & fOrg & d0 & d4 & d8 & _ & _ & _ & _ & _ & _
        & _ & _ & Hnodes_t & _ & _ & _ & Hcalls_t).
  apply load_results_ok in H
    as (nm' & t & r & u & cdef & cres & ct & cm' & Hnm' & _ & _ & _ & _ & _
        & _ & _ & _ & _ & _ & _ & _ & _ & Hcalls' & _).
  cbn [nodes calls upd_files record] in Hnm', Hcalls'.
  rewrite Hnodes_t, Hnodes in Hnm'.
  apply crop_nodes_lookup in Hnm' as (nm0 & Hnm0 & E & _);
    [| assumption | assumption | assumption | assumption
     | by apply elem_of_dom_2 in Hnm ].
  assert (nm0 = nm) as -> by congruence. rewrite E in Hcalls'.
  exists nf, nm, pf, pm. do 4 eexists.
  repeat split; try assumption.
  rewrite Hcalls', Hcalls_t, Hcalls. cbn [vtVars initRun_vars movingPath].
  rewrite <- !app_assoc. reflexivity.
Qed.


(** What the common tail leaves, seen from the world it starts in. *)
Lemma load_results_named rv m cTI cTR w2 v w' :
  load_results rv m cTI cTR w2 = (Ok v, w') →
  ∃ nm2 t r ct cr,
    let reg := join (outputPath (vtVars rv)) (nName nm2 +:+ "_Registered.nrrd") in
    nodes w2 !! m = Some nm2 ∧
    (t ∉ dom (nodes w2)) ∧ (r ∉ dom (nodes w2)) ∧
    nodes w' !! t = Some (with_name (transNodeName rv)
                            (loaded_node TransformNode (resDefPath rv) ct)) ∧
    nodes w' !! r = Some (with_name (nName nm2 +:+ "_Registered")
                            (loaded_node ScalarVolumeNode reg cr)) ∧
    v = VNode r ∧
    (keeps_node (nodes w') t = true → t ∈ scene w') ∧
    (keeps_node (nodes w') r = true → r ∈ scene w').
Proof.
  intros H.
  apply load_results_ok in H
    as (nm2 & t & r & u & cdef & cres & ct & cm & Hnm & Ht & Hr & Hu & Hrt
        & Hut & Hur & _ & _ & _ & -> & _ & Hnodes & Hscene & _).
  assert (t ≠ m ∧ r ≠ m) as [Htm Hrm].
  { apply elem_of_dom_2 in Hnm. split; intros ->; contradiction. }
  exists nm2, t, r, ct, cres. repeat split; try assumption.
  - rewrite Hnodes. by rewrite !lookup_insert_ne, lookup_insert_eq by done.
  - rewrite Hnodes. by rewrite lookup_insert_ne, lookup_insert_eq by done.
  - intros Hk. rewrite Hscene. apply list_elem_of_filter. split; [exact Hk|].
    rewrite elem_of_app. left. apply list_elem_of_filter. split; [exact Htm|].
    clear. set_solver.
  - intros Hk. rewrite Hscene. apply list_elem_of_filter. split; [exact Hk|].
    rewrite elem_of_app. left. apply list_elem_of_filter. split; [exact Hrm|].
    clear. set_solver.
Qed.

Lemma load_results_scene rv m cTI cTR w2 v w' :
  load_results rv m cTI cTR w2 = (Ok v, w') →
  (m ∉ scene w') ∧
  ∃ u cm,
    (u ∉ dom (nodes w2)) ∧
    nodes w' !! u = Some (with_name (imgName (movingPath rv))
                            (loaded_node ScalarVolumeNode (movingPath rv) cm)) ∧
    (keeps_node (nodes w') u = true → u ∈ scene w') ∧
    ∀ j, j ∈ dom (nodes w2) →
      nodes w' !! j = nodes w2 !! j ∧
      (j ∈ scene w2 → j ≠ m → keeps_node (nodes w') j = true → j ∈ scene w').
Proof.
  intros H.
  apply load_results_ok in H
    as (nm2 & t & r & u & cdef & cres & ct & cm & Hnm & Ht & Hr & Hu & Hrt
        & Hut & Hur & _ & _ & _ & -> & _ & Hnodes & Hscene & _).
  assert (u ≠ m) as Hum.
  { apply elem_of_dom_2 in Hnm. intros ->; contradiction. }
  split.
  - rewrite Hscene. intros Hin.
    apply list_elem_of_filter in Hin as [_ Hin].
    apply elem_of_app in Hin as [Hin | Hin].
    + by apply list_elem_of_filter in Hin as [Hne _].
    + apply list_elem_of_singleton in Hin. by apply Hum.
  - exists u, cm. split; [exact Hu|]. split.
    { rewrite Hnodes. by rewrite lookup_insert_eq. }
    split.
    { intros Hk. rewrite Hscene. apply list_elem_of_filter.
      split; [exact Hk|]. clear. set_solver. }
    intros j Hj. split.
    + rewrite Hnodes.
      by rewrite !lookup_insert_ne by (intros ->; contradiction).
    + intros Hin Hjm Hk. rewrite Hscene. apply list_elem_of_filter.
      split; [exact Hk|]. rewrite elem_of_app. left.
      apply list_elem_of_filter. split; [exact Hjm|].
      revert Hin. clear. set_solver.
Qed.

(** Nothing that lies in the shared output folder survives the clearing. *)
Lemma cleared_spec (fs : gmap string string) path :
  in_folder (outputPath setGlobalVariables) path = true →
  cleared fs !! path = None.
Proof.
  intros Hin. unfold cleared. apply map_lookup_filter_None. right.
  intros c _ Hno. cbv beta in Hno. cbn [fst] in Hno. congruence.
Qed.

(** ** The claims about completed runs *)

(** C1.  In a completed cropped run the inversion helper is started on
    the untouched copy of the transform, right after the two copies are
    made; only then is the file with the rewritten [Size] and [Origin]
    lines written, over the file the inversion was to produce, and
    transformix is applied with that file to the copy of the whole moving
    image.  The rewrite does not come first. *)
Theorem runAcir_inverts_before_rewrite f m ff mf co cp w v w' :
  runAcir exit_code f m ff mf co cp w = (Ok v, w') → v ≠ VInt (-1) →
  ∃ nm pm pre post fixedTmp cropF cropM,
    let vt := customise co cp setGlobalVariables in
    let movingTmp := join (outputPath vt) (nName nm +:+ ".nrrd") in
    let pOld := join (outputPath vt) "TransformParameters.0.txt" in
    let pMod := join (outputPath vt) "TransformParametersMod.txt" in
    let pInv := join (outputPath vt) "TransformParametersModInv.txt" in
    nodes w !! m = Some nm ∧ nStorage nm = Some pm ∧
    EvCopyFile pm movingTmp ∈ pre ∧
    calls w' =
      calls w ++ pre ++
        [EvElastix (elastixBinPath vt) cropF cropM (outputPath vt)
           (parsPath vt) (noOutput vt) "336";
         EvCopyFile pOld pMod; EvCopyFile pOld pInv;
         EvInvertTransform pMod pInv fixedTmp (noOutput vt) "339";
         EvOpenWrite pInv; EvClose pInv;
         EvTransformix (transformixBinPath vt) movingTmp (outputPath vt)
           pInv (noOutput vt) "339"] ++ post.
Proof.
  intros H Hv.
  apply runAcir_calls in H
    as (nf & nm & pf & pm & ptF & ptM & cropF & cropM & Hnf & Hnm & Hpf & Hpm
        & Hcalls); [|exact Hv].
  exists nm, pm. eexists (_ :: _ :: _ :: _ :: _ :: _ :: _ :: _ :: [_]).
  eexists. exists (join (outputPath (customise co cp setGlobalVariables))
                     (nName nf +:+ ".nrrd")), cropF, cropM.
  split; [exact Hnm|]. split; [exact Hpm|].
  split; [| rewrite Hcalls; cbn [app]; reflexivity ].
  cbn [initRun_vars movingRegTmpPath]. clear. set_solver.
Qed.




(** C3.  A cropped run whose fixed point is there is never stopped for
    its moving point, whatever that point is, all zero included: if it
    completes, it went through cropping and registration and returns a
    node.  The fixed point is one whose coordinates and sum are [int64]
    values, so that its sum here is the sum [np.sum] gives. *)
Theorem runAcir_moving_point_unchecked f m ff mf co cp w v w' nff nf :
  runAcir exit_code f m ff mf co cp w = (Ok v, w') →
  nodes w !! ff = Some nff → nodes w !! f = Some nf →
  fits_int64 (ptRAS2IJK nff nf) →
  np_sum (ptRAS2IJK nff nf) ≠ 0 →
  (∃ r, v = VNode r) ∧
  let vt := customise co cp setGlobalVariables in
  ∃ ptF ptM cropF cropM,
    EvCropping f ptF (croppingLength vt) (RSxyz vt) (hrChk vt) ∈ calls w' ∧
    EvCropping m ptM (croppingLength vt) (RSxyz vt) (hrChk vt) ∈ calls w' ∧
    EvElastix (elastixBinPath vt) cropF cropM (outputPath vt) (parsPath vt)
      (noOutput vt) "336" ∈ calls w'.
Proof.
  intros H Hnff Hnf _ Hsum.
  assert (v ≠ VInt (-1)) as Hv.
  { apply runAcir_ok in H
      as (nf' & nm & nff' & pf & pm & cf & cm & Hnf' & Hnm & Hnff' & _ & _
          & _ & _ & [(Hz & _) | (_ & H)]).
    - exfalso. apply Hsum. congruence.
    - destruct H as (? & ? & ? & ? & ? & ? & ? & ? & ? & ? & ? & ? & ? & _ & _
                     & _ & _ & _ & _ & _ & _ & _ & _ & _ & H).
      apply load_results_ok in H
        as (? & ? & r & ? & ? & ? & ? & ? & _ & _ & _ & _ & _ & _ & _ & _ & _
            & _ & -> & _).
      discriminate. }
  split.
  - apply runAcir_ok in H
      as (? & ? & ? & ? & ? & ? & ? & _ & _ & _ & _ & _ & _ & _
          & [(_ & -> & _) | (_ & H)]); [done|].
    destruct H as (? & ? & ? & ? & ? & ? & ? & ? & ? & ? & ? & ? & ? & _ & _
                   & _ & _ & _ & _ & _ & _ & _ & _ & _ & H).
    apply load_results_ok in H
      as (? & ? & r & ? & ? & ? & ? & ? & _ & _ & _ & _ & _ & _ & _ & _ & _
          & _ & -> & _).
    by exists r.
  - apply runAcir_calls in H
      as (? & ? & ? & ? & ptF & ptM & cropF & cropM & _ & _ & _ & _ & Hcalls);
      [|exact Hv].
    exists ptF, ptM, cropF, cropM.
    rewrite Hcalls. clear. set_solver.
Qed.

Lemma results_loaded f m ff mf co cp w v w' :
  run exit_code f m co cp w = (Ok v, w') ∨
    runAcir exit_code f m ff mf co cp w = (Ok v, w') →
  v ≠ VInt (-1) →
  ∃ nm t r ct cr pre post,
    let vt := customise co cp setGlobalVariables in
    let out := outputPath vt in
    let dFld := join out (nName nm +:+ "_dFld" +:+ imgType vt) in
    let reg := join out (nName nm +:+ "_Registered.nrrd") in
    nodes w !! m = Some nm ∧
    calls w' =
      calls w ++ pre ++
        [EvRename (join out ("deformationField" +:+ imgType vt)) dFld;
         EvRename (join out "result.nrrd") reg;
         EvLoadTransform dFld; EvLoadVolume reg] ++ post ∧
    (t ∉ dom (nodes w)) ∧ (r ∉ dom (nodes w)) ∧
    nodes w' !! t = Some (with_name (nName nm +:+ "_Transform")
                            (loaded_node TransformNode dFld ct)) ∧
    nodes w' !! r = Some (with_name (nName nm +:+ "_Registered")
                            (loaded_node ScalarVolumeNode reg cr)) ∧
    (keeps_node (nodes w') t = true → t ∈ scene w') ∧
    (keeps_node (nodes w') r = true → r ∈ scene w') ∧
    v = VNode r.
Proof.
  intros [H | H] Hv.
  - pose proof (run_calls _ _ _ _ _ _ _ H)
      as (nf & nm & pf & pm & Hnf & Hnm & Hpf & Hpm & Hcalls).
    apply run_ok in H
      as (nf' & nm' & pf' & pm' & cf & cm & w2 & cTI & cTR & Hnf' & Hnm' & Hpf'
          & Hpm' & _ & _ & -> & _ & H).
    assert (nf' = nf) as -> by congruence.
    assert (nm' = nm) as -> by congruence.
    assert (pf' = pf) as -> by congruence.
    assert (pm' = pm) as -> by congruence.
    apply load_results_named in H
      as (nm2 & t & r & ct & cr & Hnm2 & Ht & Hr & Hnt & Hnr & -> & Hst & Hsr).
    cbn [nodes upd_files record emit initRun_world] in Hnm2, Ht, Hr.
    assert (nm2 = nm) as -> by congruence.
    exists nm, t, r, ct, cr. eexists (_ :: _ :: _ :: _ :: [_]). eexists.
    repeat split; try assumption.
    rewrite Hcalls. cbn [app]. reflexivity.
  - pose proof (runAcir_calls _ _ _ _ _ _ _ _ _ H Hv)
      as (nf & nm & pf & pm & ptF & ptM & cropF & cropM & Hnf & Hnm & Hpf & Hpm
          & Hcalls).
    apply runAcir_ok in H
      as (nf' & nm' & nff & pf' & pm' & cf & cm & Hnf' & Hnm' & Hnff & Hpf'
          & Hpm' & _ & _ & [(_ & -> & _) | (_ & H)]); [done|].
    assert (nf' = nf) as -> by congruence.
    assert (nm' = nm) as -> by congruence.
    assert (pf' = pf) as -> by congruence.
    assert (pm' = pm) as -> by congruence.
    destruct H
      as (nmf & nm1 & nf2 & nm2 & c1 & c2 & x1 & x2 & we & cInv & wt & cTI
          & cTR & Hmf & Hm1 & Hf2 & Hm2 & Hc1 & Hc2 & _ & Hnodes & _ & _ & Hmt
          & H).
    apply modifyTransform_ok in Hmt
      as (regOut & nf' & fixedSize & fOrg & d0 & d4 & d8 & _ & _ & _ & _ & _
          & _ & _ & _ & Hnodes_t & _).
    apply load_results_named in H
      as (nm3 & t & r & ct & cr & Hnm3 & Ht & Hr & Hnt & Hnr & -> & Hst & Hsr).
    cbn [nodes upd_files record] in Hnm3, Ht, Hr.
    rewrite Hnodes_t, Hnodes in Hnm3, Ht, Hr.
    apply crop_nodes_lookup in Hnm3 as (nm0 & Hnm0 & E & _);
      [| assumption | assumption | assumption | assumption
       | by apply elem_of_dom_2 in Hnm ].
    assert (nm0 = nm) as -> by congruence. rewrite E in Hnr.
    exists nm, t, r, ct, cr.
    eexists (_ :: _ :: _ :: _ :: _ :: _ :: _ :: _ :: _ :: _ :: _ :: _ :: _
               :: _ :: _ :: [_]).
    eexists.
    repeat split; try assumption.
    + rewrite Hcalls. cbn [app]. reflexivity.
    + intros Hin. apply Ht. rewrite !dom_insert_L. dom_mono.
    + intros Hin. apply Hr. rewrite !dom_insert_L. dom_mono.
Qed.

(** C6.  A completed run (one not stopped at the missing-point check)
    renames the deformation field to [<moving>_dFld<imgType>] and the
    result image to [<moving>_Registered.nrrd], loads the first as a new
    transform node and gives it the name [<moving>_Transform], loads the
    second as a new volume node, gives it the name [<moving>_Registered]
    and returns it; [<moving>] is the name the moving volume had when
    the run began. *)
Theorem results_named f m ff mf co cp w v w' :
  run exit_code f m co cp w = (Ok v, w') ∨
    runAcir exit_code f m ff mf co cp w = (Ok v, w') →
  v ≠ VInt (-1) →
  ∃ nm t r nt nr pre post,
    let vt := customise co cp setGlobalVariables in
    let out := outputPath vt in
    let dFld := join out (nName nm +:+ "_dFld" +:+ imgType vt) in
    let reg := join out (nName nm +:+ "_Registered.nrrd") in
    nodes w !! m = Some nm ∧
    calls w' =
      calls w ++ pre ++
        [EvRename (join out ("deformationField" +:+ imgType vt)) dFld;
         EvRename (join out "result.nrrd") reg;
         EvLoadTransform dFld; EvLoadVolume reg] ++ post ∧
    (t ∉ dom (nodes w)) ∧ (r ∉ dom (nodes w)) ∧
    nodes w' !! t = Some nt ∧ nodes w' !! r = Some nr ∧
    nName nt = nName nm +:+ "_Transform" ∧
    nName nr = nName nm +:+ "_Registered" ∧
    nClass nt = TransformNode ∧ nClass nr = ScalarVolumeNode ∧
    nStorage nt = Some dFld ∧ nStorage nr = Some reg ∧
    (keeps_node (nodes w') t = true → t ∈ scene w') ∧
    (keeps_node (nodes w') r = true → r ∈ scene w') ∧
    v = VNode r.
Proof.
  intros H Hv.
  apply results_loaded in H
    as (nm & t & r & ct & cr & pre & post & Hnm & Hcalls & Ht & Hr & Hnt & Hnr
        & Hst & Hsr & ->); [|exact Hv].
  eexists nm, t, r, _, _, pre, post.
  split; [exact Hnm|]. split; [exact Hcalls|]. split; [exact Ht|].
  split; [exact Hr|]. split; [exact Hnt|]. split; [exact Hnr|].
  cbn [nName nClass nStorage with_name loaded_node].
  repeat split; assumption.
Qed.


(** C9, as the code has it.  A cropped run never returns [False].  When
    the fixed point is missing (its sum is zero), whatever the moving
    point, the run returns the integer [-1], and by then [initRun] has
    cleared the shared output folder and copied both images into the
    output folder of the run: nothing else was done, nothing is undone. *)
Theorem runAcir_error_value f m ff mf co cp w v w' :
  runAcir exit_code f m ff mf co cp w = (Ok v, w') →
  v ≠ VBool false ∧
  ∀ nff nf, nodes w !! ff = Some nff → nodes w !! f = Some nf →
    np_sum (ptRAS2IJK nff nf) = 0 →
    v = VInt (-1) ∧
    ∃ nm pf pm cf cm,
      let vt := customise co cp setGlobalVariables in
      let fixedTmp := join (outputPath vt) (nName nf +:+ ".nrrd") in
      let movingTmp := join (outputPath vt) (nName nm +:+ ".nrrd") in
      nodes w !! m = Some nm ∧
      nStorage nf = Some pf ∧ nStorage nm = Some pm ∧
      cleared (files w) !! pf = Some cf ∧
      <[fixedTmp := cf]> (cleared (files w)) !! pm = Some cm ∧
      files w' = <[movingTmp := cm]> (<[fixedTmp := cf]> (cleared (files w))) ∧
      calls w' = calls w ++ [EvClearOutputs (outputPath setGlobalVariables);
                             EvCopyFile pf fixedTmp; EvCopyFile pm movingTmp] ∧
      nodes w' = nodes w ∧ scene w' = scene w.
Proof.
  intros H.
  apply runAcir_ok in H
    as (nf & nm & nff & pf & pm & cf & cm & Hnf & Hnm & Hnff & Hpf & Hpm & Hcf
        & Hcm & [(Hz & -> & ->) | (Hnz & H)]).
  - split; [discriminate|]. intros nff' nf' Hnff' Hnf' _.
    assert (nf' = nf) as -> by congruence.
    split; [reflexivity|]. exists nm, pf, pm, cf, cm.
    cbn [files nodes scene calls upd_files record emit initRun_world
         initRun_vars fixedRegTmpPath movingRegTmpPath] in *.
    repeat split; try assumption. by rewrite <- !app_assoc.
  - destruct H as (? & ? & ? & ? & ? & ? & ? & ? & ? & ? & ? & ? & ? & _ & _
                   & _ & _ & _ & _ & _ & _ & _ & _ & _ & H).
    apply load_results_ok in H
      as (? & ? & r & ? & ? & ? & ? & ? & _ & _ & _ & _ & _ & _ & _ & _ & _
          & _ & -> & _).
    split; [discriminate|]. intros nff' nf' Hnff' Hnf' Hz.
    exfalso. apply Hnz. congruence.
Qed.

(** C10, as the code has it.  A completed run takes the moving volume
    node it was given out of the scene and loads a new node from the file
    that node was stored in, named after the file.  The fixed volume node
    keeps its object, and its place in the scene unless the cleanup of
    temporary nodes takes it, provided it is another node than the moving
    volume and the fiducials. *)
Theorem moving_node_replaced f m ff mf co cp w v w' :
  run exit_code f m co cp w = (Ok v, w') ∨
    runAcir exit_code f m ff mf co cp w = (Ok v, w') →
  v ≠ VInt (-1) →
  ∃ nm pm u cm,
    nodes w !! m = Some nm ∧ nStorage nm = Some pm ∧
    (m ∉ scene w') ∧
    (u ∉ dom (nodes w)) ∧
    nodes w' !! u = Some (with_name (imgName pm)
                            (loaded_node ScalarVolumeNode pm cm)) ∧
    (keeps_node (nodes w') u = true → u ∈ scene w') ∧
    (f ≠ m → ff ≠ f → mf ≠ f →
     nodes w' !! f = nodes w !! f ∧
     (f ∈ scene w → keeps_node (nodes w') f = true → f ∈ scene w')).
Proof.
  intros [H | H] Hv.
  - apply run_ok in H
      as (nf & nm & pf & pm & cf & cm & w2 & cTI & cTR & Hnf & Hnm & Hpf
          & Hpm & _ & _ & -> & _ & H).
    apply load_results_scene in H as (Hm & u & cu & Hu & Hnu & Hsu & Hframe).
    cbn [nodes scene upd_files record emit initRun_world initRun_vars
         movingPath] in *.
    exists nm, pm, u, cu. repeat split; try assumption.
    + apply (Hframe f). by apply elem_of_dom_2 in Hnf.
    + intros Hin Hk. apply (Hframe f); [by apply elem_of_dom_2 in Hnf | ..];
        assumption.
  - apply runAcir_ok in H
      as (nf & nm & nff & pf & pm & cf & cm & Hnf & Hnm & Hnff & Hpf
          & Hpm & _ & _ & [(_ & -> & _) | (_ & H)]); [done|].
    destruct H
      as (nmf & nm1 & nf2 & nm2 & c1 & c2 & x1 & x2 & we & cInv & wt & cTI
          & cTR & Hmf & Hm1 & Hf2 & Hm2 & Hc1 & Hc2 & _ & Hnodes & Hscene & _
          & Hmt & H).
    apply modifyTransform_ok in Hmt
      as (regOut & nf' & fixedSize & fOrg & d0 & d4 & d8 & _ & _ & _ & _ & _
          & _ & _ & _ & Hnodes_t & Hscene_t & _).
    apply load_results_scene in H as (Hm & u & cu & Hu & Hnu & Hsu & Hframe).
    cbn [nodes scene upd_files record initRun_vars movingPath] in *.
    rewrite Hnodes_t, Hnodes in Hu, Hframe. rewrite Hscene_t, Hscene in Hframe.
    exists nm, pm, u, cu. repeat split; try assumption.
    + intros Hin. apply Hu. rewrite !dom_insert_L. dom_mono.
    + assert (f ∈ dom (nodes w)) as Hfd by (by apply elem_of_dom_2 in Hnf).
      destruct (Hframe f) as [-> _].
      { rewrite !dom_insert_L. dom_mono. }
      rewrite !lookup_insert_ne; [reflexivity | done | done | ..];
        intros ->; contradiction.
    + intros Hin Hk.
      assert (f ∈ dom (nodes w)) as Hfd by (by apply elem_of_dom_2 in Hnf).
      apply (Hframe f); [rewrite !dom_insert_L; dom_mono | | assumption
                         | assumption].
      rewrite elem_of_app. by left.
Qed.



End Completed.

(** ** Every run, completed or not: the calls it makes *)

Section Traces.
Context {F : Type} `{!PyFloat F} {PyObj : Type}.
Context `{!Host (F:=F)} `{!VisSimCommon (F:=F) (PyObj:=PyObj)}.

Local Abbreviation World := (World (F:=F) (PyObj:=PyObj)).
Local Abbreviation M := (M (F:=F) (PyObj:=PyObj)).
Local Abbreviation Event := (Event (F:=F) (PyObj:=PyObj)).
Implicit Types (w : World) (P : Event → Prop).

(** [m] only adds calls, and each call it adds satisfies [P]. *)
Definition emits {A} P (m : M A) : Prop :=
  ∀ w, ∃ evs, calls (m w).2 = calls w ++ evs ∧ Forall P evs.

Lemma emits_ret {A} P (a : A) : emits P (ret a).
Proof. intros w. exists []. by rewrite app_nil_r. Qed.

Lemma emits_raise {A} P e : emits P (raise (A:=A) e).
Proof. intros w. exists []. by rewrite app_nil_r. Qed.

Lemma emits_gets {A} P (f : World → A) : emits P (gets f).
Proof. intros w. exists []. by rewrite app_nil_r. Qed.

Lemma emits_quiet P (f : World → World) :
  (∀ w, calls (f w) = calls w) → emits P (modify f).
Proof. intros Hf w. exists []. cbn. by rewrite Hf, app_nil_r. Qed.

Lemma emits_record P e : P e → emits P (modify (record e)).
Proof. intros He w. exists [e]. split; [reflexivity | by constructor]. Qed.

Lemma emits_bind {A B} P (m : M A) (k : A → M B) :
  emits P m → (∀ a, emits P (k a)) → emits P (bind m k).
Proof.
  intros Hm Hk w. unfold bind. destruct (Hm w) as (evs & E & HP).
  destruct (m w) as [[a|e] w1]; cbn [snd] in *.
  - destruct (Hk a w1) as (evs' & E' & HP'). exists (evs ++ evs').
    split; [by rewrite E', E, app_assoc | by apply Forall_app].
  - by exists evs.
Qed.

Lemma emits_try_except {A} P (m : M A) (h : Exn → M A) :
  emits P m → (∀ e, emits P (h e)) → emits P (try_except m h).
Proof.
  intros Hm Hh w. unfold try_except. destruct (Hm w) as (evs & E & HP).
  destruct (m w) as [[a|e] w1]; cbn [snd] in *.
  - by exists evs.
  - destruct (Hh e w1) as (evs' & E' & HP'). exists (evs ++ evs').
    split; [by rewrite E', E, app_assoc | by apply Forall_app].
Qed.

Lemma emits_the_node P id : emits P (the_node id).
Proof.
  intros w. exists []. unfold the_node.
  destruct (nodes w !! id); by rewrite app_nil_r.
Qed.

Lemma emits_write_transform P path sz org ls :
  emits P (write_transform path sz org ls).
Proof.
  induction ls as [|l ls IH]; [apply emits_ret|].
  cbn [write_transform]. apply emits_bind; [|intros _; exact IH].
  apply emits_quiet. reflexivity.
Qed.

End Traces.

(** One layer of a program, for a goal [emits P m]; [side] proves that a
    recorded call satisfies [P]. *)
Ltac emits_step side :=
  lazymatch goal with
  | |- emits _ (bind _ _) => apply emits_bind; [| intros ?]
  | |- emits _ (ret _) => apply emits_ret
  | |- emits _ (raise _) => apply emits_raise
  | |- emits _ (gets _) => apply emits_gets
  | |- emits _ (the_node _) => apply emits_the_node
  | |- emits _ (write_transform _ _ _ _) => apply emits_write_transform
  | |- emits _ (modify (record _)) => apply emits_record; side
  | |- emits _ (modify _) => apply emits_quiet; intros ?; reflexivity
  | |- emits _ (try_except _ _) => apply emits_try_except; [| intros ?]
  | |- emits _ (match ?x with _ => _ end) => destruct x
  end.

Ltac unfold_all :=
  unfold onApplyBtnClick, testSlicerCochleaRegistration, runAcir, run,
    initRun, load_results, modifyTransform, downloadFromURL, new_fiducial,
    setUp, stored_path, runElastix, runElxInvertTransform, runTransformix,
    run_binary, runCropping, ptRAS2IJK_of, loadVolume, loadTransform, load,
    removeOtputsFolderContents, removeTmpsFiles, fuseTwoImages,
    GetStorageFileName, GetStorageNode, GetName, GetDimensions, GetOrigin,
    SetName, saveNode, copyfile, rename, read_lines, open_w, file_close,
    file_write, RemoveNode, index, time_time, gui, print, logging_info.

Ltac emits_all side := unfold_all; cbv zeta; repeat emits_step side.

Section Traces2.
Context {F : Type} `{!PyFloat F} {PyObj : Type}.
Context `{!Host (F:=F)} `{!VisSimCommon (F:=F) (PyObj:=PyObj)}.
Context (exit_code : Event (F:=F) (PyObj:=PyObj) → gmap string string → Z).

Local Abbreviation World := (World (F:=F) (PyObj:=PyObj)).
Local Abbreviation M := (M (F:=F) (PyObj:=PyObj)).
Local Abbreviation Event := (Event (F:=F) (PyObj:=PyObj)).
Implicit Types (w : World) (P : Event → Prop).

Definition any_call (e : Event) : Prop := True.

(** Calls that only the cropped path makes. *)
Definition plain_call (e : Event) : Prop :=
  match e with
  | EvCropping _ _ _ _ _ | EvInvertTransform _ _ _ _ _ | EvOpenWrite _
  | EvClose _ => False
  | _ => True
  end.

(** [m] records [e] before anything else. *)
Definition starts_with {A} (e : Event) (m : M A) : Prop :=
  ∀ w, ∃ evs, calls (m w).2 = calls w ++ e :: evs.

Lemma starts_record e : starts_with e (modify (record e)).
Proof. intros w. by exists []. Qed.

Lemma starts_bind {A B} e (m : M A) (k : A → M B) :
  starts_with e m → (∀ a, emits any_call (k a)) → starts_with e (bind m k).
Proof.
  intros Hm Hk w. unfold bind. destruct (Hm w) as (evs & E).
  destruct (m w) as [[a|x] w1]; cbn [snd] in *.
  - destruct (Hk a w1) as (evs' & E' & _). exists (evs ++ evs').
    by rewrite E', E, <- app_assoc.
  - by exists evs.
Qed.

Lemma starts_after_quiet {B} e (f : World → World) (k : unit → M B) :
  (∀ w, calls (f w) = calls w) → starts_with e (k tt) →
  starts_with e (bind (modify f) k).
Proof.
  intros Hf Hk w. destruct (Hk (f w)) as (evs & E). exists evs.
  by rewrite <- (Hf w).
Qed.

Lemma initRun_starts f m ff mf co cp :
  starts_with (EvClearOutputs (outputPath setGlobalVariables))
    (initRun f m ff mf co cp).
Proof.
  unfold initRun. cbv zeta. apply starts_bind.
  - unfold removeOtputsFolderContents. apply starts_bind.
    + apply starts_record.
    + intros _. apply emits_quiet. reflexivity.
  - intros _. emits_all ltac:(exact I).
Qed.

Lemma run_emits f m co cp : emits plain_call (run exit_code f m co cp).
Proof. emits_all ltac:(exact I). Qed.

Lemma runAcir_emits f m ff mf co cp :
  emits any_call (runAcir exit_code f m ff mf co cp).
Proof. emits_all ltac:(exact I). Qed.

Lemma run_starts f m co cp :
  starts_with (EvClearOutputs (outputPath setGlobalVariables))
    (run exit_code f m co cp).
Proof.
  unfold run, logging_info.
  apply starts_after_quiet; [intros ?; reflexivity|].
  apply starts_bind; [apply initRun_starts|].
  intros rv. emits_all ltac:(exact I).
Qed.

Lemma runAcir_starts f m ff mf co cp :
  starts_with (EvClearOutputs (outputPath setGlobalVariables))
    (runAcir exit_code f m ff mf co cp).
Proof.
  unfold runAcir, logging_info.
  apply starts_after_quiet; [intros ?; reflexivity|].
  apply starts_bind; [apply initRun_starts|].
  intros rv. emits_all ltac:(exact I).
Qed.

(** C5.  Whatever happens next, the first outward call of [run] and of
    [runAcir] is the clearing of the shared output folder, made inside
    [initRun]; the two copies, the first files of the run, are then made
    on what the clearing left, and it left nothing inside the folder. *)
Theorem output_folder_cleared_first f m ff mf co cp w :
  let clearing := EvClearOutputs (outputPath setGlobalVariables) in
  (∃ evs, calls (run exit_code f m co cp w).2 = calls w ++ clearing :: evs) ∧
  (∃ evs, calls (runAcir exit_code f m ff mf co cp w).2
          = calls w ++ clearing :: evs) ∧
  (∀ ffid mfid rv w1,
     initRun f m ffid mfid co cp w = (Ok rv, w1) →
     ∃ cf cm, files w1 = <[movingRegTmpPath rv := cm]>
                           (<[fixedRegTmpPath rv := cf]> (cleared (files w)))) ∧
  (∀ path, in_folder (outputPath setGlobalVariables) path = true →
           cleared (files w) !! path = None).
Proof.
  cbv zeta. split; [|split; [|split]].
  - apply run_starts.
  - apply runAcir_starts.
  - intros ffid mfid rv w1 H.
    apply initRun_ok in H
      as (nf & nm & pf & pm & cf & cm & _ & _ & _ & _ & _ & _ & _ & _ & -> & ->).
    by exists cf, cm.
  - intros path. apply cleared_spec.
Qed.

(** ** Exit codes *)

(** Two worlds that differ at most in what was printed. *)
Definition same_but_stdout (w1 w2 : World) : Prop :=
  files w1 = files w2 ∧ nodes w1 = nodes w2 ∧ scene w1 = scene w2 ∧
  calls w1 = calls w2 ∧ ticks w1 = ticks w2.

(** Two runs that end the same way, up to what was printed. *)
Definition agree {A} (r1 r2 : Outcome A * World) : Prop :=
  r1.1 = r2.1 ∧ same_but_stdout r1.2 r2.2.

(** Two programs that end the same way in the same world, up to the
    value they give. *)
Definition alike {A} (m1 m2 : M A) : Prop :=
  ∀ w, match m1 w, m2 w with
       | (Ok _, w1), (Ok _, w2) => w1 = w2
       | (Raise e1, w1), (Raise e2, w2) => e1 = e2 ∧ w1 = w2
       | _, _ => False
       end.

Lemma agree_refl {A} (r : Outcome A * World) : agree r r.
Proof. by repeat split. Qed.

Lemma agree_bind {A B} (m : M A) (k1 k2 : A → M B) w :
  (∀ a w1, agree (k1 a w1) (k2 a w1)) → agree (bind m k1 w) (bind m k2 w).
Proof.
  intros Hk. unfold bind. destruct (m w) as [[a|e] w1];
    [apply Hk | apply agree_refl].
Qed.

Lemma agree_bind_alike {A B} (m1 m2 : M A) (k1 k2 : A → M B) w :
  alike m1 m2 → (∀ a a' w1, agree (k1 a w1) (k2 a' w1)) →
  agree (bind m1 k1 w) (bind m2 k2 w).
Proof.
  intros Hm Hk. unfold bind. specialize (Hm w).
  destruct (m1 w) as [[a|e] w1], (m2 w) as [[a'|e'] w2]; try done.
  - subst. apply Hk.
  - destruct Hm as [-> ->]. apply agree_refl.
Qed.

Lemma alike_refl {A} (m : M A) : alike m m.
Proof. intros w. by destruct (m w) as [[a|e] w1]. Qed.

Lemma alike_bind {A B} (m : M A) (k1 k2 : A → M B) :
  (∀ a, alike (k1 a) (k2 a)) → alike (bind m k1) (bind m k2).
Proof.
  intros Hk w. unfold bind. destruct (m w) as [[a|e] w1]; [apply Hk | done].
Qed.

Lemma alike_bind_alike {A B} (m1 m2 : M A) (k1 k2 : A → M B) :
  alike m1 m2 → (∀ a a', alike (k1 a) (k2 a')) →
  alike (bind m1 k1) (bind m2 k2).
Proof.
  intros Hm Hk w. unfold bind. specialize (Hm w).
  destruct (m1 w) as [[a|e] w1], (m2 w) as [[a'|e'] w2]; try done.
  subst. apply Hk.
Qed.

Lemma alike_ret {A} (a a' : A) : alike (ret a) (ret a').
Proof. by intros w. Qed.

Lemma alike_run_binary (ec ec' : Event → gmap string string → Z) e :
  alike (run_binary ec e) (run_binary ec' e).
Proof. by intros w. Qed.

Lemma modifyTransform_alike (ec ec' : Event → gmap string string → Z)
    vt f fixedTmp :
  alike (modifyTransform ec vt f fixedTmp) (modifyTransform ec' vt f fixedTmp).
Proof.
  unfold modifyTransform, runElxInvertTransform. cbv zeta.
  repeat (apply alike_bind; intros ?).
  apply alike_bind_alike; [apply alike_run_binary|]. intros c c'.
  repeat (apply alike_bind; intros ?). apply alike_ret.
Qed.

(** The common tail uses the two exit codes to choose a message, and for
    nothing else. *)
Lemma load_results_agree rv m a b a' b' w :
  agree (load_results rv m a b w) (load_results rv m a' b' w).
Proof.
  unfold load_results. cbv zeta.
  repeat lazymatch goal with
  | |- agree (bind (if _ then print _ else print _) _ _) _ => fail
  | |- agree (bind _ _ _) _ => apply agree_bind; intros ? ?
  end.
  destruct ((a =? 0) && (b =? 0)), ((a' =? 0) && (b' =? 0));
    by repeat split.
Qed.

Lemma run_agree (ec ec' : Event → gmap string string → Z) f m co cp w :
  agree (run ec f m co cp w) (run ec' f m co cp w).
Proof.
  unfold run, runElastix, runTransformix. cbv zeta.
  do 3 (apply agree_bind; intros ? ?).
  apply agree_bind_alike; [apply alike_run_binary|]. intros cTI cTI' ?.
  apply agree_bind_alike; [apply alike_run_binary|]. intros cTR cTR' ?.
  apply load_results_agree.
Qed.

Lemma runAcir_agree (ec ec' : Event → gmap string string → Z)
    f m ff mf co cp w :
  agree (runAcir ec f m ff mf co cp w) (runAcir ec' f m ff mf co cp w).
Proof.
  unfold runAcir, runElastix, runTransformix. cbv zeta.
  repeat lazymatch goal with
  | |- agree (bind (run_binary _ _) _ _) _ => fail
  | |- agree (bind _ _ _) _ => apply agree_bind; intros ? ?
  | |- agree ((if ?c then _ else _) _) _ => destruct c
  | |- agree ?r ?r => apply agree_refl
  end.
  apply agree_bind_alike; [apply alike_run_binary|]. intros cTI cTI' ?.
  apply agree_bind_alike; [apply modifyTransform_alike|]. intros cInv cInv' ?.
  apply agree_bind_alike; [apply alike_run_binary|]. intros cTR cTR' ?.
  apply load_results_agree.
Qed.


End Traces2.

(** ** The widget and the self test *)

Section WidgetAndTest.
Context {F : Type} `{!PyFloat F} {PyObj : Type}.
Context `{!Host (F:=F)} `{!VisSimCommon (F:=F) (PyObj:=PyObj)}.
Context (exit_code : Event (F:=F) (PyObj:=PyObj) → gmap string string → Z).

Local Abbreviation World := (World (F:=F) (PyObj:=PyObj)).
Local Abbreviation M := (M (F:=F) (PyObj:=PyObj)).
Local Abbreviation PyVal := (PyVal (F:=F)).
Implicit Types (w : World).

(** C8.  A click with either fiducial node unset calls [run] on the two
    selected volumes, and nothing of the cropped path is called (no
    cropping, no inversion, no transform file written); a click with both
    set calls [runAcir] with them.  Before and after, the handler does the
    same in both cases. *)
Theorem click_dispatch (self : Widget) w :
  (fixedFiducialNode self = None ∨ movingFiducialNode self = None →
     onApplyBtnClick exit_code self w =
       click_with (run exit_code (fixedSelectorCoBx self)
                     (movingSelectorCoBx self) None None) self w ∧
     emits plain_call (onApplyBtnClick exit_code self)) ∧
  (∀ fixedFid movingFid,
     fixedFiducialNode self = Some fixedFid →
     movingFiducialNode self = Some movingFid →
     onApplyBtnClick exit_code self w =
       click_with (runAcir exit_code (fixedSelectorCoBx self)
                     (movingSelectorCoBx self) fixedFid movingFid None None)
         self w).
Proof.
  split.
  - intros Hnone. split.
    + unfold onApplyBtnClick, click_with.
      destruct (fixedFiducialNode self), (movingFiducialNode self);
        try reflexivity.
      by destruct Hnone.
    + unfold onApplyBtnClick.
      destruct (fixedFiducialNode self), (movingFiducialNode self);
        [by destruct Hnone | ..]; emits_all ltac:(exact I).
  - intros fixedFid movingFid Hf Hm.
    unfold onApplyBtnClick, click_with. by rewrite Hf, Hm.
Qed.

(** The files the test downloads are not the files it registers. *)
Lemma downloads_are_not_used fileName :
  fileName = "P100001_DV_L_a.nrrd" ∨ fileName = "P100001_DV_L_b.nrrd" →
  join cacheDir fileName ≠ test_fixedImgPath ∧
  join cacheDir fileName ≠ test_movingImgPath.
Proof.
  intros Hname. split; intros E;
    pose proof (endswith_join cacheDir fileName) as Hend;
    rewrite E in Hend; destruct Hname as [-> | ->]; vm_compute in Hend;
    discriminate.
Qed.

(** C7.  The self test downloads the two sample volumes and then runs
    the pipeline on two files of the developer's disk: on a machine that
    lacks the first of them the test does not get through, whatever was
    downloaded. *)
Theorem runTest_needs_local_files w :
  files w !! test_fixedImgPath = None →
  ∀ u w', runTest exit_code w ≠ (Ok u, w').
Proof.
  intros Hnone u w' H. unfold runTest in H. tidy H.
  destruct (downloads_are_not_used "P100001_DV_L_a.nrrd") as [Ha _]; [auto|].
  destruct (downloads_are_not_used "P100001_DV_L_b.nrrd") as [Hb _]; [auto|].
  unfold testSlicerCochleaRegistration in H.
  repeat step H.
  all: rewrite !lookup_insert_ne in Hc1 by done; congruence.
Qed.

End WidgetAndTest.

(** ** The theorems on the sample installation *)

Section OnTheSample.
Import Sample.

Local Abbreviation PyVal := (PyVal (F:=Z)).
Local Abbreviation Event := (Event (F:=Z) (PyObj:=unit)).

(** The cropped run of the sample, fixed point given and moving point all
    zero, completes with node 7 and has the inversion before the
    rewriting. *)
Lemma runAcir_inverts_before_rewrite_sample :
  runAcir codes_ok 0 1 2 3 None None world0 = (Ok (VNode 7), acir_run.2) ∧
  ((VNode 7 : PyVal) ≠ VInt (-1)) ∧
  ∃ nm pm pre post fixedTmp cropF cropM,
    let vt := customise None None setGlobalVariables in
    let movingTmp := join (outputPath vt) (nName nm +:+ ".nrrd") in
    let pOld := join (outputPath vt) "TransformParameters.0.txt" in
    let pMod := join (outputPath vt) "TransformParametersMod.txt" in
    let pInv := join (outputPath vt) "TransformParametersModInv.txt" in
    nodes world0 !! 1%nat = Some nm ∧ nStorage nm = Some pm ∧
    EvCopyFile pm movingTmp ∈ pre ∧
    calls acir_run.2 =
      calls world0 ++ pre ++
        [EvElastix (elastixBinPath vt) cropF cropM (outputPath vt)
           (parsPath vt) (noOutput vt) "336";
         EvCopyFile pOld pMod; EvCopyFile pOld pInv;
         EvInvertTransform pMod pInv fixedTmp (noOutput vt) "339";
         EvOpenWrite pInv; EvClose pInv;
         EvTransformix (transformixBinPath vt) movingTmp (outputPath vt)
           pInv (noOutput vt) "339"] ++ post.
Proof.
  assert (Hrun : runAcir codes_ok 0 1 2 3 None None world0
                 = (Ok (VNode 7), acir_run.2)) by (vm_compute; reflexivity).
  assert (Hv : (VNode 7 : PyVal) ≠ VInt (-1)) by discriminate.
  exact (conj Hrun (conj Hv
    (runAcir_inverts_before_rewrite codes_ok _ _ _ _ _ _ _ _ _ Hrun Hv))).
Defined.

(** What the inversion leaves in the file is lost: after the run the
    file holds the rewritten lines of the forward transform. *)
Lemma inverse_overwritten_sample :
  binary_files
    (EvInvertTransform "/VisSimTools/outputs/TransformParametersMod.txt"
       "/VisSimTools/outputs/TransformParametersModInv.txt"
       "/VisSimTools/outputs/fixed.nrrd" tt "339") ∅
    !! "/VisSimTools/outputs/TransformParametersModInv.txt"
    = Some "(Inverse)" ∧
  files acir_run.2 !! "/VisSimTools/outputs/TransformParametersModInv.txt"
    = Some (str_concat (map (rewrite_line (485, 485, 121) (30, 31, 32))
                          (readlines transform0))).
Proof. split; vm_compute; reflexivity. Qed.


(** What the file holds then. *)
Lemma modifyTransform_on_elastix_transform :
  files elastix_run.2 !! "/VisSimTools/outputs/TransformParametersModInv.txt"
  = Some "(Transform BSplineTransform)
(Size 485 485 121 )
(Index 0 0 0)
(Spacing 1 1 1)
(Origin 30 31 32 )
(Direction 1 0 0 0 1 0 0 0 1)
".
Proof. vm_compute. reflexivity. Qed.

(** The sample run has a fixed point and an all-zero moving point, and
    is not stopped. *)
Lemma runAcir_moving_point_unchecked_sample :
  let nff := fiducial "F" (220, 242, 78) in
  let nmf := fiducial "M" (0, 0, 0) in
  let nf := volume "fixed" "/data/fixed.nrrd" in
  let nm := volume "moving" "/data/moving.nrrd" in
  let w' := acir_run.2 in
  runAcir codes_ok 0 1 2 3 None None world0 = (Ok (VNode 7), w') ∧
  nodes world0 !! 2%nat = Some nff ∧ nodes world0 !! 0%nat = Some nf ∧
  nodes world0 !! 3%nat = Some nmf ∧ nodes world0 !! 1%nat = Some nm ∧
  fits_int64 (ptRAS2IJK nff nf) ∧
  np_sum (ptRAS2IJK nff nf) ≠ 0 ∧
  np_sum (ptRAS2IJK nmf nm) = 0 ∧
  (∃ r, (VNode 7 = VNode r :> PyVal)) ∧
  let vt := customise None None setGlobalVariables in
  ∃ ptF ptM cropF cropM,
    EvCropping 0 ptF (croppingLength vt) (RSxyz vt) (hrChk vt) ∈ calls w' ∧
    EvCropping 1 ptM (croppingLength vt) (RSxyz vt) (hrChk vt) ∈ calls w' ∧
    EvElastix (elastixBinPath vt) cropF cropM (outputPath vt) (parsPath vt)
      (noOutput vt) "336" ∈ calls w'.
Proof.
  intros nff nmf nf nm w'.
  assert (Hrun : runAcir codes_ok 0 1 2 3 None None world0
                 = (Ok (VNode 7), w')) by (vm_compute; reflexivity).
  assert (Hff : nodes world0 !! 2%nat = Some nff) by (vm_compute; reflexivity).
  assert (Hf : nodes world0 !! 0%nat = Some nf) by (vm_compute; reflexivity).
  assert (Hfits : fits_int64 (ptRAS2IJK nff nf))
    by (change (ptRAS2IJK nff nf) with [220; 242; 78]; split;
        [repeat (constructor; [lia|]); constructor
        | change (np_sum [220; 242; 78]) with 540; lia]).
  assert (Hsum : np_sum (ptRAS2IJK nff nf) ≠ 0) by (vm_compute; discriminate).
  repeat (split; [first [exact Hrun | exact Hfits | exact Hsum
                        | vm_compute; reflexivity]|]).
  exact (runAcir_moving_point_unchecked codes_ok _ _ _ _ _ _ _ _ _ _ _
           Hrun Hff Hf Hfits Hsum).
Defined.

(** The plain run of the sample. *)
Lemma results_named_sample :
  let w' := plain_run.2 in
  run codes_ok 0 1 None None world0 = (Ok (VNode 5), w') ∧
  ((VNode 5 : PyVal) ≠ VInt (-1)) ∧
  ∃ nm t r (nt nr : Node (F:=Z)) pre post,
    let vt := customise None None setGlobalVariables in
    let out := outputPath vt in
    let dFld := join out (nName nm +:+ "_dFld" +:+ imgType vt) in
    let reg := join out (nName nm +:+ "_Registered.nrrd") in
    nodes world0 !! 1%nat = Some nm ∧
    calls w' =
      calls world0 ++ pre ++
        [EvRename (join out ("deformationField" +:+ imgType vt)) dFld;
         EvRename (join out "result.nrrd") reg;
         EvLoadTransform dFld; EvLoadVolume reg] ++ post ∧
    (t ∉ dom (nodes world0)) ∧ (r ∉ dom (nodes world0)) ∧
    nodes w' !! t = Some nt ∧ nodes w' !! r = Some nr ∧
    nName nt = nName nm +:+ "_Transform" ∧
    nName nr = nName nm +:+ "_Registered" ∧
    nClass nt = TransformNode ∧ nClass nr = ScalarVolumeNode ∧
    nStorage nt = Some dFld ∧ nStorage nr = Some reg ∧
    (keeps_node (nodes w') t = true → t ∈ scene w') ∧
    (keeps_node (nodes w') r = true → r ∈ scene w') ∧
    (VNode 5 = VNode r :> PyVal).
Proof.
  intros w'.
  assert (Hrun : run codes_ok 0 1 None None world0 = (Ok (VNode 5), w'))
    by (vm_compute; reflexivity).
  assert (Hv : (VNode 5 : PyVal) ≠ VInt (-1)) by discriminate.
  exact (conj Hrun (conj Hv
    (results_named codes_ok 0 1 2 3 None None world0 _ _
       (or_introl Hrun) Hv))).
Defined.

(** The names of the two nodes of the plain run of the sample. *)
Lemma results_named_on_sample :
  (nName <$> nodes plain_run.2 !! 4%nat) = Some "moving_Transform" ∧
  (nName <$> nodes plain_run.2 !! 5%nat) = Some "moving_Registered" ∧
  plain_run.1 = Ok (VNode 5).
Proof. repeat split; vm_compute; reflexivity. Qed.


(** The cropped run of the sample with no point at all. *)
Lemma runAcir_error_value_sample :
  let w' := acir_no_points.2 in
  runAcir codes_ok 0 1 3 3 None None world0 = (Ok (VInt (-1)), w') ∧
  ((VInt (-1) : PyVal) ≠ VBool false) ∧
  (calls w' = [EvClearOutputs "/VisSimTools/outputs";
               EvCopyFile "/data/fixed.nrrd" "/VisSimTools/outputs/fixed.nrrd";
               EvCopyFile "/data/moving.nrrd" "/VisSimTools/outputs/moving.nrrd"]
     :> list Event) ∧
  nodes w' = nodes world0 ∧ scene w' = scene world0.
Proof.
  intros w'.
  assert (Hrun : runAcir codes_ok 0 1 3 3 None None world0
                 = (Ok (VInt (-1)), w')) by (vm_compute; reflexivity).
  destruct (runAcir_error_value codes_ok _ _ _ _ _ _ _ _ _ Hrun)
    as [Hv Hmissing].
  destruct (Hmissing (fiducial "M" (0, 0, 0)) (volume "fixed" "/data/fixed.nrrd"))
    as (_ & nm & pf & pm & cf & cm & Hnm & Hpf & Hpm & _ & _ & _ & Hc & Hn & Hs);
    try (vm_compute; reflexivity).
  cbv zeta in Hc.
  assert (Hmoving : nodes world0 !! 1%nat
                    = Some (volume "moving" "/data/moving.nrrd"))
    by (vm_compute; reflexivity).
  rewrite Hmoving in Hnm. injection Hnm as <-.
  injection Hpf as <-. injection Hpm as <-.
  split; [exact Hrun|]. split; [exact Hv|]. split; [exact Hc|].
  split; [exact Hn | exact Hs].
Defined.

(** With no point in either image the value is [-1], the value of the
    case where only the fixed point is missing, and not [False]. *)
Lemma both_points_missing_returns_minus_one :
  let nmf := fiducial "M" (0, 0, 0) in
  nodes world0 !! 3%nat = Some nmf ∧
  np_sum (ptRAS2IJK nmf (volume "fixed" "/data/fixed.nrrd")) = 0 ∧
  np_sum (ptRAS2IJK nmf (volume "moving" "/data/moving.nrrd")) = 0 ∧
  (runAcir codes_ok 0 1 3 3 None None world0).1 = Ok (VInt (-1)) ∧
  (runAcir codes_ok 0 1 3 3 None None world0).1 ≠ Ok (VBool false).
Proof. repeat split; try (vm_compute; reflexivity). vm_compute. discriminate. Qed.

(** The plain run of the sample replaces the moving node 1 and leaves
    the fixed node 0 as it was. *)
Lemma moving_node_replaced_sample :
  let w' := plain_run.2 in
  run codes_ok 0 1 None None world0 = (Ok (VNode 5), w') ∧
  ((VNode 5 : PyVal) ≠ VInt (-1)) ∧
  ∃ nm pm u cm,
    nodes world0 !! 1%nat = Some nm ∧ nStorage nm = Some pm ∧
    (1%nat ∉ scene w') ∧
    (u ∉ dom (nodes world0)) ∧
    nodes w' !! u = Some (with_name (imgName pm)
                            (loaded_node ScalarVolumeNode pm cm)) ∧
    (keeps_node (nodes w') u = true → u ∈ scene w') ∧
    (0%nat ≠ 1%nat → 2%nat ≠ 0%nat → 3%nat ≠ 0%nat →
     nodes w' !! 0%nat = nodes world0 !! 0%nat ∧
     (0%nat ∈ scene world0 → keeps_node (nodes w') 0 = true →
      0%nat ∈ scene w')).
Proof.
  intros w'.
  assert (Hrun : run codes_ok 0 1 None None world0 = (Ok (VNode 5), w'))
    by (vm_compute; reflexivity).
  assert (Hv : (VNode 5 : PyVal) ≠ VInt (-1)) by discriminate.
  exact (conj Hrun (conj Hv
    (moving_node_replaced codes_ok 0 1 2 3 None None world0 _ _
       (or_introl Hrun) Hv))).
Defined.

(** A volume registered to itself: node 1 is both the fixed and the
    moving volume, the run completes, and the fixed volume node is out
    of the scene although the cleanup of temporary nodes would keep it. *)
Lemma fixed_node_removed_when_also_moving :
  let w' := self_run.2 in
  run codes_ok 1 1 None None world0 = (Ok (VNode 5), w') ∧
  1%nat ∈ scene world0 ∧
  keeps_node (nodes w') 1 = true ∧
  1%nat ∉ scene w'.
Proof.
  intros w'. split; [vm_compute; reflexivity|].
  split; [apply (bool_decide_unpack _); vm_compute; exact I|].
  split; [vm_compute; reflexivity|].
  apply (bool_decide_unpack _). vm_compute. exact I.
Qed.

(** The click on the half-set widget goes the plain way. *)
Lemma click_dispatch_sample :
  movingFiducialNode half_set = None ∧
  onApplyBtnClick codes_ok half_set world0 =
    click_with (run codes_ok 0 1 None None) half_set world0 ∧
  emits plain_call (onApplyBtnClick codes_ok half_set).
Proof.
  split; [reflexivity|].
  destruct (click_dispatch codes_ok half_set world0) as [Hplain _].
  apply Hplain. right. reflexivity.
Defined.

(** The self test on a machine with nothing but the downloads. *)
Lemma runTest_needs_local_files_sample :
  files fresh_machine !! test_fixedImgPath = None ∧
  ∀ u w', runTest codes_ok fresh_machine ≠ (Ok u, w').
Proof.
  assert (Hnone : files fresh_machine !! test_fixedImgPath = None)
    by (vm_compute; reflexivity).
  exact (conj Hnone (runTest_needs_local_files codes_ok _ Hnone)).
Defined.

(** There the two volumes are downloaded into the cache, the file asked
    for next is the developer's, and the test ends with the exception of
    a method called on [None]. *)
Lemma runTest_on_fresh_machine :
  let r := runTest codes_ok fresh_machine in
  r.1 = Raise AttributeError ∧
  files r.2 !! join cacheDir "P100001_DV_L_a.nrrd" = Some "NRRD0004" ∧
  files r.2 !! join cacheDir "P100001_DV_L_b.nrrd" = Some "NRRD0004" ∧
  last (calls r.2) = Some (EvLoadVolume test_fixedImgPath) ∧
  Forall (λ e, e ≠ EvLoadVolume (join cacheDir "P100001_DV_L_a.nrrd") ∧
               e ≠ EvLoadVolume (join cacheDir "P100001_DV_L_b.nrrd"))
    (calls r.2).
Proof.
  repeat split; try (vm_compute; reflexivity).
  vm_compute. repeat constructor; discriminate.
Qed.

(** On the developer's machine the test gets through, on the developer's
    two files. *)
Lemma runTest_on_developer_machine :
  let r := runTest codes_ok developer_machine in
  r.1 = Ok tt ∧
  calls r.2 !! 6%nat = Some (EvLoadVolume test_fixedImgPath) ∧
  calls r.2 !! 7%nat = Some (EvLoadVolume test_movingImgPath).
Proof. repeat split; vm_compute; reflexivity. Qed.

End OnTheSample.

(** ** Node names and file names *)

Lemma rfind_go_app c s t i last :
  rfind_go c (s +:+ t) i last
  = rfind_go c t (i + String.length s) (rfind_go c s i last).
Proof.
  revert i last. induction s as [|a s IH]; intros i last.
  - cbn. by rewrite Nat.add_0_r.
  - rewrite str_app_cons. cbn [rfind_go String.length].
    rewrite IH. f_equal. lia.
Qed.

Lemma rfind_go_absent c s i last :
  has_char c s = false → rfind_go c s i last = last.
Proof.
  revert i last. induction s as [|a s IH]; intros i last; [reflexivity|].
  cbn. destruct (decide (a = c)); [discriminate|]. apply IH.
Qed.

Lemma rfind_go_present c s i last :
  has_char c s = true → ∃ j, rfind_go c s i last = Some j ∧ (i ≤ j)%nat.
Proof.
  revert i last. induction s as [|a s IH]; intros i last Hs; [discriminate|].
  cbn in *. destruct (decide (a = c)) as [->|].
  - destruct (has_char c s) eqn:E.
    + destruct (IH (S i) (Some i) eq_refl) as (j & -> & Hj).
      exists j. split; [reflexivity | lia].
    + rewrite rfind_go_absent by done. by exists i.
  - destruct (IH (S i) last Hs) as (j & -> & Hj).
    exists j. split; [reflexivity | lia].
Qed.

Lemma str_take_app s t : str_take (String.length s) (s +:+ t) = s.
Proof.
  induction s as [|a s IH]; [by destruct t|].
  rewrite str_app_cons. cbn. by rewrite IH.
Qed.

Lemma str_drop_app s t : str_drop (String.length s) (s +:+ t) = t.
Proof. induction s as [|a s IH]; [reflexivity|]. exact IH. Qed.

Lemma str_take_all s : str_take (String.length s) s = s.
Proof.
  rewrite <- (str_app_nil_r s) at 2. apply str_take_app.
Qed.

(** [basename] undoes putting a folder and a slash in front of a name
    that has no slash. *)
Lemma str_drop_app_cons s a t :
  str_drop (S (String.length s)) (s +:+ String a t) = t.
Proof. induction s as [|b s IH]; [reflexivity|]. exact IH. Qed.

Lemma basename_slash d name :
  has_char "/"%char name = false → basename (d +:+ "/" +:+ name) = name.
Proof.
  intros Hname. unfold basename, rfind.
  change ("/" +:+ name) with (String "/" name).
  rewrite rfind_go_app. cbn [rfind_go].
  destruct (decide ("/"%char = "/"%char)); [|done].
  rewrite rfind_go_absent by done. cbn [Nat.add].
  apply str_drop_app_cons.
Qed.

Lemma rev_involutive s : String.rev (String.rev s) = s.
Proof.
  induction s as [|a s IH]; [reflexivity|].
  change (String a s) with (String a "" +:+ s) at 1.
  by rewrite rev_cat, rev_cat, IH.
Qed.

Lemma endswith_slash d :
  endswith d "/" = true → ∃ d', d = d' +:+ "/".
Proof.
  unfold endswith. intros H. rewrite <- (rev_involutive d).
  destruct (String.rev d) as [|a r]; [discriminate|].
  change (String.rev "/") with "/" in H. cbn [String.prefix] in H.
  destruct (ascii_dec "/" a) as [<-|]; [|discriminate].
  exists (String.rev r).
  change (String "/" r) with (String "/" "" +:+ r). by rewrite rev_cat.
Qed.

Lemma basename_join d name :
  has_char "/"%char name = false → basename (join d name) = name.
Proof.
  intros Hname.
  assert (basename name = name) as Hbase.
  { unfold basename, rfind. by rewrite rfind_go_absent. }
  unfold join. destruct (startswith name "/"); [exact Hbase|].
  destruct (decide (d = "")); [exact Hbase|].
  destruct (endswith d "/") eqn:E; [|by apply basename_slash].
  apply endswith_slash in E as [d' ->].
  rewrite str_app_assoc. by apply basename_slash.
Qed.

Lemma has_non_dot_alt s : has_non_dot s = true → s ≠ "".
Proof. by destruct s. Qed.

(** [splitext] cuts the extension of [<name>.<ext>] off. *)
Lemma splitext_name_ext name ext :
  has_char "/"%char name = false → has_non_dot name = true →
  has_char "."%char ext = false → has_char "/"%char ext = false →
  splitext (name +:+ "." +:+ ext) = (name, "." +:+ ext).
Proof.
  intros Hslash Hdot Hext Hexts. unfold splitext, rfind.
  rewrite !rfind_go_app, !str_app_cons, !str_app_nil_l. cbn [rfind_go].
  destruct (decide ("."%char = "."%char)); [|done].
  destruct (decide ("."%char = "/"%char)); [discriminate|].
  rewrite (rfind_go_absent "." ext) by done.
  rewrite (rfind_go_absent "/" ext) by done.
  rewrite (rfind_go_absent "/" name) by done.
  cbn [Nat.add]. rewrite decide_True by lia.
  rewrite Nat.sub_0_r. cbn [str_drop].
  change (String "." ext) with ("." +:+ ext).
  by rewrite str_take_app, str_drop_app, Hdot.
Qed.

Lemma imgName_join d name ext :
  has_char "/"%char name = false → has_non_dot name = true →
  has_char "."%char ext = false → has_char "/"%char ext = false →
  imgName (join d (name +:+ "." +:+ ext)) = name.
Proof.
  intros Hslash Hdot Hext Hexts. unfold imgName.
  rewrite basename_join.
  - by rewrite splitext_name_ext.
  - rewrite !has_char_app, Hslash, Hexts. cbn.
    by destruct (decide ("."%char = "/"%char)).
Qed.

(** * More of the logic class

    What else the registration methods do and never do: which volumes
    they accept, the calls they make, what they leave in the scene, and
    how they end when a file is missing. *)

Section MoreRuns.
Context {F : Type} `{!PyFloat F} {PyObj : Type}.
Context `{!Host (F:=F)} `{!VisSimCommon (F:=F) (PyObj:=PyObj)}.
Context (exit_code : Event (F:=F) (PyObj:=PyObj) → gmap string string → Z).

Local Abbreviation World := (World (F:=F) (PyObj:=PyObj)).
Local Abbreviation M := (M (F:=F) (PyObj:=PyObj)).
Local Abbreviation Node := (Node (F:=F)).
Local Abbreviation PyVal := (PyVal (F:=F)).
Local Abbreviation RunVars := (RunVars (PyObj:=PyObj)).
Local Abbreviation VtVars := (VtVars (PyObj:=PyObj)).
Implicit Types (w : World) (n : Node) (vt : VtVars) (rv : RunVars).

(** A volume that [initRun] cannot copy: it has no storage node, so that
    it is saved to the very path it is then copied to, or it is stored
    at that path already. *)
Definition stored_in_place vt n : Prop :=
  nStorage n = None ∨
  nStorage n = Some (join (outputPath vt) (nName n +:+ ".nrrd")).

Lemma outputPath_customise co cp cp' vt :
  outputPath (customise co cp vt) = outputPath (customise co cp' vt).
Proof. by destruct co, cp, cp'. Qed.

Lemma initRun_not_in_place f m ff mf co cp w rv w1 :
  initRun f m ff mf co cp w = (Ok rv, w1) →
  let vt := customise co cp setGlobalVariables in
  (∀ nf, nodes w !! f = Some nf → ¬ stored_in_place vt nf) ∧
  (∀ nm, nodes w !! m = Some nm → ¬ stored_in_place vt nm).
Proof.
  intros H vt.
  apply initRun_ok in H
    as (nf' & nm' & pf & pm & cf & cm & Hf' & Hm' & Hsf & Hsm & _ & _
        & Hnf & Hnm & _ & _).
  cbn [fixedRegTmpPath movingRegTmpPath initRun_vars] in Hnf, Hnm.
  subst vt. split; intros n Hn [Hs | Hs]; congruence.
Qed.

Lemma run_initRun f m co cp w v w' :
  run exit_code f m co cp w = (Ok v, w') →
  ∃ rv w0 w1, initRun f m None None co cp w0 = (Ok rv, w1) ∧
              nodes w0 = nodes w.
Proof.
  unfold run, logging_info. intros H. apply bind_modify in H.
  apply bind_ok in H as (rv & w1 & H & _). by eexists _, _, _.
Qed.

Lemma runAcir_initRun f m ff mf co cp w v w' :
  runAcir exit_code f m ff mf co cp w = (Ok v, w') →
  ∃ rv w0 w1, initRun f m (Some ff) (Some mf) co cp w0 = (Ok rv, w1) ∧
              nodes w0 = nodes w.
Proof.
  unfold runAcir, logging_info. intros H. apply bind_modify in H.
  apply bind_ok in H as (rv & w1 & H & _). by eexists _, _, _.
Qed.

(** A volume node that was never saved stops every run, and so does a
    volume stored as [<outputPath>/<its name>.nrrd]: [initRun] would copy
    the file onto itself. *)
Theorem volume_stored_in_place_stops_run f m ff mf co cp w nf nm :
  nodes w !! f = Some nf → nodes w !! m = Some nm →
  let vt := customise co cp setGlobalVariables in
  stored_in_place vt nf ∨ stored_in_place vt nm →
  (∀ v w', run exit_code f m co cp w ≠ (Ok v, w')) ∧
  (∀ v w', runAcir exit_code f m ff mf co cp w ≠ (Ok v, w')).
Proof.
  intros Hf Hm vt Hin. split; intros v w' H.
  - apply run_initRun in H as (rv & w0 & w1 & H & Hn).
    rewrite <- Hn in Hf, Hm.
    destruct (initRun_not_in_place _ _ _ _ _ _ _ _ _ H) as [H1 H2].
    destruct Hin; [by eapply H1 | by eapply H2].
  - apply runAcir_initRun in H as (rv & w0 & w1 & H & Hn).
    rewrite <- Hn in Hf, Hm.
    destruct (initRun_not_in_place _ _ _ _ _ _ _ _ _ H) as [H1 H2].
    destruct Hin; [by eapply H1 | by eapply H2].
Qed.

(** The tail of a completed run. *)
Lemma completed_tail f m ff mf co cp w v w' :
  run exit_code f m co cp w = (Ok v, w') ∨
    runAcir exit_code f m ff mf co cp w = (Ok v, w') →
  v ≠ VInt (-1) →
  ∃ rv cTI cTR w2,
    outputPath (vtVars rv) = outputPath (customise co cp setGlobalVariables) ∧
    load_results rv m cTI cTR w2 = (Ok v, w').
Proof.
  intros [H | H] Hv.
  - apply run_ok in H
      as (nf & nm & pf & pm & cf & cm & w2 & cTI & cTR & _ & _ & _ & _ & _ & _
          & _ & _ & H).
    eexists _, _, _, _. split; [|exact H]. reflexivity.
  - apply runAcir_ok in H
      as (nf & nm & nff & pf & pm & cf & cm & _ & _ & _ & _ & _ & _ & _
          & [(_ & -> & _) | (_ & H)]); [done|].
    destruct H
      as (nmf & nm1 & nf2 & nm2 & c1 & c2 & x1 & x2 & we & cInv & wt & cTI
          & cTR & _ & _ & _ & _ & _ & _ & _ & _ & _ & _ & _ & H).
    eexists _, _, _, _. split; [|exact H]. reflexivity.
Qed.

(** The volume a run returns cannot be registered again with the same
    output folder, neither as the fixed nor as the moving volume: it is
    stored as [<outputPath>/<its name>.nrrd]. *)
Theorem registered_volume_is_no_input f m ff mf co cp w v w' :
  run exit_code f m co cp w = (Ok v, w') ∨
    runAcir exit_code f m ff mf co cp w = (Ok v, w') →
  v ≠ VInt (-1) →
  ∃ r, v = VNode r ∧
    ∀ other fid1 fid2 cp2 v2 w2,
      run exit_code r other co cp2 w' ≠ (Ok v2, w2) ∧
      run exit_code other r co cp2 w' ≠ (Ok v2, w2) ∧
      runAcir exit_code r other fid1 fid2 co cp2 w' ≠ (Ok v2, w2) ∧
      runAcir exit_code other r fid1 fid2 co cp2 w' ≠ (Ok v2, w2).
Proof.
  intros H Hv.
  apply completed_tail in H as (rv & cTI & cTR & w1 & Hout & H); [|done].
  apply load_results_named in H
    as (nm2 & t & r & ct & cr & _ & _ & _ & _ & Hnr & -> & _).
  exists r. split; [reflexivity|].
  assert (∀ cp2, stored_in_place (customise co cp2 setGlobalVariables)
            (with_name (nName nm2 +:+ "_Registered")
               (loaded_node ScalarVolumeNode
                  (join (outputPath (vtVars rv))
                     (nName nm2 +:+ "_Registered.nrrd")) cr))) as Hplace.
  { intros cp2. right. cbn [nStorage nName with_name loaded_node].
    by rewrite Hout, (outputPath_customise co cp cp2), str_app_assoc. }
  intros other fid1 fid2 cp2 v2 w2.
  repeat split; intros H.
  - apply run_initRun in H as (rv2 & w0 & w3 & H & Hn). rewrite <- Hn in Hnr.
    destruct (initRun_not_in_place _ _ _ _ _ _ _ _ _ H) as [H1 _].
    eapply H1; [exact Hnr | apply Hplace].
  - apply run_initRun in H as (rv2 & w0 & w3 & H & Hn). rewrite <- Hn in Hnr.
    destruct (initRun_not_in_place _ _ _ _ _ _ _ _ _ H) as [_ H2].
    eapply H2; [exact Hnr | apply Hplace].
  - apply runAcir_initRun in H as (rv2 & w0 & w3 & H & Hn).
    rewrite <- Hn in Hnr.
    destruct (initRun_not_in_place _ _ _ _ _ _ _ _ _ H) as [H1 _].
    eapply H1; [exact Hnr | apply Hplace].
  - apply runAcir_initRun in H as (rv2 & w0 & w3 & H & Hn).
    rewrite <- Hn in Hnr.
    destruct (initRun_not_in_place _ _ _ _ _ _ _ _ _ H) as [_ H2].
    eapply H2; [exact Hnr | apply Hplace].
Qed.

(** The calls of a completed plain run, all of them, in their order:
    elastix registers the two copies of the whole images, transformix
    applies the transform elastix wrote to the copy of the moving image.
    With customised paths the copies and the binaries use them; the
    folder cleared is the default one all the same. *)
Theorem run_call_sequence f m co cp w v w' :
  run exit_code f m co cp w = (Ok v, w') →
  ∃ nf nm pf pm,
    let vt := customise co cp setGlobalVariables in
    let out := outputPath vt in
    let fixedTmp := join out (nName nf +:+ ".nrrd") in
    let movingTmp := join out (nName nm +:+ ".nrrd") in
    let dFld := join out (nName nm +:+ "_dFld" +:+ imgType vt) in
    let reg := join out (nName nm +:+ "_Registered.nrrd") in
    nodes w !! f = Some nf ∧ nodes w !! m = Some nm ∧
    nStorage nf = Some pf ∧ nStorage nm = Some pm ∧
    calls w' =
      calls w ++
        [EvClearOutputs (outputPath setGlobalVariables);
         EvCopyFile pf fixedTmp; EvCopyFile pm movingTmp;
         EvElastix (elastixBinPath vt) fixedTmp movingTmp out (parsPath vt)
           (noOutput vt) "336";
         EvTransformix (transformixBinPath vt) movingTmp out
           (join out "TransformParameters.0.txt") (noOutput vt) "339";
         EvRename (join out ("deformationField" +:+ imgType vt)) dFld;
         EvRename (join out "result.nrrd") reg;
         EvLoadTransform dFld; EvLoadVolume reg;
         EvRemoveNode m; EvLoadVolume pm; EvRemoveTmps].
Proof.
  intros H. apply run_calls in H as (nf & nm & pf & pm & H).
  exists nf, nm, pf, pm. exact H.
Qed.

(** A completed plain run changes no node that was there and adds three:
    the transform, the registered volume it returns, and the moving
    volume loaded again.  The scene is the old one without the moving
    volume, with the new nodes at its end, less what the cleanup of
    temporary nodes takes. *)
Theorem run_adds_three_nodes f m co cp w v w' :
  run exit_code f m co cp w = (Ok v, w') →
  ∃ t r u nt nr nu,
    (t ∉ dom (nodes w)) ∧ (r ∉ dom (nodes w)) ∧ (u ∉ dom (nodes w)) ∧
    r ≠ t ∧ u ≠ t ∧ u ≠ r ∧
    v = VNode r ∧
    nodes w' = <[u := nu]> (<[r := nr]> (<[t := nt]> (nodes w))) ∧
    nClass nt = TransformNode ∧ nClass nr = ScalarVolumeNode ∧
    nClass nu = ScalarVolumeNode ∧
    (∀ j, j ∈ dom (nodes w) → nodes w' !! j = nodes w !! j) ∧
    scene w' =
      filter (λ id, keeps_node (nodes w') id = true)
        (filter (λ i, i ≠ m) (scene w ++ [t; r]) ++ [u]).
Proof.
  intros H.
  apply run_ok in H
    as (nf & nm & pf & pm & cf & cm & w2 & cTI & cTR & _ & _ & _ & _ & _ & _
        & -> & _ & H).
  apply load_results_ok in H
    as (nm' & t & r & u & cdef & cres & ct & cm' & _ & Ht & Hr & Hu & Hrt
        & Hut & Hur & _ & _ & _ & -> & _ & Hnodes & Hscene & _).
  cbn [nodes scene upd_files record emit initRun_world] in Ht, Hr, Hu, Hnodes,
    Hscene.
  eexists t, r, u, _, _, _.
  split; [exact Ht|]. split; [exact Hr|]. split; [exact Hu|].
  split; [exact Hrt|]. split; [exact Hut|]. split; [exact Hur|].
  split; [reflexivity|]. split; [exact Hnodes|].
  split; [reflexivity|]. split; [reflexivity|]. split; [reflexivity|].
  split; [|exact Hscene].
  intros j Hj. rewrite Hnodes.
  rewrite !lookup_insert_ne; [reflexivity | ..]; intros ->; contradiction.
Qed.

(** If transformix left no deformation field, the tail of a run ends at
    the first [os.rename] with an [OSError]: but for the record of the
    call, the world is as it was. *)
Theorem load_results_without_deformation_field rv m cTI cTR w :
  files w !! resOldDefPath rv = None →
  load_results rv m cTI cTR w =
    (Raise (OSError (resOldDefPath rv)),
     record (EvRename (resOldDefPath rv) (resDefPath rv)) w).
Proof.
  intros Hnone. unfold load_results, rename, bind, modify, gets.
  cbn [files record]. by rewrite Hnone.
Qed.

(** If transformix left a deformation field and no [result.nrrd], the
    tail ends at the second [os.rename] with an [OSError], and the
    deformation field stays renamed: nothing is undone. *)
Theorem load_results_without_result_image rv m cTI cTR w cdef nm :
  files w !! resOldDefPath rv = Some cdef →
  nodes w !! m = Some nm →
  let resImagePath := join (outputPath (vtVars rv)) "result.nrrd" in
  let renamed := <[resDefPath rv := cdef]> (delete (resOldDefPath rv) (files w)) in
  renamed !! resImagePath = None →
  ∃ w1,
    load_results rv m cTI cTR w = (Raise (OSError resImagePath), w1) ∧
    files w1 = renamed ∧ nodes w1 = nodes w ∧ scene w1 = scene w ∧
    calls w1 =
      calls w ++
        [EvRename (resOldDefPath rv) (resDefPath rv);
         EvRename resImagePath
           (join (outputPath (vtVars rv)) (nName nm +:+ "_Registered.nrrd"))].
Proof.
  intros Hdef Hm resImagePath renamed Hnone. eexists.
  unfold load_results, rename, GetName, the_node, bind, modify, gets, ret.
  cbn [files nodes record upd_files]. rewrite Hdef.
  cbn [files nodes record upd_files]. rewrite Hm.
  cbn [files nodes record upd_files].
  fold resImagePath renamed. rewrite Hnone.
  split; [reflexivity|]. cbn [files nodes scene calls record upd_files].
  by rewrite <- app_assoc.
Qed.


(** In a completed cropped run the two fiducial nodes are saved in the
    output folder, each volume is cropped around the point of its own
    fiducial node, and elastix registers the crop of the moving volume
    to the crop of the fixed volume, the files the two croppings
    returned.  The four nodes are taken to be different nodes. *)
Theorem runAcir_crops_around_own_points f m ff mf co cp w v w' nf nm nff nmf :
  runAcir exit_code f m ff mf co cp w = (Ok v, w') → v ≠ VInt (-1) →
  nodes w !! f = Some nf → nodes w !! m = Some nm →
  nodes w !! ff = Some nff → nodes w !! mf = Some nmf →
  ff ≠ mf → f ≠ ff → f ≠ mf → m ≠ ff → m ≠ mf →
  let vt := customise co cp setGlobalVariables in
  let out := outputPath vt in
  let ptF := v2t (ptRAS2IJK nff nf) in
  let ptM := v2t (ptRAS2IJK nmf nm) in
  let cropF := cropped_path vt nf ptF (croppingLength vt) (RSxyz vt) (hrChk vt) in
  let cropM := cropped_path vt nm ptM (croppingLength vt) (RSxyz vt) (hrChk vt) in
  ∃ pf pm post,
    nStorage nf = Some pf ∧ nStorage nm = Some pm ∧
    calls w' =
      calls w ++
        [EvClearOutputs (outputPath setGlobalVariables);
         EvCopyFile pf (join out (nName nf +:+ ".nrrd"));
         EvCopyFile pm (join out (nName nm +:+ ".nrrd"));
         EvSaveNode ff (join out (nName nf +:+ "_F_Cochlea_Pos.fcsv"));
         EvSaveNode mf (join out (nName nm +:+ "_M_Cochlea_Pos.fcsv"));
         EvCropping f ptF (croppingLength vt) (RSxyz vt) (hrChk vt);
         EvLoadVolume cropF;
         EvCropping m ptM (croppingLength vt) (RSxyz vt) (hrChk vt);
         EvLoadVolume cropM;
         EvElastix (elastixBinPath vt) cropF cropM out (parsPath vt)
           (noOutput vt) "336"] ++ post.
Proof.
  intros H Hv Hf Hm Hff Hmf Hd Hf1 Hf2 Hm1 Hm2. cbv zeta.
  apply runAcir_ok in H
    as (nf' & nm' & nff' & pf & pm & cf & cm & Hnf & Hnm & Hnff & Hpf & Hpm
        & _ & _ & [(_ & -> & _) | (_ & H)]); [done|].
  assert (nf' = nf) as -> by congruence.
  assert (nm' = nm) as -> by congruence.
  assert (nff' = nff) as -> by congruence.
  destruct H
    as (nmf' & nm1 & nf2 & nm2 & c1 & c2 & x1 & x2 & we & cInv & wt & cTI & cTR
        & Hmf' & Hnm1 & Hnf2 & Hnm2 & _ & _ & _ & _ & _ & Hcalls & Hmt & H).
  rewrite lookup_insert_ne in Hmf' by done.
  rewrite lookup_insert_ne in Hnm1 by done.
  rewrite !lookup_insert_ne in Hnf2 by done.
  rewrite !lookup_insert_ne in Hnm2 by done.
  assert (nmf' = nmf) as -> by congruence.
  assert (nm1 = nm) as -> by congruence.
  assert (nf2 = nf) as -> by congruence.
  assert (nm2 = nm) as -> by congruence.
  apply modifyTransform_ok in Hmt
    as (regOut & nf' & fixedSize & fOrg & d0 & d4 & d8 & _ & _ & _ & _ & _ & _
        & _ & _ & _ & _ & _ & _ & Hcalls_t).
  apply load_results_ok in H
    as (nm' & t & r & u & cdef & cres & ct & cm' & _ & _ & _ & _ & _ & _
        & _ & _ & _ & _ & _ & _ & _ & _ & Hcalls' & _).
  cbn [calls upd_files record] in Hcalls'.
  exists pf, pm. eexists. split; [exact Hpf|]. split; [exact Hpm|].
  rewrite Hcalls', Hcalls_t, Hcalls.
  cbn [fixedRegTmpPath movingRegTmpPath initRun_vars].
  rewrite <- !app_assoc. reflexivity.
Qed.

Lemma rewrite_lines_without_keys (sz : Z * Z * Z) (org : F * F * F) ls :
  Forall (λ l, str_in "(Size " l = false ∧ str_in "(Origin " l = false) ls →
  map (rewrite_line sz org) ls = ls.
Proof.
  induction 1 as [|l ls [Hs Ho] _ IH]; [reflexivity|].
  cbn [map]. by rewrite IH, rewrite_line_cases, Hs, Ho.
Qed.

(** A transform in which no line has the [Size] or the [Origin] key goes
    to transformix as elastix wrote it, to the byte. *)
Theorem modifyTransform_without_keys vt f fixedTmp w cInv w' regOut :
  modifyTransform exit_code vt f fixedTmp w = (Ok cInv, w') →
  files w !! join (outputPath vt) "TransformParameters.0.txt" = Some regOut →
  Forall (λ l, str_in "(Size " l = false ∧ str_in "(Origin " l = false)
    (readlines regOut) →
  files w' !! join (outputPath vt) "TransformParametersModInv.txt"
    = Some regOut.
Proof.
  intros H Hreg Hkeys.
  apply modifyTransform_ok in H
    as (regOut' & nf & fixedSize & fOrg & d0 & d4 & d8 & Hreg' & _ & _ & _ & _
        & _ & _ & Hfiles & _).
  assert (regOut' = regOut) as -> by congruence.
  by rewrite Hfiles, lookup_insert_eq, rewrite_lines_without_keys,
    readlines_concat.
Qed.

(** Two volumes of the same name share one copy in the output folder:
    [initRun] copies the fixed image, then the moving image over it, and
    a plain run has elastix register that one file to itself. *)
Theorem same_named_volumes_share_the_copy f m co cp w nf nm :
  nodes w !! f = Some nf → nodes w !! m = Some nm →
  nName nf = nName nm →
  (∀ ffid mfid rv w1,
     initRun f m ffid mfid co cp w = (Ok rv, w1) →
     fixedRegTmpPath rv = movingRegTmpPath rv ∧
     ∃ pm cm, nStorage nm = Some pm ∧ cleared (files w) !! pm = Some cm ∧
              files w1 !! fixedRegTmpPath rv = Some cm) ∧
  (∀ v w',
     run exit_code f m co cp w = (Ok v, w') →
     let vt := customise co cp setGlobalVariables in
     ∃ copy, EvElastix (elastixBinPath vt) copy copy (outputPath vt)
               (parsPath vt) (noOutput vt) "336" ∈ calls w').
Proof.
  intros Hf Hm Hname. split.
  - intros ffid mfid rv w1 H.
    apply initRun_ok in H
      as (nf' & nm' & pf & pm & cf & cm & Hf' & Hm' & _ & Hsm & _ & Hcm
          & _ & Hne & -> & ->).
    assert (nf' = nf) as -> by congruence.
    assert (nm' = nm) as -> by congruence.
    cbn [fixedRegTmpPath movingRegTmpPath initRun_vars] in *.
    rewrite Hname in *. split; [reflexivity|].
    rewrite lookup_insert_ne in Hcm by congruence.
    exists pm, cm. split; [exact Hsm|]. split; [exact Hcm|].
    cbn [files initRun_world upd_files record emit initRun_vars
         movingRegTmpPath]. by rewrite lookup_insert_eq.
  - intros v w' H. cbv zeta.
    apply run_calls in H as (nf' & nm' & pf & pm & Hf' & Hm' & _ & _ & Hcalls).
    assert (nf' = nf) as -> by congruence.
    assert (nm' = nm) as -> by congruence.
    cbn [fixedRegTmpPath movingRegTmpPath initRun_vars] in Hcalls.
    rewrite Hname in Hcalls. eexists. rewrite Hcalls.
    rewrite elem_of_app, !elem_of_cons. right. do 3 right. by left.
Qed.

Lemma completed_tail_moving f m ff mf co cp w v w' :
  run exit_code f m co cp w = (Ok v, w') ∨
    runAcir exit_code f m ff mf co cp w = (Ok v, w') →
  v ≠ VInt (-1) →
  ∃ nm pm rv cTI cTR w2,
    nodes w !! m = Some nm ∧ nStorage nm = Some pm ∧ movingPath rv = pm ∧
    dom (nodes w) ⊆ dom (nodes w2) ∧
    load_results rv m cTI cTR w2 = (Ok v, w').
Proof.
  intros [H | H] Hv.
  - apply run_ok in H
      as (nf & nm & pf & pm & cf & cm & w2 & cTI & cTR & _ & Hnm & _ & Hpm & _
          & _ & -> & _ & H).
    eexists nm, pm, _, _, _, _. split; [exact Hnm|]. split; [exact Hpm|].
    split; [|split; [|exact H]]; reflexivity.
  - apply runAcir_ok in H
      as (nf & nm & nff & pf & pm & cf & cm & _ & Hnm & _ & _ & Hpm & _ & _
          & [(_ & -> & _) | (_ & H)]); [done|].
    destruct H
      as (nmf & nm1 & nf2 & nm2 & c1 & c2 & x1 & x2 & we & cInv & wt & cTI
          & cTR & _ & _ & _ & _ & _ & _ & _ & Hnodes & _ & _ & Hmt & H).
    apply modifyTransform_ok in Hmt
      as (regOut & nf' & fixedSize & fOrg & d0 & d4 & d8 & _ & _ & _ & _ & _
          & _ & _ & _ & Hnodes_t & _).
    eexists nm, pm, _, _, _, _. split; [exact Hnm|]. split; [exact Hpm|].
    split; [|split; [|exact H]]; [reflexivity|].
    cbn [nodes upd_files record]. rewrite Hnodes_t, Hnodes, !dom_insert_L.
    clear. set_solver.
Qed.

(** After a completed run the moving volume that is loaded again is
    named after its file, whatever the node it replaces was called: for
    a file [<dir>/<name>.<ext>] its name is [<name>]. *)
Theorem moving_volume_reloaded_under_file_name
    f m ff mf co cp w v w' nm dir name ext :
  run exit_code f m co cp w = (Ok v, w') ∨
    runAcir exit_code f m ff mf co cp w = (Ok v, w') →
  v ≠ VInt (-1) →
  nodes w !! m = Some nm →
  nStorage nm = Some (join dir (name +:+ "." +:+ ext)) →
  has_char "/"%char name = false → has_non_dot name = true →
  has_char "."%char ext = false → has_char "/"%char ext = false →
  ∃ u nu,
    (u ∉ dom (nodes w)) ∧ nodes w' !! u = Some nu ∧
    nName nu = name ∧ nStorage nu = nStorage nm ∧
    nClass nu = ScalarVolumeNode.
Proof.
  intros H Hv Hnm Hst Hslash Hdot Hext Hexts.
  apply completed_tail_moving in H
    as (nm' & pm & rv & cTI & cTR & w2 & Hnm' & Hpm & Hmp & Hdom & H); [|done].
  assert (nm' = nm) as -> by congruence.
  apply load_results_scene in H as (_ & u & cm & Hu & Hnu & _).
  exists u. eexists. split; [set_solver|]. split; [exact Hnu|].
  cbn [nName nStorage nClass with_name loaded_node].
  rewrite Hmp. split; [|by rewrite Hpm].
  assert (pm = join dir (name +:+ "." +:+ ext)) as -> by congruence.
  by apply imgName_join.
Qed.

End MoreRuns.

(** * More of the widget and of the test *)

Section Failing.
Context {F : Type} `{!PyFloat F} {PyObj : Type}.
Context `{!Host (F:=F)} `{!VisSimCommon (F:=F) (PyObj:=PyObj)}.

Local Abbreviation World := (World (F:=F) (PyObj:=PyObj)).
Local Abbreviation M := (M (F:=F) (PyObj:=PyObj)).
Local Abbreviation Event := (Event (F:=F) (PyObj:=PyObj)).
Implicit Types (w : World) (P : Event → Prop).

(** When [m] ends with an exception, each call it made satisfies [P]. *)
Definition fails_within {A} P (m : M A) : Prop :=
  ∀ w e w', m w = (Raise e, w') →
    ∃ evs, calls w' = calls w ++ evs ∧ Forall P evs.

Lemma fails_within_bind {A B} P (m : M A) (k : A → M B) :
  emits P m → (∀ a, fails_within P (k a)) → fails_within P (bind m k).
Proof.
  intros Hm Hk w e w' H. unfold bind in H.
  destruct (Hm w) as (evs & E & HP).
  destruct (m w) as [[a|x] w1] eqn:Em; cbn [snd] in E.
  - destruct (Hk a w1 e w' H) as (evs' & E' & HP').
    exists (evs ++ evs'). split; [by rewrite E', E, app_assoc|].
    by apply Forall_app.
  - injection H as <- <-. by exists evs.
Qed.

End Failing.

Section MoreWidget.
Context {F : Type} `{!PyFloat F} {PyObj : Type}.
Context `{!Host (F:=F)} `{!VisSimCommon (F:=F) (PyObj:=PyObj)}.
Context (exit_code : Event (F:=F) (PyObj:=PyObj) → gmap string string → Z).

Local Abbreviation World := (World (F:=F) (PyObj:=PyObj)).
Local Abbreviation M := (M (F:=F) (PyObj:=PyObj)).
Local Abbreviation Node := (Node (F:=F)).
Local Abbreviation Event := (Event (F:=F) (PyObj:=PyObj)).
Local Abbreviation PyVal := (PyVal (F:=F)).
Implicit Types (w : World) (self : Widget).

(** A call that is not made on the Run button. *)
Definition off_the_button (e : Event) : Prop :=
  match e with
  | EvGui widget _ =>
      widget ≠ "runBtn.setText" ∧ widget ≠ "runBtn.setStyleSheet"
  | _ => True
  end.

Lemma run_off_the_button f m co cp :
  emits off_the_button (run exit_code f m co cp).
Proof. emits_all ltac:(exact I). Qed.

Lemma runAcir_off_the_button f m ff mf co cp :
  emits off_the_button (runAcir exit_code f m ff mf co cp).
Proof. emits_all ltac:(exact I). Qed.

(** A click that ends with an exception leaves the Run button as the
    click set it at its start, red and reading [...please wait]: no
    later call is made on the button. *)
Theorem failed_click_leaves_button_waiting self w e w' :
  onApplyBtnClick exit_code self w = (Raise e, w') →
  ∃ evs,
    calls w' =
      calls w ++
        [EvGui "runBtn.setText" "...please wait";
         EvGui "runBtn.setStyleSheet" "QPushButton{ background-color: red  }"]
        ++ evs ∧
    Forall off_the_button evs.
Proof.
  unfold onApplyBtnClick. intros H.
  change (bind (gui "runBtn.setText" "...please wait") ?k w)
    with (k tt (record (EvGui "runBtn.setText" "...please wait") w)) in H.
  cbv beta in H.
  change (bind (gui ?a ?b) ?k ?w0) with (k tt (record (EvGui a b) w0)) in H.
  cbv beta in H.
  match type of H with
  | ?m ?w0 = _ =>
      assert (fails_within off_the_button m) as Hm
  end.
  { apply fails_within_bind; [unfold gui; apply emits_record; by split|].
    intros _.
    apply fails_within_bind;
      [unfold time_time; repeat emits_step ltac:(exact I)|]. intros stm.
    apply fails_within_bind; [unfold print; repeat emits_step ltac:(exact I)|].
    intros _.
    apply fails_within_bind; [unfold gui; apply emits_record; by split|].
    intros _.
    apply fails_within_bind; [unfold print; repeat emits_step ltac:(exact I)|].
    intros _.
    apply fails_within_bind.
    { destruct (fixedFiducialNode self), (movingFiducialNode self);
        first [apply runAcir_off_the_button | apply run_off_the_button]. }
    intros r w0 x w1 Hr. discriminate. }
  apply Hm in H as (evs & E & HP). exists evs. split; [|exact HP].
  rewrite E. cbn [calls record]. by rewrite <- !app_assoc.
Qed.

(** A click with both fiducial nodes set and no point in the fixed
    one goes on after [runAcir] has stopped: the handler hands the [-1]
    it got to [fuseTwoImages] in place of a registered volume. *)
Theorem click_displays_the_error_value self w u w' fixedFid movingFid nff nf :
  onApplyBtnClick exit_code self w = (Ok u, w') →
  fixedFiducialNode self = Some fixedFid →
  movingFiducialNode self = Some movingFid →
  nodes w !! fixedFid = Some nff →
  nodes w !! fixedSelectorCoBx self = Some nf →
  np_sum (ptRAS2IJK nff nf) = 0 →
  ∃ pre post,
    calls w' =
      calls w ++ pre ++ [EvFuse (fixedSelectorCoBx self) (VInt (-1))] ++ post.
Proof.
  intros H Hff Hmf Hnff Hnf Hsum. unfold onApplyBtnClick in H.
  rewrite Hff, Hmf in H. tidy H.
  repeat lazymatch type of H with
         | bind (runAcir _ _ _ _ _ _ _) _ _ = _ => fail
         | _ => step H
         end.
  apply bind_ok in H as (r & w1 & Hrun & H).
  apply runAcir_ok in Hrun
    as (nf' & nm & nff' & pf & pm & cf & cm & Hnf' & Hnm & Hnff' & _ & _ & _
        & _ & [(_ & -> & ->) | (Hne & _)]).
  - repeat step H. unfold modify in H. injection H as _ <-.
    eexists (_ :: _ :: _ :: _ :: _ :: _ :: [_]), _.
    cbn [calls record emit tick upd_files initRun_world initRun_vars app].
    rewrite <- !app_assoc. cbn [app]. reflexivity.
  - cbn [nodes record emit tick] in Hnf', Hnff'.
    assert (nf' = nf) as -> by congruence.
    assert (nff' = nff) as -> by congruence.
    contradiction.
Qed.

(** Calls that are made only when points are given: the making of a
    fiducial node, and what the cropped path alone does. *)
Definition whole_image_call (e : Event) : Prop :=
  match e with
  | EvAddFiducial _ | EvCropping _ _ _ _ _ | EvInvertTransform _ _ _ _ _
  | EvOpenWrite _ | EvClose _ => False
  | _ => True
  end.

(** Unless both points are given, the test registers the whole images:
    it makes no fiducial node, crops nothing, inverts and rewrites no
    transform, whatever its outcome.  The direct test is the case of no
    point at all. *)
Theorem test_without_points_registers_whole_images
    fixedImgPath movingImgPath fixedPoint movingPoint co cp :
  fixedPoint = None ∨ movingPoint = None →
  emits whole_image_call
    (testSlicerCochleaRegistration exit_code fixedImgPath movingImgPath
       fixedPoint movingPoint co cp) ∧
  emits whole_image_call
    (testSlicerCochleaDirectRegistration exit_code fixedImgPath movingImgPath
       co cp).
Proof.
  intros Hnone. split.
  - unfold testSlicerCochleaRegistration.
    destruct Hnone as [-> | ->]; [|destruct fixedPoint];
      cbv beta iota zeta; emits_all ltac:(exact I).
  - unfold testSlicerCochleaDirectRegistration, testSlicerCochleaRegistration.
    cbv beta iota zeta. emits_all ltac:(exact I).
Qed.

(** ** The callers and the exit codes *)

(** A program that does not look at what was printed. *)
Definition steady {A} (m : M A) : Prop :=
  ∀ w1 w2, same_but_stdout w1 w2 → agree (m w1) (m w2).

Lemma steady_ret {A} (a : A) : steady (ret a).
Proof. by intros w1 w2 Hw. Qed.

Lemma steady_raise {A} e : steady (raise (A:=A) e).
Proof. by intros w1 w2 Hw. Qed.

Lemma steady_bind {A B} (m : M A) (k : A → M B) :
  steady m → (∀ a, steady (k a)) → steady (bind m k).
Proof.
  intros Hm Hk w1 w2 Hw. unfold bind. destruct (Hm w1 w2 Hw) as [Ho Hw'].
  destruct (m w1) as [[a|e] w1'], (m w2) as [[a'|e'] w2'];
    cbn [fst snd] in *; try discriminate.
  - injection Ho as <-. by apply Hk.
  - injection Ho as <-. by split.
Qed.

Lemma steady_try_except {A} (m : M A) (h : Exn → M A) :
  steady m → (∀ e, steady (h e)) → steady (try_except m h).
Proof.
  intros Hm Hh w1 w2 Hw. unfold try_except.
  destruct (Hm w1 w2 Hw) as [Ho Hw'].
  destruct (m w1) as [[a|e] w1'], (m w2) as [[a'|e'] w2'];
    cbn [fst snd] in *; try discriminate.
  - injection Ho as <-. by split.
  - injection Ho as <-. by apply Hh.
Qed.

Lemma steady_modify (f : World → World) :
  (∀ w1 w2, same_but_stdout w1 w2 → same_but_stdout (f w1) (f w2)) →
  steady (modify f).
Proof. intros Hf w1 w2 Hw. split; [reflexivity | by apply Hf]. Qed.

Lemma steady_gets {A} (f : World → A) :
  (∀ w1 w2, same_but_stdout w1 w2 → f w1 = f w2) → steady (gets f).
Proof.
  intros Hf w1 w2 Hw. split; [cbn; by rewrite (Hf w1 w2 Hw) | exact Hw].
Qed.

Lemma agree_bind_steady {A B} (m1 m2 : M A) (k : A → M B) w :
  agree (m1 w) (m2 w) → (∀ a, steady (k a)) →
  agree (bind m1 k w) (bind m2 k w).
Proof.
  intros [Ho Hw] Hk. unfold bind.
  destruct (m1 w) as [[a|e] w1], (m2 w) as [[a'|e'] w2];
    cbn [fst snd] in *; try discriminate.
  - injection Ho as <-. by apply Hk.
  - injection Ho as <-. by split.
Qed.

End MoreWidget.

(** One layer of a program, for a goal [steady m]. *)
Ltac steady_step :=
  lazymatch goal with
  | |- steady (bind _ _) => apply steady_bind; [| intros ?]
  | |- steady (ret _) => apply steady_ret
  | |- steady (raise _) => apply steady_raise
  | |- steady (try_except _ _) => apply steady_try_except; [| intros ?]
  | |- steady (modify _) =>
      apply steady_modify;
      let H := fresh in
      intros ? ? (H & ? & ? & ? & ?); repeat split; cbn; congruence
  | |- steady (gets _) =>
      apply steady_gets;
      let H := fresh in
      intros ? ? (H & ? & ? & ? & ?); cbn; congruence
  end.

Ltac steady_all :=
  unfold fuseTwoImages, time_time, gui, print; repeat steady_step.

Section MoreCallers.
Context {F : Type} `{!PyFloat F} {PyObj : Type}.
Context `{!Host (F:=F)} `{!VisSimCommon (F:=F) (PyObj:=PyObj)}.

Local Abbreviation World := (World (F:=F) (PyObj:=PyObj)).
Local Abbreviation Event := (Event (F:=F) (PyObj:=PyObj)).
Implicit Types (w : World) (self : Widget).
Implicit Types (ec : Event → gmap string string → Z).

Lemma test_agree ec ec' fixedImgPath movingImgPath fixedPoint movingPoint
    co cp w :
  agree
    (testSlicerCochleaRegistration ec fixedImgPath movingImgPath
       fixedPoint movingPoint co cp w)
    (testSlicerCochleaRegistration ec' fixedImgPath movingImgPath
       fixedPoint movingPoint co cp w).
Proof.
  unfold testSlicerCochleaRegistration. cbv zeta.
  repeat lazymatch goal with
  | |- agree (bind (match _ with _ => _ end) _ _) _ => fail
  | |- agree (bind _ _ _) _ => apply agree_bind; intros ? ?
  | |- agree ((match ?c with _ => _ end) _) _ => destruct c
  | |- agree ?r ?r => apply agree_refl
  end.
  all: apply agree_bind_steady; [| intros ?; steady_all].
  all: repeat lazymatch goal with
       | |- agree (bind _ _ _) _ => apply agree_bind; intros ? ?
       | |- agree ((match ?c with _ => _ end) _) _ => destruct c
       end.
  all: lazymatch goal with
       | |- agree (runAcir _ _ _ _ _ _ _ _) _ => apply runAcir_agree
       | |- agree (run _ _ _ _ _ _) _ => apply run_agree
       end.
Qed.

(** The callers of the logic do not see the exit codes either: with
    other exit codes of elastix and transformix the click handler, the
    test and the self test end the same way, in the same world but for
    what was printed.  A failing binary does not fail the test. *)
Theorem callers_blind_to_exit_codes ec ec' self fixedImgPath movingImgPath
    fixedPoint movingPoint co cp w :
  agree (onApplyBtnClick ec self w) (onApplyBtnClick ec' self w) ∧
  agree
    (testSlicerCochleaRegistration ec fixedImgPath movingImgPath
       fixedPoint movingPoint co cp w)
    (testSlicerCochleaRegistration ec' fixedImgPath movingImgPath
       fixedPoint movingPoint co cp w) ∧
  agree (runTest ec w) (runTest ec' w).
Proof.
  split; [|split].
  - unfold onApplyBtnClick.
    repeat lazymatch goal with
    | |- agree (bind (match _ with _ => _ end) _ _) _ => fail
    | |- agree (bind _ _ _) _ => apply agree_bind; intros ? ?
    end.
    apply agree_bind_steady; [| intros ?; steady_all].
    destruct (fixedFiducialNode self), (movingFiducialNode self);
      lazymatch goal with
      | |- agree (runAcir _ _ _ _ _ _ _ _) _ => apply runAcir_agree
      | |- agree (run _ _ _ _ _ _) _ => apply run_agree
      end.
  - apply test_agree.
  - unfold runTest. cbv zeta.
    repeat lazymatch goal with
    | |- agree (testSlicerCochleaRegistration _ _ _ _ _ _ _ _) _ => fail
    | |- agree (bind _ _ _) _ => apply agree_bind; intros ? ?
    end.
    apply test_agree.
Qed.

End MoreCallers.

(** * The location buttons *)

Section Locations.
Context {F : Type} `{!PyFloat F} {PyObj : Type}.
Context `{!Host (F:=F)} `{!VisSimCommon (F:=F) (PyObj:=PyObj)}.

Local Abbreviation World := (World (F:=F) (PyObj:=PyObj)).
Local Abbreviation M := (M (F:=F) (PyObj:=PyObj)).
Local Abbreviation Node := (Node (F:=F)).
Local Abbreviation Event := (Event (F:=F) (PyObj:=PyObj)).
Implicit Types (w : World) (self : Widget) (nds : gmap nat Node).

Context (locateItem : nat → Z → M (option nat)).

(** The node [id] has the name [name]. *)
Definition named nds (name : string) (id : nat) : bool :=
  match nds !! id with
  | Some n => bool_decide (nName n = name)
  | None => false
  end.

(** The node [id] is a markups fiducial node called [_CochleaLocation]. *)
Definition old_location nds (id : nat) : bool :=
  in_class MarkupsFiducialNode nds id && named nds "_CochleaLocation" id.

Lemma filter_iff_in {A} (P Q : A → Prop)
    `{!∀ x, Decision (P x), !∀ x, Decision (Q x)} (l : list A) :
  (∀ x, x ∈ l → P x ↔ Q x) → filter P l = filter Q l.
Proof.
  induction l as [|a l IH]; intros HPQ; [done|].
  assert (filter P l = filter Q l) as Hl.
  { apply IH. intros x Hx. apply HPQ. by right. }
  destruct (decide (P a)) as [HP | HP].
  - rewrite !filter_cons_True; [by rewrite Hl | | done].
    apply HPQ; [by left | done].
  - rewrite !filter_cons_False; [exact Hl | | done].
    intros HQ. apply HP. apply HPQ; [by left | done].
Qed.

Lemma filter_all {A} (P : A → Prop) `{!∀ x, Decision (P x)} (l : list A) :
  (∀ x, P x) → filter P l = l.
Proof.
  intros HP. induction l as [|a l IH]; [done|].
  by rewrite filter_cons_True, IH.
Qed.

Lemma remove_named_cons name f fs w n :
  nodes w !! f = Some n →
  remove_named name (f :: fs) w =
    remove_named name fs
      (if decide (nName n = name)
       then upd_scene (filter (λ i, i ≠ f)) (record (EvRemoveNode f) w)
       else w).
Proof.
  intros Hn. cbn [remove_named].
  unfold GetName, the_node, RemoveNode, bind, modify, ret. rewrite Hn.
  by destruct (decide (nName n = name)).
Qed.

Lemma remove_named_ok name fs w :
  Forall (λ id, is_Some (nodes w !! id)) fs →
  ∃ w1,
    remove_named name fs w = (Ok tt, w1) ∧
    nodes w1 = nodes w ∧ files w1 = files w ∧ stdout w1 = stdout w ∧
    ticks w1 = ticks w ∧
    calls w1 =
      calls w ++ map EvRemoveNode
                   (filter (λ id, named (nodes w) name id = true) fs) ∧
    scene w1 =
      filter (λ i, ¬ (i ∈ fs ∧ named (nodes w) name i = true)) (scene w).
Proof.
  revert w. induction fs as [|f fs IH]; intros w Hfs.
  - exists w. repeat split; try reflexivity.
    + by rewrite app_nil_r.
    + symmetry. apply filter_all. intros i [Hi _].
      by apply elem_of_nil in Hi.
  - apply Forall_cons in Hfs as [[n Hn] Hfs].
    rewrite (remove_named_cons name f fs w n Hn).
    destruct (decide (nName n = name)) as [Hname | Hname].
    + set (w0 := upd_scene (filter (λ i, i ≠ f)) (record (EvRemoveNode f) w)).
      destruct (IH w0 Hfs) as (w1 & Hrun & Hn1 & Hf1 & Ho1 & Ht1 & Hc1 & Hs1).
      exists w1.
      split; [exact Hrun|]. split; [exact Hn1|]. split; [exact Hf1|].
      split; [exact Ho1|]. split; [exact Ht1|].
      cbn [nodes calls scene upd_scene record w0] in Hc1, Hs1. split.
      * rewrite Hc1, filter_cons_True, <- app_assoc; [reflexivity|].
        unfold named. rewrite Hn. by apply bool_decide_eq_true.
      * rewrite Hs1, list_filter_filter. apply list_filter_iff. intros i.
        rewrite elem_of_cons. split.
        -- intros [Hno Hif] [[-> | Hi] Hnamed]; [done|]. by apply Hno.
        -- intros Hno. split.
           ++ intros [Hi Hnamed]. apply Hno. by split; [right|].
           ++ intros ->. apply Hno. split; [by left|].
              unfold named. rewrite Hn. by apply bool_decide_eq_true.
    + destruct (IH w Hfs) as (w1 & Hrun & Hn1 & Hf1 & Ho1 & Ht1 & Hc1 & Hs1).
      exists w1. split; [exact Hrun|]. split; [exact Hn1|].
      split; [exact Hf1|]. split; [exact Ho1|]. split; [exact Ht1|].
      assert (named (nodes w) name f = false) as Hfalse.
      { unfold named. rewrite Hn. by apply bool_decide_eq_false. }
      split.
      * rewrite Hc1, filter_cons_False; [reflexivity|]. by rewrite Hfalse.
      * rewrite Hs1. apply list_filter_iff. intros i.
        rewrite elem_of_cons. split.
        -- intros Hno [[-> | Hi] Hnamed]; [congruence|]. by apply Hno.
        -- intros Hno [Hi Hnamed]. apply Hno. by split; [right|].
Qed.

(** The world in which the location is asked for. *)
Lemma old_locations_out_of_scene self volumeType w :
  ∃ w1,
    onInputFiducialBtnClick locateItem self volumeType w
      = locate_cochlea locateItem self volumeType w1 ∧
    ∀ id, old_location (nodes w) id = true → id ∉ scene w1.
Proof.
  unfold onInputFiducialBtnClick, remove_old_locations, getNodesByClass.
  set (fs := filter (λ id, in_class MarkupsFiducialNode (nodes w) id = true)
               (scene w)).
  destruct (remove_named_ok "_CochleaLocation" fs w)
    as (w1 & Hrun & _ & _ & _ & _ & _ & Hs1).
  { apply Forall_forall. intros id Hid.
    apply list_elem_of_filter in Hid as [Hid _]. unfold in_class in Hid.
    by destruct (nodes w !! id). }
  exists w1. split.
  - unfold bind at 1 2, gets. fold fs. by rewrite Hrun.
  - intros id Hold Hin. rewrite Hs1 in Hin.
    apply list_elem_of_filter in Hin as [Hno Hin]. apply Hno.
    unfold old_location in Hold. apply andb_prop in Hold as [Hc Hn].
    split; [|exact Hn]. unfold fs. by apply list_elem_of_filter.
Qed.

(** A click on either location button first takes every markups
    fiducial node called [_CochleaLocation] out of the scene, whichever
    image it is for, and nothing else: the other nodes keep their place,
    no node object is changed, and only then is the location asked for. *)
Theorem location_click_removes_old_locations self volumeType w :
  ∃ w1,
    onInputFiducialBtnClick locateItem self volumeType w
      = locate_cochlea locateItem self volumeType w1 ∧
    scene w1 = filter (λ id, old_location (nodes w) id = false) (scene w) ∧
    nodes w1 = nodes w ∧ files w1 = files w ∧ stdout w1 = stdout w ∧
    calls w1 =
      calls w ++ map EvRemoveNode
                   (filter (λ id, old_location (nodes w) id = true) (scene w)).
Proof.
  unfold onInputFiducialBtnClick, remove_old_locations, getNodesByClass.
  set (fs := filter (λ id, in_class MarkupsFiducialNode (nodes w) id = true)
               (scene w)).
  destruct (remove_named_ok "_CochleaLocation" fs w)
    as (w1 & Hrun & Hn1 & Hf1 & Ho1 & _ & Hc1 & Hs1).
  { apply Forall_forall. intros id Hid.
    apply list_elem_of_filter in Hid as [Hid _]. unfold in_class in Hid.
    by destruct (nodes w !! id). }
  exists w1. split; [|split; [|split; [|split; [|split]]]]; try assumption.
  - unfold bind at 1 2, gets. fold fs. by rewrite Hrun.
  - rewrite Hs1. apply filter_iff_in. intros i Hi.
    unfold old_location, fs. rewrite list_elem_of_filter.
    destruct (in_class _ _ i), (named _ _ i); cbn; naive_solver.
  - rewrite Hc1. f_equal. f_equal. unfold fs. rewrite list_filter_filter.
    apply list_filter_iff. intros i. unfold old_location.
    destruct (in_class _ _ i), (named _ _ i); cbn; naive_solver.
Qed.

(** A click on one location button sets the fiducial node of that image
    to what the helper gives and keeps the fiducial node of the other
    image, nodes taken out of the scene by this very click included: the
    widget can be left with a fiducial node that is no longer in the
    scene.  A type other than [F] and [M] changes nothing on the widget. *)
Theorem location_click_keeps_the_other_node self volumeType w self' w' :
  onInputFiducialBtnClick locateItem self volumeType w = (Ok self', w') →
  fixedSelectorCoBx self' = fixedSelectorCoBx self ∧
  movingSelectorCoBx self' = movingSelectorCoBx self ∧
  (volumeType = "F" → movingFiducialNode self' = movingFiducialNode self) ∧
  (volumeType = "M" → fixedFiducialNode self' = fixedFiducialNode self) ∧
  (volumeType ≠ "F" → volumeType ≠ "M" → self' = self) ∧
  (∀ other, volumeType = "F" → movingFiducialNode self = Some other →
     old_location (nodes w) other = true →
     movingFiducialNode self' = Some other ∧
     ∃ w1 fid w2,
       (other ∉ scene w1) ∧
       locateItem (fixedSelectorCoBx self) 1 w1 = (Ok fid, w2) ∧
       fixedFiducialNode self' = fid).
Proof.
  intros H.
  destruct (old_locations_out_of_scene self volumeType w)
    as (w1 & E & Hs1). rewrite E in H. clear E.
  unfold locate_cochlea in H.
  destruct (decide (volumeType = "F")) as [HF | HF];
    [| destruct (decide (volumeType = "M")) as [HM | HM]].
  - do 2 step H. apply bind_ok in H as (fid & w2 & Hloc & H).
    do 2 step H. cbn [fixedSelectorCoBx movingSelectorCoBx fixedFiducialNode
                       movingFiducialNode].
    repeat split; try done.
    + subst volumeType. discriminate.
    + eexists _, fid, w2. split; [|split; [exact Hloc | reflexivity]].
      cbn [scene emit record]. by apply Hs1.
  - subst volumeType. step H. apply bind_ok in H as (fid & w2 & Hloc & H).
    do 2 step H. cbn [fixedSelectorCoBx movingSelectorCoBx fixedFiducialNode
                       movingFiducialNode].
    repeat split; try done.
  - step H. repeat split; try done.
Qed.

End Locations.

(** ** More sample worlds and runs *)

Module MoreSample.
Import Sample.

(** The sample scene with the moving volume never saved. *)
Definition unsaved_world : World (F:=Z) (PyObj:=unit) :=
  upd_nodes (insert 1%nat
    {| nName := "moving"; nClass := ScalarVolumeNode; nStorage := None;
       nVolume := Some ((485, 485, 121), (-30, -31, 32));
       nFiducials := []; nData := "voxels" |}) world0.

(** The sample scene with both volumes called [vol]. *)
Definition twins_world : World (F:=Z) (PyObj:=unit) :=
  upd_nodes (λ nds, <[0%nat := volume "vol" "/data/fixed.nrrd"]>
                      (<[1%nat := volume "vol" "/data/moving.nrrd"]> nds))
    world0.

(** What [initRun] leaves on [self] for the sample volumes. *)
Definition rv0 : RunVars (PyObj:=unit) :=
  initRun_vars vt0 "fixed" "moving" "/data/fixed.nrrd" "/data/moving.nrrd".

(** The sample scene after a transformix that wrote the deformation
    field and no result image. *)
Definition half_done_world : World (F:=Z) (PyObj:=unit) :=
  upd_files (insert "/VisSimTools/outputs/deformationField.nrrd" "field")
    world0.

(** The output folder after elastix wrote a transform without the two
    keys. *)
Definition plain_transform : string :=
  "(Spacing 1 1 1)
(Direction 1 0 0 0 1 0 0 0 1)
".

Definition plain_transform_world : World (F:=Z) (PyObj:=unit) :=
  upd_files
    (insert "/VisSimTools/outputs/TransformParameters.0.txt" plain_transform)
    transform_world.

(** A widget with both fiducial nodes chosen, the fixed one without a
    point. *)
Definition no_fixed_point : Widget :=
  {| fixedSelectorCoBx := 0%nat; movingSelectorCoBx := 1%nat;
     fixedFiducialNode := Some 3%nat; movingFiducialNode := Some 2%nat |}.

Definition twins_init :=
  Eval vm_compute in initRun 0 1 None None None None twins_world.
Definition twins_run :=
  Eval vm_compute in run codes_ok 0 1 None None twins_world.
Definition plain_transform_run :=
  Eval vm_compute in
    modifyTransform codes_ok vt0 0 "/VisSimTools/outputs/fixed.nrrd"
      plain_transform_world.
(** A click in an empty scene, and a click with no fixed point. *)
Definition lost_click :=
  Eval vm_compute in onApplyBtnClick codes_ok half_set fresh_machine.
Definition pointless_click :=
  Eval vm_compute in onApplyBtnClick codes_ok no_fixed_point world0.

(** A helper that makes a new fiducial node called [_CochleaLocation]
    for the location, a scene in which the moving location was picked
    that way, and the click for the fixed location that follows. *)
Definition locate (volume : nat) (which : Z)
  : M (F:=Z) (PyObj:=unit) (option nat) :=
  bind (new_fiducial "_CochleaLocation" (0, 0, 0) "_CochleaLocation")
    (λ id, ret (Some id)).

Definition located_world : World (F:=Z) (PyObj:=unit) :=
  upd_nodes (insert 3%nat (fiducial "_CochleaLocation" (196, 217, 93))) world0.

Definition moving_picked : Widget :=
  {| fixedSelectorCoBx := 0%nat; movingSelectorCoBx := 1%nat;
     fixedFiducialNode := None; movingFiducialNode := Some 3%nat |}.

Definition fixed_pick :=
  Eval vm_compute in
    onInputFiducialBtnClick locate moving_picked "F" located_world.

End MoreSample.

Section MoreOnTheSample.
Import Sample MoreSample.

Local Abbreviation PyVal := (PyVal (F:=Z)).
Local Abbreviation Event := (Event (F:=Z) (PyObj:=unit)).
Local Abbreviation Node := (Node (F:=Z)).

(** The moving volume of the sample, never saved, stops both runs. *)
Lemma volume_stored_in_place_stops_run_sample :
  let nf := volume "fixed" "/data/fixed.nrrd" in
  let nm : Node :=
    {| nName := "moving"; nClass := ScalarVolumeNode; nStorage := None;
       nVolume := Some ((485, 485, 121), (-30, -31, 32));
       nFiducials := []; nData := "voxels" |} in
  let vt := customise None None setGlobalVariables in
  nodes unsaved_world !! 0%nat = Some nf ∧
  nodes unsaved_world !! 1%nat = Some nm ∧
  (stored_in_place vt nf ∨ stored_in_place vt nm) ∧
  (∀ v w', run codes_ok 0 1 None None unsaved_world ≠ (Ok v, w')) ∧
  (∀ v w', runAcir codes_ok 0 1 2 3 None None unsaved_world ≠ (Ok v, w')).
Proof.
  intros nf nm vt.
  assert (Hf : nodes unsaved_world !! 0%nat = Some nf)
    by (vm_compute; reflexivity).
  assert (Hm : nodes unsaved_world !! 1%nat = Some nm)
    by (vm_compute; reflexivity).
  assert (Hplace : stored_in_place vt nf ∨ stored_in_place vt nm)
    by (right; left; reflexivity).
  exact (conj Hf (conj Hm (conj Hplace
    (volume_stored_in_place_stops_run codes_ok 0 1 2 3 None None
       unsaved_world nf nm Hf Hm Hplace)))).
Defined.

(** The volume the plain run of the sample returns cannot be used
    again. *)
Lemma registered_volume_is_no_input_sample :
  let w' := plain_run.2 in
  run codes_ok 0 1 None None world0 = (Ok (VNode 5), w') ∧
  (VNode 5 : PyVal) ≠ VInt (-1) ∧
  ∃ r, (VNode 5 : PyVal) = VNode r ∧
    ∀ other fid1 fid2 cp2 v2 w2,
      run codes_ok r other None cp2 w' ≠ (Ok v2, w2) ∧
      run codes_ok other r None cp2 w' ≠ (Ok v2, w2) ∧
      runAcir codes_ok r other fid1 fid2 None cp2 w' ≠ (Ok v2, w2) ∧
      runAcir codes_ok other r fid1 fid2 None cp2 w' ≠ (Ok v2, w2).
Proof.
  intros w'.
  assert (Hrun : run codes_ok 0 1 None None world0 = (Ok (VNode 5), w'))
    by (vm_compute; reflexivity).
  assert (Hv : (VNode 5 : PyVal) ≠ VInt (-1)) by discriminate.
  exact (conj Hrun (conj Hv
    (registered_volume_is_no_input codes_ok 0 1 2 3 None None world0 _ _
       (or_introl Hrun) Hv))).
Defined.

(** The calls of the plain run of the sample. *)
Lemma run_call_sequence_sample :
  run codes_ok 0 1 None None world0 = (Ok (VNode 5), plain_run.2) ∧
  calls plain_run.2 =
    [EvClearOutputs "/VisSimTools/outputs";
     EvCopyFile "/data/fixed.nrrd" "/VisSimTools/outputs/fixed.nrrd";
     EvCopyFile "/data/moving.nrrd" "/VisSimTools/outputs/moving.nrrd";
     EvElastix "/VisSimTools/bin/elastix" "/VisSimTools/outputs/fixed.nrrd"
       "/VisSimTools/outputs/moving.nrrd" "/VisSimTools/outputs"
       "/VisSimTools/pars/parCochSeg.txt" tt "336";
     EvTransformix "/VisSimTools/bin/transformix"
       "/VisSimTools/outputs/moving.nrrd" "/VisSimTools/outputs"
       "/VisSimTools/outputs/TransformParameters.0.txt" tt "339";
     EvRename "/VisSimTools/outputs/deformationField.nrrd"
       "/VisSimTools/outputs/moving_dFld.nrrd";
     EvRename "/VisSimTools/outputs/result.nrrd"
       "/VisSimTools/outputs/moving_Registered.nrrd";
     EvLoadTransform "/VisSimTools/outputs/moving_dFld.nrrd";
     EvLoadVolume "/VisSimTools/outputs/moving_Registered.nrrd";
     EvRemoveNode 1; EvLoadVolume "/data/moving.nrrd"; EvRemoveTmps].
Proof.
  assert (Hrun : run codes_ok 0 1 None None world0
                 = (Ok (VNode 5), plain_run.2)) by (vm_compute; reflexivity).
  split; [exact Hrun|].
  destruct (run_call_sequence codes_ok _ _ _ _ _ _ _ Hrun)
    as (nf & nm & pf & pm & Hnf & Hnm & Hpf & Hpm & Hcalls).
  assert (Hfixed : nodes world0 !! 0%nat = Some (volume "fixed" "/data/fixed.nrrd"))
    by (vm_compute; reflexivity).
  assert (Hmoving : nodes world0 !! 1%nat
                    = Some (volume "moving" "/data/moving.nrrd"))
    by (vm_compute; reflexivity).
  rewrite Hfixed in Hnf. rewrite Hmoving in Hnm.
  injection Hnf as <-. injection Hnm as <-.
  injection Hpf as <-. injection Hpm as <-.
  rewrite Hcalls. vm_compute. reflexivity.
Defined.

(** The nodes of the plain run of the sample. *)
Lemma run_adds_three_nodes_sample :
  let w := world0 in
  let w' := plain_run.2 in
  run codes_ok 0 1 None None w = (Ok (VNode 5), w') ∧
  ∃ t r u (nt nr nu : Node),
    (t ∉ dom (nodes w)) ∧ (r ∉ dom (nodes w)) ∧ (u ∉ dom (nodes w)) ∧
    r ≠ t ∧ u ≠ t ∧ u ≠ r ∧
    (VNode 5 : PyVal) = VNode r ∧
    nodes w' = <[u := nu]> (<[r := nr]> (<[t := nt]> (nodes w))) ∧
    nClass nt = TransformNode ∧ nClass nr = ScalarVolumeNode ∧
    nClass nu = ScalarVolumeNode ∧
    (∀ j, j ∈ dom (nodes w) → nodes w' !! j = nodes w !! j) ∧
    scene w' =
      filter (λ id, keeps_node (nodes w') id = true)
        (filter (λ i, i ≠ 1%nat) (scene w ++ [t; r]) ++ [u]).
Proof.
  intros w w'.
  assert (Hrun : run codes_ok 0 1 None None w = (Ok (VNode 5), w'))
    by (vm_compute; reflexivity).
  exact (conj Hrun (run_adds_three_nodes codes_ok _ _ _ _ _ _ _ Hrun)).
Defined.

(** The tail of a run in the sample scene, where no binary has run. *)
Lemma load_results_without_deformation_field_sample :
  files world0 !! resOldDefPath rv0 = None ∧
  load_results rv0 1 0 0 world0 =
    (Raise (OSError "/VisSimTools/outputs/deformationField.nrrd"),
     record (EvRename "/VisSimTools/outputs/deformationField.nrrd"
               "/VisSimTools/outputs/moving_dFld.nrrd") world0).
Proof.
  assert (Hnone : files world0 !! resOldDefPath rv0 = None)
    by (vm_compute; reflexivity).
  exact (conj Hnone
    (load_results_without_deformation_field rv0 1 0 0 world0 Hnone)).
Defined.

(** The tail of a run when only the deformation field is there. *)
Lemma load_results_without_result_image_sample :
  let w := half_done_world in
  let nm := volume "moving" "/data/moving.nrrd" in
  let resImagePath := join (outputPath (vtVars rv0)) "result.nrrd" in
  let renamed := <[resDefPath rv0 := "field"]>
                   (delete (resOldDefPath rv0) (files w)) in
  files w !! resOldDefPath rv0 = Some "field" ∧
  nodes w !! 1%nat = Some nm ∧
  renamed !! resImagePath = None ∧
  ∃ w1,
    load_results rv0 1 0 0 w = (Raise (OSError resImagePath), w1) ∧
    files w1 = renamed ∧ nodes w1 = nodes w ∧ scene w1 = scene w ∧
    calls w1 =
      calls w ++
        [EvRename (resOldDefPath rv0) (resDefPath rv0);
         EvRename resImagePath
           (join (outputPath (vtVars rv0)) (nName nm +:+ "_Registered.nrrd"))].
Proof.
  intros w nm resImagePath renamed.
  assert (Hdef : files w !! resOldDefPath rv0 = Some "field")
    by (vm_compute; reflexivity).
  assert (Hnm : nodes w !! 1%nat = Some nm) by (vm_compute; reflexivity).
  assert (Hnone : renamed !! resImagePath = None) by (vm_compute; reflexivity).
  exact (conj Hdef (conj Hnm (conj Hnone
    (load_results_without_result_image rv0 1 0 0 w "field" nm
       Hdef Hnm Hnone)))).
Defined.

(** The cropped run of the sample. *)
Lemma runAcir_crops_around_own_points_sample :
  let w := world0 in
  let w' := acir_run.2 in
  let nf := volume "fixed" "/data/fixed.nrrd" in
  let nm := volume "moving" "/data/moving.nrrd" in
  let nff := fiducial "F" (220, 242, 78) in
  let nmf := fiducial "M" (0, 0, 0) in
  runAcir codes_ok 0 1 2 3 None None w = (Ok (VNode 7), w') ∧
  (VNode 7 : PyVal) ≠ VInt (-1) ∧
  nodes w !! 0%nat = Some nf ∧ nodes w !! 1%nat = Some nm ∧
  nodes w !! 2%nat = Some nff ∧ nodes w !! 3%nat = Some nmf ∧
  let vt := customise None None setGlobalVariables in
  let out := outputPath vt in
  let ptF := v2t (ptRAS2IJK nff nf) in
  let ptM := v2t (ptRAS2IJK nmf nm) in
  let cropF := cropped_path vt nf ptF (croppingLength vt) (RSxyz vt) (hrChk vt) in
  let cropM := cropped_path vt nm ptM (croppingLength vt) (RSxyz vt) (hrChk vt) in
  ∃ pf pm post,
    nStorage nf = Some pf ∧ nStorage nm = Some pm ∧
    calls w' =
      calls w ++
        [EvClearOutputs (outputPath setGlobalVariables);
         EvCopyFile pf (join out (nName nf +:+ ".nrrd"));
         EvCopyFile pm (join out (nName nm +:+ ".nrrd"));
         EvSaveNode 2 (join out (nName nf +:+ "_F_Cochlea_Pos.fcsv"));
         EvSaveNode 3 (join out (nName nm +:+ "_M_Cochlea_Pos.fcsv"));
         EvCropping 0 ptF (croppingLength vt) (RSxyz vt) (hrChk vt);
         EvLoadVolume cropF;
         EvCropping 1 ptM (croppingLength vt) (RSxyz vt) (hrChk vt);
         EvLoadVolume cropM;
         EvElastix (elastixBinPath vt) cropF cropM out (parsPath vt)
           (noOutput vt) "336"] ++ post.
Proof.
  intros w w' nf nm nff nmf.
  assert (Hrun : runAcir codes_ok 0 1 2 3 None None w = (Ok (VNode 7), w'))
    by (vm_compute; reflexivity).
  assert (Hv : (VNode 7 : PyVal) ≠ VInt (-1)) by discriminate.
  assert (Hf : nodes w !! 0%nat = Some nf) by (vm_compute; reflexivity).
  assert (Hm : nodes w !! 1%nat = Some nm) by (vm_compute; reflexivity).
  assert (Hff : nodes w !! 2%nat = Some nff) by (vm_compute; reflexivity).
  assert (Hmf : nodes w !! 3%nat = Some nmf) by (vm_compute; reflexivity).
  refine (conj Hrun (conj Hv (conj Hf (conj Hm (conj Hff (conj Hmf
    (runAcir_crops_around_own_points codes_ok 0 1 2 3 None None w _ w'
       nf nm nff nmf Hrun Hv Hf Hm Hff Hmf _ _ _ _ _))))))); lia.
Defined.

(** The transform without keys goes through unchanged. *)
Lemma modifyTransform_without_keys_sample :
  let w := plain_transform_world in
  let w' := plain_transform_run.2 in
  modifyTransform codes_ok vt0 0 "/VisSimTools/outputs/fixed.nrrd" w
    = (Ok 0, w') ∧
  files w !! join (outputPath vt0) "TransformParameters.0.txt"
    = Some plain_transform ∧
  Forall (λ l, str_in "(Size " l = false ∧ str_in "(Origin " l = false)
    (readlines plain_transform) ∧
  files w' !! join (outputPath vt0) "TransformParametersModInv.txt"
    = Some plain_transform.
Proof.
  intros w w'.
  assert (Hrun : modifyTransform codes_ok vt0 0
                   "/VisSimTools/outputs/fixed.nrrd" w = (Ok 0, w'))
    by (vm_compute; reflexivity).
  assert (Hreg : files w !! join (outputPath vt0) "TransformParameters.0.txt"
                 = Some plain_transform) by (vm_compute; reflexivity).
  assert (Hkeys : Forall (λ l, str_in "(Size " l = false
                               ∧ str_in "(Origin " l = false)
                    (readlines plain_transform))
    by (vm_compute; repeat constructor).
  exact (conj Hrun (conj Hreg (conj Hkeys
    (modifyTransform_without_keys codes_ok vt0 0 _ w 0 w' plain_transform
       Hrun Hreg Hkeys)))).
Defined.

(** The two volumes called [vol]. *)
Lemma same_named_volumes_share_the_copy_sample :
  let w := twins_world in
  let nf := volume "vol" "/data/fixed.nrrd" in
  let nm := volume "vol" "/data/moving.nrrd" in
  nodes w !! 0%nat = Some nf ∧ nodes w !! 1%nat = Some nm ∧
  nName nf = nName nm ∧
  run codes_ok 0 1 None None w = (Ok (VNode 5), twins_run.2) ∧
  ∃ copy, EvElastix "/VisSimTools/bin/elastix" copy copy
            "/VisSimTools/outputs" "/VisSimTools/pars/parCochSeg.txt" tt "336"
          ∈ calls twins_run.2.
Proof.
  intros w nf nm.
  assert (Hf : nodes w !! 0%nat = Some nf) by (vm_compute; reflexivity).
  assert (Hm : nodes w !! 1%nat = Some nm) by (vm_compute; reflexivity).
  assert (Hname : nName nf = nName nm) by reflexivity.
  assert (Hrun : run codes_ok 0 1 None None w = (Ok (VNode 5), twins_run.2))
    by (vm_compute; reflexivity).
  split; [exact Hf|]. split; [exact Hm|]. split; [exact Hname|].
  split; [exact Hrun|].
  destruct (same_named_volumes_share_the_copy codes_ok 0 1 None None w nf nm
              Hf Hm Hname) as [_ Hshared].
  exact (Hshared _ _ Hrun).
Defined.

(** The plain run of the sample: the moving volume is stored as
    [/data/moving.nrrd] and comes back as [moving]. *)
Lemma moving_volume_reloaded_under_file_name_sample :
  let w := world0 in
  let w' := plain_run.2 in
  let nm := volume "moving" "/data/moving.nrrd" in
  run codes_ok 0 1 None None w = (Ok (VNode 5), w') ∧
  nodes w !! 1%nat = Some nm ∧
  nStorage nm = Some (join "/data" ("moving" +:+ "." +:+ "nrrd")) ∧
  ∃ u (nu : Node),
    (u ∉ dom (nodes w)) ∧ nodes w' !! u = Some nu ∧
    nName nu = "moving" ∧ nStorage nu = nStorage nm ∧
    nClass nu = ScalarVolumeNode.
Proof.
  intros w w' nm.
  assert (Hrun : run codes_ok 0 1 None None w = (Ok (VNode 5), w'))
    by (vm_compute; reflexivity).
  assert (Hv : (VNode 5 : PyVal) ≠ VInt (-1)) by discriminate.
  assert (Hm : nodes w !! 1%nat = Some nm) by (vm_compute; reflexivity).
  assert (Hst : nStorage nm = Some (join "/data" ("moving" +:+ "." +:+ "nrrd")))
    by (vm_compute; reflexivity).
  exact (conj Hrun (conj Hm (conj Hst
    (moving_volume_reloaded_under_file_name codes_ok 0 1 2 3 None None w _ w'
       nm "/data" "moving" "nrrd" (or_introl Hrun) Hv Hm Hst
       eq_refl eq_refl eq_refl eq_refl)))).
Defined.

(** A click in an empty scene: the registration raises, the button
    stays as it was set. *)
Lemma failed_click_leaves_button_waiting_sample :
  onApplyBtnClick codes_ok half_set fresh_machine
    = (Raise AttributeError, lost_click.2) ∧
  ∃ evs,
    calls lost_click.2 =
      calls fresh_machine ++
        [EvGui "runBtn.setText" "...please wait";
         EvGui "runBtn.setStyleSheet" "QPushButton{ background-color: red  }"]
        ++ evs ∧
    Forall off_the_button evs.
Proof.
  assert (Hrun : onApplyBtnClick codes_ok half_set fresh_machine
                 = (Raise AttributeError, lost_click.2))
    by (vm_compute; reflexivity).
  exact (conj Hrun
    (failed_click_leaves_button_waiting codes_ok _ _ _ _ Hrun)).
Defined.

(** A click with both fiducial nodes chosen and no fixed point. *)
Lemma click_displays_the_error_value_sample :
  let w := world0 in
  let w' := pointless_click.2 in
  let nff := fiducial "M" (0, 0, 0) in
  let nf := volume "fixed" "/data/fixed.nrrd" in
  onApplyBtnClick codes_ok no_fixed_point w = (Ok tt, w') ∧
  nodes w !! 3%nat = Some nff ∧ nodes w !! 0%nat = Some nf ∧
  np_sum (ptRAS2IJK nff nf) = 0 ∧
  ∃ pre post,
    calls w' = calls w ++ pre ++ [EvFuse 0 (VInt (-1))] ++ post.
Proof.
  intros w w' nff nf.
  assert (Hrun : onApplyBtnClick codes_ok no_fixed_point w = (Ok tt, w'))
    by (vm_compute; reflexivity).
  assert (Hnff : nodes w !! 3%nat = Some nff) by (vm_compute; reflexivity).
  assert (Hnf : nodes w !! 0%nat = Some nf) by (vm_compute; reflexivity).
  assert (Hsum : np_sum (ptRAS2IJK nff nf) = 0) by (vm_compute; reflexivity).
  exact (conj Hrun (conj Hnff (conj Hnf (conj Hsum
    (click_displays_the_error_value codes_ok no_fixed_point w tt w' 3%nat
       2%nat nff nf Hrun eq_refl eq_refl Hnff Hnf Hsum))))).
Defined.

(** The test with a fixed point and no moving point. *)
Lemma test_without_points_registers_whole_images_sample :
  let fixedPoint := Some [165; 240; 34] in
  let movingPoint : option (list Z) := None in
  (fixedPoint = None ∨ movingPoint = None) ∧
  emits whole_image_call
    (testSlicerCochleaRegistration codes_ok test_fixedImgPath
       test_movingImgPath fixedPoint movingPoint None None) ∧
  emits whole_image_call
    (testSlicerCochleaDirectRegistration codes_ok test_fixedImgPath
       test_movingImgPath None None).
Proof.
  intros fixedPoint movingPoint.
  assert (Hnone : fixedPoint = None ∨ movingPoint = None)
    by (right; reflexivity).
  exact (conj Hnone
    (test_without_points_registers_whole_images codes_ok test_fixedImgPath
       test_movingImgPath fixedPoint movingPoint None None Hnone)).
Defined.

(** The fixed location picked after the moving one: the widget keeps
    node 3 as the moving fiducial node, and node 3 has left the scene. *)
Lemma location_click_keeps_the_other_node_sample :
  let self := moving_picked in
  let self' := {| fixedSelectorCoBx := 0%nat; movingSelectorCoBx := 1%nat;
                  fixedFiducialNode := Some 4%nat;
                  movingFiducialNode := Some 3%nat |} in
  let w := located_world in
  let w' := fixed_pick.2 in
  onInputFiducialBtnClick locate self "F" w = (Ok self', w') ∧
  old_location (nodes w) 3 = true ∧
  3%nat ∈ scene w ∧ (3%nat ∉ scene w') ∧
  movingFiducialNode self' = Some 3%nat.
Proof.
  intros self self' w w'.
  assert (Hrun : onInputFiducialBtnClick locate self "F" w = (Ok self', w'))
    by (vm_compute; reflexivity).
  assert (Hold : old_location (nodes w) 3 = true) by (vm_compute; reflexivity).
  destruct (location_click_keeps_the_other_node locate self "F" w self' w' Hrun)
    as (_ & _ & _ & _ & _ & Hstale).
  destruct (Hstale 3%nat eq_refl eq_refl Hold) as [Hkept _].
  split; [exact Hrun|]. split; [exact Hold|].
  split; [apply (bool_decide_unpack _); vm_compute; exact I|].
  split; [apply (bool_decide_unpack _); vm_compute; exact I|].
  exact Hkept.
Defined.

End MoreOnTheSample.
